(** * Zion/mm/pmap.c: physical page registry and two-level page tables

    A shallow embedding of the memory manager of the Zion kernel
    (Zion/Zion/mm/pmap.c) and the properties its specification states.

    The C globals ([npages], [pages], [free_pages], [kern_pgdir],
    [nextfree]) and the static [freeptr] of [alloc_free_page] become the
    fields of one machine state that every function threads; physical
    memory is a map from the physical address of an aligned 32-bit word
    to that word; [invlpg] is recorded in a log.  A function either
    returns in a new state, halts the kernel ([panic], a failed
    [assert]), or leaves the C abstract machine (an access to a
    descriptor outside the list [pages], which stands for the block of
    the registry, a read of an uninitialised local).  The loops
    whose bound the C code recomputes run on fuel; running out of it is
    an outcome of its own, which the loop of [page_init] never has. *)

From Stdlib Require Import ZArith Lia.
From stdpp Require Import base numbers list.

Open Scope Z_scope.

(** ** Machine words and the constants of the headers *)

(** Modelled from the spec: include/mmu.h, include/memlayout.h,
    include/error.h and include/mm.h are not part of the sources.  The
    paging constants are those of the 32-bit two-level scheme the spec
    describes (a table is one frame of 1024 four-byte entries) and that
    the comment in [pgdir_walk] draws: 10 bits of directory index, 10 bits
    of table index, 12 bits of offset.  The permission bits are the
    hardware's (present, writable, user).  [IOPHYSMEM] and [EXTPHYSMEM]
    delimit the legacy hole between 640 KiB and 1 MiB. *)
Module Mmu.
Definition WORD : Z := 2 ^ 32.
Definition PGSIZE : Z := 4096.
Definition PTE_P : Z := 1.
Definition PTE_W : Z := 2.
Definition PTE_U : Z := 4.
Definition IOPHYSMEM : Z := 0xA0000.
Definition EXTPHYSMEM : Z := 0x100000.

(** A value stored in a [uint32_t], [size_t], [uintptr_t] or
    [physaddr_t]. *)
Definition u32 (x : Z) : Z := x mod WORD.

Definition PDX (la : Z) : Z := Z.land (Z.shiftr la 22) 0x3FF.
Definition PTX (la : Z) : Z := Z.land (Z.shiftr la 12) 0x3FF.
Definition PTE_ADDR (pte : Z) : Z := Z.land pte 0xFFFFF000.

(** [round_up(a, n)] on 32-bit quantities. *)
Definition round_up (a n : Z) : Z :=
  let x := u32 (a + n - 1) in x - x mod n.
End Mmu.
Export Mmu.

(** The parts of the kernel's layout that neither the sources nor the
    spec fix are parameters of the development: the kernel base offset,
    the linker symbol [end], the error number and the range of the
    reference counter of [struct Page]. *)
Class Layout := {
  KERNBASE : Z;
  kernel_end : Z;
  E_NO_MEM : Z;
  REF_LIMIT : Z;
  KERNBASE_range : 0 <= KERNBASE < WORD;
  KERNBASE_aligned : KERNBASE mod PGSIZE = 0;
  E_NO_MEM_pos : 0 < E_NO_MEM;
  REF_LIMIT_big : 1 < REF_LIMIT
}.

(** ** The machine state *)

(** [struct Page]: the free-list link and the reference count.  A
    [struct Page *] is [NULL] or the address of [pages[i]], kept as the
    index [i]. *)
Record Page := mkPage {
  pp_next : option nat;
  pp_ref : Z
}.

Definition zero_Page : Page := mkPage None 0.

Record KState := mkKState {
  npages : Z;
  n_base_pages : Z;
  kern_pgdir : Z;
  pages : list Page;
  free_pages : option nat;
  nextfree : Z;
  freeptr : Z;
  mem : Z -> Z;
  tlb_log : list Z
}.

Definition set_npages (n b : Z) (s : KState) : KState :=
  mkKState n b (kern_pgdir s) (pages s) (free_pages s) (nextfree s)
           (freeptr s) (mem s) (tlb_log s).
Definition set_kern_pgdir (p : Z) (s : KState) : KState :=
  mkKState (npages s) (n_base_pages s) p (pages s) (free_pages s)
           (nextfree s) (freeptr s) (mem s) (tlb_log s).
Definition set_pages (ps : list Page) (s : KState) : KState :=
  mkKState (npages s) (n_base_pages s) (kern_pgdir s) ps (free_pages s)
           (nextfree s) (freeptr s) (mem s) (tlb_log s).
Definition set_free_pages (h : option nat) (s : KState) : KState :=
  mkKState (npages s) (n_base_pages s) (kern_pgdir s) (pages s) h
           (nextfree s) (freeptr s) (mem s) (tlb_log s).
Definition set_nextfree (p : Z) (s : KState) : KState :=
  mkKState (npages s) (n_base_pages s) (kern_pgdir s) (pages s)
           (free_pages s) p (freeptr s) (mem s) (tlb_log s).
Definition set_freeptr (p : Z) (s : KState) : KState :=
  mkKState (npages s) (n_base_pages s) (kern_pgdir s) (pages s)
           (free_pages s) (nextfree s) p (mem s) (tlb_log s).
Definition set_mem (m : Z -> Z) (s : KState) : KState :=
  mkKState (npages s) (n_base_pages s) (kern_pgdir s) (pages s)
           (free_pages s) (nextfree s) (freeptr s) m (tlb_log s).
Definition set_tlb_log (l : list Z) (s : KState) : KState :=
  mkKState (npages s) (n_base_pages s) (kern_pgdir s) (pages s)
           (free_pages s) (nextfree s) (freeptr s) (mem s) l.

(** The state with a new registry, free-list head, memory and
    invalidation log. *)
Definition put (ps : list Page) (fp : option nat) (m : Z -> Z) (tl : list Z)
    (s : KState) : KState :=
  mkKState (npages s) (n_base_pages s) (kern_pgdir s) ps fp (nextfree s)
           (freeptr s) m tl.

(** Memory after the word at [a] is set to [v]. *)
Definition updated (m : Z -> Z) (a v : Z) : Z -> Z :=
  fun x => if x =? a then v else m x.

(** Memory after the [n] bytes from [pa] are set to the byte [c]. *)
Definition filled (m : Z -> Z) (pa c n : Z) : Z -> Z :=
  fun x => if u32 (x - pa) <? n then c * 0x01010101 else m x.

(** ** Outcomes and the monad of kernel functions *)

Inductive halt :=
| panic_boot_alloc        (* boot_alloc: we're out of memory! *)
| assert_pp_ref_zero      (* page_free: assert(pp->pp_ref == 0) *)
| assert_la_aligned       (* page_map_segment: assert(0 == la % PGSIZE) *)
| assert_pte_not_null     (* page_map_segment: assert(pte != NULL) *)
| panic_kernel_space.     (* alloc_free_page: out of kernel space *)

Inductive result (A : Type) :=
| Done (a : A) (s : KState)
| Halt (h : halt)
| Undefined
| OutOfFuel.
Arguments Done {A} a s.
Arguments Halt {A} h.
Arguments Undefined {A}.
Arguments OutOfFuel {A}.

Definition M (A : Type) : Type := KState -> result A.

Definition ret {A} (a : A) : M A := fun s => Done a s.
Definition bind {A B} (m : M A) (k : A -> M B) : M B :=
  fun s => match m s with
           | Done a s' => k a s'
           | Halt h => Halt h
           | Undefined => Undefined
           | OutOfFuel => OutOfFuel
           end.

Notation "x <- m ;; k" := (bind m (fun x => k))
  (at level 100, m at next level, right associativity).
Notation "m ;;; k" := (bind m (fun _ => k))
  (at level 100, right associativity).

Definition gets {A} (f : KState -> A) : M A := fun s => Done (f s) s.
Definition modify (f : KState -> KState) : M unit := fun s => Done tt (f s).
Definition halt_with {A} (h : halt) : M A := fun _ => Halt h.
Definition undefined {A} : M A := fun _ => Undefined.
Definition assert (b : bool) (h : halt) : M unit :=
  if b then ret tt else halt_with h.

(** [for (i = start; i < start + count; i++) body(i)], for a bound that
    the body does not change. *)
Fixpoint for_range (i : nat) (count : nat) (body : nat -> M unit) : M unit :=
  match count with
  | O => ret tt
  | S c => body i ;;; for_range (S i) c body
  end.

(** ** The functions of pmap.c *)

Section Pmap.
Context {L : Layout}.

(** Modelled from the spec: [KADDR], [PADDR], [Page::physaddr] and
    [Page::data] come from the missing headers.  The kernel sees physical
    address [pa] at [pa + KERNBASE] (the spec's identity map of physical
    memory at the kernel base), and the descriptor of index [i] stands for
    the frame at [i * PGSIZE] (frame number = index, as the spec's data
    model has it). *)
Definition KADDR (pa : Z) : Z := u32 (pa + KERNBASE).
Definition PADDR (kva : Z) : Z := u32 (kva - KERNBASE).
Definition physaddr (pp : nat) : Z := u32 (Z.of_nat pp * PGSIZE).
Definition data (pp : nat) : Z := KADDR (physaddr pp).

(** *** Memory *)

(** [*(uint32_t * )p] for a kernel pointer [p]. *)
Definition load (p : Z) : M Z := fun s => Done (mem s (PADDR p)) s.

(** [*(uint32_t * )p = v]. *)
Definition store (p v : Z) : M unit :=
  modify (fun s => set_mem (updated (mem s) (PADDR p) (u32 v)) s).

(** [memset(p, c, n)] on whole words: every word whose address lies in
    [n] bytes from [p] holds the byte [c] four times. *)
Definition memset (p c n : Z) : M unit :=
  modify (fun s => set_mem (filled (mem s) (PADDR p) c n) s).

(** *** The page registry *)

(** [pages[i]] as an rvalue. *)
Definition read_Page (i : nat) : M Page :=
  fun s => match pages s !! i with
           | Some p => Done p s
           | None => Undefined
           end.

(** [pages[i] = p]. *)
Definition write_Page (i : nat) (p : Page) : M unit :=
  fun s => match pages s !! i with
           | Some _ => Done tt (set_pages (<[i := p]> (pages s)) s)
           | None => Undefined
           end.

(** [pages[i].pp_ref++]. *)
Definition incref (i : nat) : M unit :=
  p <- read_Page i ;;
  write_Page i (mkPage (pp_next p) ((pp_ref p + 1) mod REF_LIMIT)).

(** [pages[i].pp_ref = r]. *)
Definition set_ref (i : nat) (r : Z) : M unit :=
  p <- read_Page i ;;
  write_Page i (mkPage (pp_next p) r).

(** [pages[i].pp_next = n]. *)
Definition set_next (i : nat) (n : option nat) : M unit :=
  p <- read_Page i ;;
  write_Page i (mkPage n (pp_ref p)).

(** *** Memory detection *)

(** [i386_mem_detect], from the two readings [nvram_read(NVRAM_BASELO)]
    and [nvram_read(NVRAM_EXTLO)], in kilobytes. *)
Definition i386_mem_detect (base_kb ext_kb : Z) : M unit :=
  let n_base := u32 (base_kb * 1024 / PGSIZE) in
  let n_extended_pages := u32 (ext_kb * 1024 / PGSIZE) in
  if n_extended_pages =? 0
  then modify (set_npages n_base n_base)
  else modify (set_npages (u32 (EXTPHYSMEM / PGSIZE + n_extended_pages)) n_base).

(** *** The boot-time allocator *)

Definition boot_alloc (n : Z) : M Z :=
  nf <- gets nextfree ;;
  (if nf =? 0 then modify (set_nextfree (round_up kernel_end PGSIZE))
   else ret tt) ;;;
  v <- gets nextfree ;;
  modify (set_nextfree (u32 (v + round_up n PGSIZE))) ;;;
  nf' <- gets nextfree ;;
  np <- gets npages ;;
  if u32 (np * PGSIZE + KERNBASE) <? nf'
  then halt_with panic_boot_alloc
  else ret v.

(** *** The registry *)

(** The number of descriptors of [sz] bytes in the [npages * sz] bytes
    that [mem_init] asks for and clears, and the number that the block
    returned by [boot_alloc] has room for: the block is a whole number of
    pages.  The products are those of 32-bit arithmetic. *)
Definition registry_cleared (sz np : Z) : nat :=
  Z.to_nat (u32 (np * sz) / sz).

Definition registry_block (sz np : Z) : nat :=
  Z.to_nat (round_up (u32 (np * sz)) PGSIZE / sz).

(** [mem_init], lines 122 and 123: the registry is the block that
    [boot_alloc] returns for [npages] descriptors of [sz] bytes, [sz]
    being [sizeof(struct Page)], which the missing headers fix.
    [memset] clears these descriptors; the descriptors that fill the rest
    of the last page of the block keep what the memory held, [junk]. *)
Definition alloc_pages (sz : Z) (junk : nat -> Page) : M unit :=
  np <- gets npages ;;
  _ <- boot_alloc (u32 (np * sz)) ;;
  modify (set_pages
            (replicate (registry_cleared sz np) zero_Page ++
             map junk (seq (registry_cleared sz np)
                           (registry_block sz np - registry_cleared sz np)))).

(** [mem_init], lines 106 to 123: the state that it hands to
    [page_init]. *)
Definition mem_init_registry (base_kb ext_kb sz : Z) (junk : nat -> Page)
    : M unit :=
  modify (set_nextfree 0) ;;;
  i386_mem_detect base_kb ext_kb ;;;
  alloc_pages sz junk.

(** *** page_init *)

(** The body of the loop that pushes every frame on the free list. *)
Definition push_frame (i : nat) : M unit :=
  set_ref i 0 ;;;
  fp <- gets free_pages ;;
  set_next i fp ;;;
  modify (set_free_pages (Some i)).

(** The body shared by the two loops that take frames out of the list. *)
Definition reserve_frame (i : nat) : M unit :=
  p <- read_Page i ;;
  set_next (S i) (pp_next p) ;;;
  incref i.

(** [for (i = ...; i < PADDR(boot_alloc(0)) / PGSIZE; i++)]: the bound is
    evaluated before every iteration. *)
Fixpoint reserve_boot (fuel : nat) (i : nat) : M unit :=
  match fuel with
  | O => fun _ => OutOfFuel
  | S f =>
      v <- boot_alloc 0 ;;
      if Z.of_nat i <? PADDR v / PGSIZE
      then reserve_frame i ;;; reserve_boot f (S i)
      else ret tt
  end.

Definition page_init : M unit :=
  modify (set_free_pages None) ;;;
  np <- gets npages ;;
  for_range 1 (Z.to_nat (np - 1)) push_frame ;;;
  p0 <- read_Page 0 ;;
  set_next 1 (pp_next p0) ;;;
  incref 0 ;;;
  for_range (Z.to_nat (IOPHYSMEM / PGSIZE))
            (Z.to_nat (EXTPHYSMEM / PGSIZE - IOPHYSMEM / PGSIZE))
            reserve_frame ;;;
  ps <- gets pages ;;
  reserve_boot (S (length ps)) (Z.to_nat (EXTPHYSMEM / PGSIZE)).

(** *** Frame allocation *)

Definition page_alloc : M (option nat) :=
  fp <- gets free_pages ;;
  match fp with
  | None => ret None
  | Some pageallocate =>
      memset (data pageallocate) 0xcc PGSIZE ;;;
      p <- read_Page pageallocate ;;
      modify (set_free_pages (pp_next p)) ;;;
      ret (Some pageallocate)
  end.

Definition page_free (pp : nat) : M unit :=
  p <- read_Page pp ;;
  assert (pp_ref p =? 0) assert_pp_ref_zero ;;;
  memset (data pp) 0xcc PGSIZE ;;;
  fp <- gets free_pages ;;
  set_next pp fp ;;;
  modify (set_free_pages (Some pp)).

Definition page_decref (pp : nat) : M unit :=
  p <- read_Page pp ;;
  let r := (pp_ref p - 1) mod REF_LIMIT in
  write_Page pp (mkPage (pp_next p) r) ;;;
  if r =? 0 then page_free pp else ret tt.

(** *** The page-table walker *)

(** [&pgdir[PDX(va)]]. *)
Definition pde_slot (pgdir va : Z) : Z := u32 (pgdir + 4 * PDX va).

(** [&((pte_t * ) KADDR(PTE_ADDR(pde)))[PTX(va)]]. *)
Definition pte_slot (pde va : Z) : Z := u32 (KADDR (PTE_ADDR pde) + 4 * PTX va).

(** A [pte_t *]; [NULL] is the pointer 0. *)
Definition pgdir_walk (pgdir va : Z) (create : bool) : M Z :=
  pde <- load (pde_slot pgdir va) ;;
  if pde =? 0 then
    if negb create then ret 0 else
    pa <- page_alloc ;;
    match pa with
    | None => ret 0
    | Some pageallocate =>
        incref pageallocate ;;;
        memset (data pageallocate) 0 PGSIZE ;;;
        store (pde_slot pgdir va)
              (Z.lor (Z.lor (Z.lor (physaddr pageallocate) PTE_U) PTE_W) PTE_P) ;;;
        pde' <- load (pde_slot pgdir va) ;;
        ret (pte_slot pde' va)
    end
  else ret (pte_slot pde va).

Definition tlb_invalidate (pgdir va : Z) : M unit :=
  modify (fun s => set_tlb_log (tlb_log s ++ [va]) s).

(** [page_lookup]: the returned [struct Page *] and the value left in
    [*pte_store] ([None] when nothing was written there).  [pte_store]
    tells whether the caller passed a non-null [pte_store]. *)
Definition page_lookup (pgdir va : Z) (pte_store : bool)
    : M (option nat * option Z) :=
  pte <- pgdir_walk pgdir va false ;;
  if pte =? 0 then ret (None, None) else
  if pte_store then
    e <- load pte ;;
    if e =? 0 then ret (None, Some pte)
    else ret (Some (Z.to_nat (PTE_ADDR e / PGSIZE)), Some pte)
  else ret (None, None).

Definition page_remove (pgdir va : Z) : M unit :=
  r <- page_lookup pgdir va true ;;
  match fst r with
  | Some pp =>
      page_decref pp ;;;
      match snd r with
      | Some pte => if pte =? 0 then ret tt else store pte 0
      | None => undefined
      end ;;;
      tlb_invalidate pgdir va
  | None => ret tt
  end.

(** The final statement of [page_insert]: the entry is written through
    the directory entry as it stands then. *)
Definition write_entry (pgdir va : Z) (pp : nat) (perm : Z) : M Z :=
  pde <- load (pde_slot pgdir va) ;;
  store (pte_slot pde va) (Z.lor (Z.lor (physaddr pp) perm) PTE_P) ;;;
  ret 0.

Definition page_insert (pgdir : Z) (pp : nat) (va perm : Z) : M Z :=
  pte <- pgdir_walk pgdir va false ;;
  if negb (pte =? 0) then
    e <- load pte ;;
    (if negb (PTE_ADDR e =? physaddr pp) then
       (if negb (PTE_ADDR e =? 0) then page_remove pgdir va else ret tt) ;;;
       incref pp
     else ret tt) ;;;
    write_entry pgdir va pp perm
  else
    pte <- pgdir_walk pgdir va true ;;
    if pte =? 0 then ret (- E_NO_MEM) else
    store (pde_slot pgdir va)
          (PADDR (u32 (Z.lor (Z.lor (PTE_ADDR pte) perm) PTE_P))) ;;;
    incref pp ;;;
    write_entry pgdir va pp perm.

(** *** The kernel-space facade *)

Definition page_map (va perm : Z) : M Z :=
  a <- page_alloc ;;
  match a with
  | None => ret (- E_NO_MEM)
  | Some allocatepage =>
      memset (data allocatepage) 0 PGSIZE ;;;
      kd <- gets kern_pgdir ;;
      _ <- page_insert kd allocatepage va perm ;;
      ret 0
  end.

Definition page_unmap (va : Z) : M unit :=
  kd <- gets kern_pgdir ;;
  page_remove kd va.

(** *** Allocation of a frame by kernel address *)

(** [check_va2pa]: the physical address [pgdir] gives to [va], or [~0]. *)
Definition check_va2pa (pgdir va : Z) : M Z :=
  pde <- load (pde_slot pgdir va) ;;
  if Z.land pde PTE_P =? 0 then ret (u32 (Z.lnot 0)) else
  e <- load (pte_slot pde va) ;;
  if Z.land e PTE_P =? 0 then ret (u32 (Z.lnot 0)) else
  ret (PTE_ADDR e).

Definition GetPhysicalAddress (pgdir va : Z) : M Z := check_va2pa pgdir va.

(** [va2page]: the descriptor of the frame that [kern_pgdir] gives to
    [va], as an index of [pages]; the index is computed, not read. *)
Definition va2page (va : Z) : M nat :=
  kd <- gets kern_pgdir ;;
  pa <- check_va2pa kd va ;;
  ret (Z.to_nat (pa / PGSIZE)).

(** [while (pp1->pp_next != pp0)]: the descriptor whose link is [pp0], or
    [None] when the end of the list is met first and [alloc_free_page]
    returns [NULL].  A walk of more links than the registry has
    descriptors is a walk around a cycle. *)
Fixpoint find_prev (fuel : nat) (pp1 : option nat) (pp0 : nat)
    : M (option nat) :=
  match fuel with
  | O => fun _ => OutOfFuel
  | S f =>
      match pp1 with
      | None => undefined
      | Some i =>
          p1 <- read_Page i ;;
          if decide (pp_next p1 = Some pp0) then ret (Some i)
          else match pp_next p1 with
               | None => ret None
               | Some _ => find_prev f (pp_next p1) pp0
               end
      end
  end.

(** [while ((uintptr_t)freeptr <= 0xfffff000)]; the value is the pointer
    returned, 0 for [NULL]. *)
Fixpoint alloc_free_loop (fuel : nat) (pp1 : option nat) : M Z :=
  match fuel with
  | O => fun _ => OutOfFuel
  | S f =>
      fp <- gets freeptr ;;
      if fp <=? 0xfffff000 then
        kd <- gets kern_pgdir ;;
        pa <- check_va2pa kd fp ;;
        let pp0 := Z.to_nat (pa / PGSIZE) in
        p0 <- read_Page pp0 ;;
        match pp_next p0 with
        | None =>
            modify (set_freeptr (u32 (fp + PGSIZE))) ;;;
            alloc_free_loop f pp1
        | Some _ =>
            if decide (pp1 = Some pp0) then
              incref pp0 ;;;
              set_next pp0 None ;;;
              modify (set_freeptr (u32 (fp + PGSIZE))) ;;;
              ret fp
            else
              ps <- gets pages ;;
              r <- find_prev (S (length ps)) pp1 pp0 ;;
              match r with
              | None => ret 0
              | Some prev =>
                  memset (data pp0) 0 PGSIZE ;;;
                  incref pp0 ;;;
                  p0' <- read_Page pp0 ;;
                  set_next prev (pp_next p0') ;;;
                  set_next pp0 None ;;;
                  modify (set_freeptr (u32 (fp + PGSIZE))) ;;;
                  ret fp
              end
        end
      else halt_with panic_kernel_space
  end.

(** [alloc_free_page]: [freeptr] steps over the 2^20 pages of the address
    space, so one more step than that finds the loop where it started. *)
Definition alloc_free_page : M Z :=
  pp1 <- gets free_pages ;;
  fp <- gets freeptr ;;
  (if fp =? 0 then v <- boot_alloc 0 ;; modify (set_freeptr v)
   else ret tt) ;;;
  alloc_free_loop (Z.to_nat (2 ^ 20 + 1)) pp1.

(** *** The bulk range mapper *)

(** One iteration of the loop of [page_map_segment]. *)
Definition map_one (pgdir la pa perm i : Z) : M unit :=
  pte <- pgdir_walk pgdir (u32 (la + i)) true ;;
  assert (negb (pte =? 0)) assert_pte_not_null ;;;
  store pte (Z.lor (Z.lor (u32 (pa + i)) perm) PTE_P).

(** [for (i = 0; i < size; i += PGSIZE)]: [size] has been rounded up to a
    multiple of [PGSIZE], so [i] takes the values [k * PGSIZE] for
    [k < size / PGSIZE] and never wraps. *)
Definition page_map_segment (pgdir la size pa perm : Z) : M unit :=
  let size := round_up size PGSIZE in
  assert (la mod PGSIZE =? 0) assert_la_aligned ;;;
  for_range 0 (Z.to_nat (size / PGSIZE)) (fun k =>
    map_one pgdir la pa perm (Z.of_nat k * PGSIZE)).

End Pmap.

(** ** A concrete machine *)

(** The layout used to run the model: the kernel base of the JOS family
    this kernel belongs to, a kernel image ending in frame 259, error
    number 4 and a 16-bit reference counter. *)
Definition zion_layout : Layout :=
  {| KERNBASE := 0xF0000000;
     kernel_end := 0xF0103A10;
     E_NO_MEM := 4;
     REF_LIMIT := 2 ^ 16;
     KERNBASE_range := ltac:(vm_compute; split; [discriminate | reflexivity]);
     KERNBASE_aligned := ltac:(reflexivity);
     E_NO_MEM_pos := ltac:(reflexivity);
     REF_LIMIT_big := ltac:(reflexivity) |}.

(** A machine of [np] frames, [np] above 256, before [page_init]: the
    [np] descriptors that [memset] has cleared, nothing allocated yet.
    The descriptors that fill the last page of the registry block behind
    them are left out: on such a machine [page_init] touches none of
    them when the frontier of [boot_alloc] lies below the last frame. *)
Definition boot_state (np : Z) : KState :=
  mkKState np np 0 (replicate (Z.to_nat np) zero_Page) None 0 0
           (fun _ => 0) [].


(** The machine before [mem_init]. *)
Definition power_on : KState :=
  mkKState 0 0 0 [] None 0 0 (fun _ => 0) [].

(** ** The free list as a sequence of frames *)

(** The frames met from [h] along [pp_next]; a link that leaves the
    registry ends the walk.  More than [length ps] steps meet no new
    frame. *)
Fixpoint walk_free (fuel : nat) (ps : list Page) (h : option nat) : list nat :=
  match fuel with
  | O => []
  | S f =>
      match h with
      | None => []
      | Some i =>
          match ps !! i with
          | Some p => i :: walk_free f ps (pp_next p)
          | None => [i]
          end
      end
  end.

Definition free_list (s : KState) : list nat :=
  walk_free (S (length (pages s))) (pages s) (free_pages s).

(** [F] is reachable from the head of the free list. *)
Definition on_free_list (s : KState) (F : nat) : Prop := F ∈ free_list s.

Definition on_free_listb (s : KState) (F : nat) : bool :=
  existsb (Nat.eqb F) (free_list s).

(** [pages[F].pp_ref], when [F] is a frame of the registry. *)
Definition ref_count (s : KState) (F : nat) : option Z :=
  pp_ref <$> pages s !! F.

(** [l] is the free list from [h]: every link stays in the registry and
    the last one is [NULL]. *)
Inductive chain (ps : list Page) : option nat -> list nat -> Prop :=
| chain_nil : chain ps None []
| chain_cons i p l :
    ps !! i = Some p -> chain ps (pp_next p) l -> chain ps (Some i) (i :: l).

(** [l] is the free list of the registry [ps] with head [fp]: a chain
    without repetition of frames whose reference count is 0. *)
Definition free_list_is (ps : list Page) (fp : option nat) (l : list nat)
    : Prop :=
  chain ps fp l /\ NoDup l /\
  forall F, F ∈ l -> exists p, ps !! F = Some p /\ pp_ref p = 0.

(** The registry of [n] descriptors while [page_init] takes the frames
    from 160 up to [f] out of the list: frame 0 and the frames taken out
    hold one reference, frames 1 to 159 are linked
    downwards, the link of [f] skips to 159, and the frames above [f]
    are linked downwards. *)
Definition init_shape (n : nat) (ps : list Page) (f : nat) : Prop :=
  length ps = n /\
  ps !! 0%nat = Some (mkPage None 1) /\
  (forall j, (1 <= j < 160)%nat ->
     ps !! j = Some (mkPage (if decide (j = 1%nat) then None
                             else Some (j - 1)%nat) 0)) /\
  (forall j, (160 <= j < f)%nat ->
     exists p, ps !! j = Some p /\ pp_ref p = 1) /\
  ps !! f = Some (mkPage (Some 159%nat) 0) /\
  (forall j, (f < j < n)%nat -> ps !! j = Some (mkPage (Some (j - 1)%nat) 0)).

(** A computation on the registry alone: it leaves the C abstract
    machine or returns, and when it returns the registry has as many
    descriptors as before and the frame count and the frontier of
    [boot_alloc] are untouched. *)
Definition registry_step {A} (m : M A) : Prop :=
  forall s, m s = Undefined \/
            exists a s', m s = Done a s' /\
              length (pages s') = length (pages s) /\
              npages s' = npages s /\ nextfree s' = nextfree s.

(** ** Reachable states *)

Section Reach.
Context {L : Layout}.

(** The registry as [mem_init] leaves it before [page_init], reduced to
    the [npages] descriptors that [memset] clears: a run of [page_init]
    that returns on it has touched no descriptor behind them. *)
Definition registry_zeroed (s : KState) : Prop :=
  pages s = replicate (Z.to_nat (npages s)) zero_Page.











End Reach.

(** ** Page tables as the claims read them *)

Section Tables.
Context {L : Layout}.

Definition aligned (x : Z) : Prop := x mod PGSIZE = 0.

(** The directory entry that governs [va]. *)
Definition pde_of (s : KState) (pgdir va : Z) : Z :=
  mem s (PADDR (pde_slot pgdir va)).

(** The physical address of the table entry of [va] under directory
    entry [pde]. *)
Definition pte_pa (pde va : Z) : Z := PTE_ADDR pde + 4 * PTX va.

(** The table entry that governs [va], read through the directory. *)
Definition pte_of (s : KState) (pgdir va : Z) : Z :=
  mem s (pte_pa (pde_of s pgdir va) va).

(** The table that governs [va] exists, is not the directory itself and
    has a non-null kernel address. *)
Definition table_present (s : KState) (pgdir va : Z) : Prop :=
  pde_of s pgdir va <> 0 /\
  PTE_ADDR (pde_of s pgdir va) <> PADDR pgdir /\
  KADDR (PTE_ADDR (pde_of s pgdir va)) <> 0.

(** The directory's own frame is not the head of the free list, is not
    the table that governs [va] and is not the frame mapped at [va]. *)
Definition directory_private (s : KState) (pgdir va : Z) : Prop :=
  aligned pgdir /\ 0 <= pgdir < WORD /\
  (forall T, free_pages s = Some T -> physaddr T <> PADDR pgdir) /\
  (pde_of s pgdir va <> 0 ->
   PTE_ADDR (pde_of s pgdir va) <> PADDR pgdir /\
   PTE_ADDR (pte_of s pgdir va) <> PADDR pgdir).

(** The entry that governs [va] holds frame [pp] with the bits [perm] and
    the present bit, in a table that is not the directory. *)
Definition entry_maps (s : KState) (pgdir va : Z) (pp : nat) (perm : Z) : Prop :=
  pde_of s pgdir va <> 0 /\
  pte_slot (pde_of s pgdir va) va <> 0 /\
  PTE_ADDR (pde_of s pgdir va) <> PADDR pgdir /\
  pte_of s pgdir va = u32 (Z.lor (Z.lor (physaddr pp) perm) PTE_P).

(** The directory entry that [pgdir_walk] writes for a new table in
    frame [T]. *)
Definition new_pde (T : nat) : Z :=
  u32 (Z.lor (Z.lor (Z.lor (physaddr T) PTE_U) PTE_W) PTE_P).

(** The frame [page_lookup] reports at [va] to a caller that passes a
    [pte_store]. *)
Definition lookup_frame (s : KState) (pgdir va : Z) : option (option nat) :=
  match page_lookup pgdir va true s with
  | Done r _ => Some (fst r)
  | _ => None
  end.

(** The indices of the non-empty entries of the table at physical
    address [pt]. *)
Definition populated (s : KState) (pt : Z) : list Z :=
  filter (fun k => mem s (pt + 4 * k) <> 0) (seqZ 0 1024).

End Tables.

(** ** Scenarios *)

Section Scenarios.
#[local] Existing Instance zion_layout.

Definition run {A} (m : M A) (s : KState) : KState :=
  match m s with
  | Done _ s' => s'
  | _ => s
  end.


(** The value returned and an observation of the final state. *)
Definition observe {A B} (obs : KState -> B) (r : result A) : option (A * B) :=
  match r with
  | Done a s => Some (a, obs s)
  | _ => None
  end.

(** [mem_init], lines 134-140: the kernel directory is the first frame
    allocated, referenced once and cleared. *)
Definition alloc_kern_pgdir : M unit :=
  a <- page_alloc ;;
  match a with
  | Some pp =>
      incref pp ;;;
      modify (set_kern_pgdir (data pp)) ;;;
      memset (data pp) 0 PGSIZE
  | None => undefined
  end.

(** A machine with 264 frames after [page_init], and after the kernel
    directory has been set up. *)
Definition s_init : KState := run page_init (boot_state 264).
Definition s_boot : KState := run alloc_kern_pgdir s_init.

(** A frame taken and referenced by its owner. *)
Definition take_frame : M unit :=
  a <- page_alloc ;;
  match a with
  | Some pp => incref pp
  | None => ret tt
  end.

(** The same machine when all frames but one are in use. *)
Definition s_last_frame : KState :=
  run (for_range 0 (length (free_list s_boot) - 1) (fun _ => take_frame)) s_boot.

(** The same machine when every frame is in use. *)
Definition s_exhausted : KState := run take_frame s_last_frame.

(** The same machine when the frames above the kernel are mapped at
    their kernel addresses, the head of the free list having become their
    page table, and [freeptr] stands at the first of them, frame 260,
    which lies inside the free list. *)
Definition s_linear : KState :=
  set_freeptr 0xF0104000
    (run (page_map_segment (kern_pgdir s_boot) 0xF0104000 (4 * PGSIZE)
                           0x104000 PTE_W) s_boot).

(** The same machine when the frames above the kernel are mapped at
    their kernel addresses and the head of the free list is the first of
    them, frame 260. *)
Definition s_head : KState :=
  run (page_map_segment (kern_pgdir s_boot) 0xF0104000 (4 * PGSIZE) 0x104000
                        PTE_W ;;; take_frame) s_boot.

(** The address used in the scenarios: the third slot of the directory,
    first entry of its table. *)
Definition va0 : Z := 0x00800000.

(** A frame taken by [page_alloc] and not yet mapped. *)
Definition s_alloc : KState := run page_alloc s_boot.





(** Frame 0 mapped at [va0] by [page_insert]. *)
Definition s_zero_mapped : KState :=
  run (page_insert (kern_pgdir s_boot) 0 va0 PTE_W) s_boot.

(** A frame allocated and mapped at [va0], writable. *)
Definition s_mapped : KState :=
  run (a <- page_alloc ;;
       match a with
       | Some pp => page_insert (kern_pgdir s_boot) pp va0 PTE_W
       | None => undefined
       end) s_boot.

(** The machine of [s_mapped] when the next page is mapped by
    [page_map_segment] to physical address 0x200000, frame 512, which the
    registry of 264 descriptors does not describe. *)
Definition s_unregistered : KState :=
  run (page_map_segment (kern_pgdir s_boot) 0x00801000 PGSIZE 0x200000 PTE_W)
      s_mapped.


End Scenarios.

(** * Properties *)

(** ** Words and addresses *)

Lemma u32_range x : 0 <= u32 x < WORD.
Proof. unfold u32, WORD. apply Z.mod_pos_bound. reflexivity. Qed.

Lemma u32_id x : 0 <= x < WORD -> u32 x = x.
Proof. intros H. unfold u32. apply Z.mod_small. exact H. Qed.

Lemma PTE_ADDR_div x : PTE_ADDR x = PGSIZE * (u32 x / PGSIZE).
Proof.
  unfold PTE_ADDR, u32, WORD, PGSIZE.
  change 0xFFFFF000 with (Z.ldiff (Z.ones 32) (Z.ones 12)).
  assert (E : Z.land x (Z.ldiff (Z.ones 32) (Z.ones 12))
              = Z.ldiff (Z.land x (Z.ones 32)) (Z.ones 12)).
  { apply Z.bits_inj'. intros n Hn.
    rewrite !Z.land_spec, !Z.ldiff_spec, !Z.land_spec.
    destruct (Z.testbit x n), (Z.testbit (Z.ones 32) n),
             (Z.testbit (Z.ones 12) n); reflexivity. }
  rewrite E, Z.ldiff_ones_r, Z.land_ones by lia.
  rewrite Z.shiftl_mul_pow2, Z.shiftr_div_pow2 by lia.
  change (2 ^ 12) with 4096. lia.
Qed.

Lemma PTE_ADDR_range x : 0 <= PTE_ADDR x < WORD.
Proof.
  rewrite PTE_ADDR_div. pose proof (u32_range x) as H.
  unfold PGSIZE, WORD in *.
  pose proof (Z.mul_div_le (u32 x) 4096 ltac:(lia)).
  pose proof (Z.div_pos (u32 x) 4096 ltac:(lia) ltac:(lia)).
  lia.
Qed.

Lemma PTE_ADDR_mod x : PTE_ADDR x mod PGSIZE = 0.
Proof.
  rewrite PTE_ADDR_div, Z.mul_comm. apply Z.mod_mul. discriminate.
Qed.

Lemma PTX_range va : 0 <= PTX va < 1024.
Proof.
  unfold PTX. change 0x3FF with (Z.ones 10). rewrite Z.land_ones by lia.
  change (2 ^ 10) with 1024. apply Z.mod_pos_bound. lia.
Qed.

Lemma PDX_range va : 0 <= PDX va < 1024.
Proof.
  unfold PDX. change 0x3FF with (Z.ones 10). rewrite Z.land_ones by lia.
  change (2 ^ 10) with 1024. apply Z.mod_pos_bound. lia.
Qed.

(** Flag bits below a page-aligned address add to it. *)
Lemma lor_low_bits a p :
  a mod PGSIZE = 0 -> 0 <= p < PGSIZE -> Z.lor a p = a + p.
Proof.
  unfold PGSIZE. intros Ha Hp.
  assert (E : Z.land a p = 0).
  { apply Z.bits_inj'. intros n Hn. rewrite Z.land_spec, Z.bits_0.
    destruct (Z.lt_ge_cases n 12) as [Hlt|Hge].
    - assert (Z.testbit a n = false) as ->; [|reflexivity].
      apply (Z.mod_pow2_bits_low a 12 n) in Hlt.
      change (2 ^ 12) with 4096 in Hlt. rewrite Ha, Z.bits_0 in Hlt.
      symmetry. exact Hlt.
    - assert (Z.testbit p n = false) as ->; [|apply andb_false_r].
      destruct (Z.eq_dec p 0) as [->|Hp0]; [apply Z.bits_0|].
      apply Z.bits_above_log2; [lia|].
      apply Z.lt_le_trans with 12; [|lia].
      apply Z.log2_lt_pow2; [lia|]. change (2 ^ 12) with 4096. lia. }
  rewrite <- Z.lxor_lor by exact E. symmetry.
  apply Z.add_nocarry_lxor. exact E.
Qed.

Lemma round_up_PGSIZE_range a :
  0 <= round_up a PGSIZE <= WORD - PGSIZE /\ round_up a PGSIZE mod PGSIZE = 0.
Proof.
  unfold round_up. pose proof (u32_range (a + PGSIZE - 1)) as H.
  set (x := u32 (a + PGSIZE - 1)) in *. unfold WORD, PGSIZE in *.
  change (2 ^ 32) with 4294967296 in *.
  pose proof (Z.mod_pos_bound x 4096 ltac:(lia)).
  pose proof (Z.div_mod x 4096 ltac:(lia)).
  assert (E : x - x mod 4096 = 4096 * (x / 4096)) by lia.
  rewrite E. split.
  - assert (x / 4096 < 1048576) by (apply Z.div_lt_upper_bound; lia).
    pose proof (Z.div_pos x 4096 ltac:(lia) ltac:(lia)). lia.
  - rewrite Z.mul_comm. apply Z.mod_mul. lia.
Qed.

Lemma round_up_idem a :
  round_up (round_up a PGSIZE) PGSIZE = round_up a PGSIZE.
Proof.
  destruct (round_up_PGSIZE_range a) as [Hr Hm].
  set (r := round_up a PGSIZE) in *.
  unfold round_up. rewrite u32_id by (unfold WORD, PGSIZE in *; lia).
  unfold PGSIZE in *.
  replace (r + 4096 - 1) with (4095 + r) by lia.
  rewrite <- Z.add_mod_idemp_r, Hm by lia.
  change ((4095 + 0) mod 4096) with 4095. lia.
Qed.

Lemma observe_Done {A B} (obs : KState -> B) (r : result A) a b :
  observe obs r = Some (a, b) -> exists s, r = Done a s /\ obs s = b.
Proof.
  destruct r as [a' s'| | |]; simpl; intros H; try discriminate.
  injection H as -> <-. exists s'. split; reflexivity.
Qed.



(** ** page_lookup and its [pte_store] argument *)

Section Lookup.
Context {L : Layout}.

(** Walking without [create] reads the directory and nothing else. *)
Lemma pgdir_walk_nocreate pgdir va s :
  pgdir_walk pgdir va false s =
  Done (if pde_of s pgdir va =? 0 then 0
        else pte_slot (pde_of s pgdir va) va) s.
Proof.
  unfold pgdir_walk, pde_of, bind, load, ret.
  destruct (mem s (PADDR (pde_slot pgdir va)) =? 0); reflexivity.
Qed.

(** C10.  For every directory and address, [page_lookup] called with a
    null [pte_store] returns [NULL] and changes nothing, whatever is
    mapped at the address; a call that does return a frame was made with
    a non-null [pte_store]. *)
Theorem page_lookup_null_pte_store :
  (forall s pgdir va, page_lookup pgdir va false s = Done (None, None) s) /\
  (forall s pgdir va pte_store pp q s',
     page_lookup pgdir va pte_store s = Done (Some pp, q) s' ->
     pte_store = true).
Proof.
  assert (H : forall s pgdir va,
             page_lookup pgdir va false s = Done (None, None) s).
  { intros s pgdir va. unfold page_lookup, bind.
    rewrite pgdir_walk_nocreate.
    destruct (_ =? 0); reflexivity. }
  split; [exact H|].
  intros s pgdir va [] pp q s' E; [reflexivity|].
  rewrite H in E. discriminate.
Qed.

End Lookup.

(** With a frame mapped at the address, the two ways of calling
    [page_lookup] differ. *)
Lemma page_lookup_null_pte_store_mapped :
  observe (fun _ => tt)
    (page_lookup (L := zion_layout) (kern_pgdir s_mapped) va0 true s_mapped)
  = Some ((Some 262%nat, Some 0xF0105000), tt) /\
  observe (fun _ => tt)
    (page_lookup (L := zion_layout) (kern_pgdir s_mapped) va0 false s_mapped)
  = Some ((None, None), tt).
Proof. split; vm_compute; reflexivity. Qed.

(** ** page_map_segment and alignment *)

Section Segment.
Context {L : Layout}.

(** C8, as the code has it.  [page_map_segment] halts on its assertion
    whenever the linear address is not a multiple of the page size.  The
    size is not checked: it is rounded up to the next multiple of the page
    size and the call goes on as for the rounded size. *)
Theorem page_map_segment_alignment s pgdir la size pa perm :
  (la mod PGSIZE <> 0 ->
   page_map_segment pgdir la size pa perm s = Halt assert_la_aligned) /\
  page_map_segment pgdir la size pa perm s =
  page_map_segment pgdir la (round_up size PGSIZE) pa perm s.
Proof.
  split.
  - intros H. unfold page_map_segment, bind, assert.
    apply Z.eqb_neq in H. rewrite H. reflexivity.
  - unfold page_map_segment. rewrite round_up_idem. reflexivity.
Qed.

End Segment.

Lemma page_map_segment_alignment_witness :
  page_map_segment (L := zion_layout) (kern_pgdir s_boot) 0x00800004
                   PGSIZE 0x5000 PTE_W s_boot
  = Halt assert_la_aligned.
Proof.
  apply (proj1 (page_map_segment_alignment (L := zion_layout) s_boot
                  (kern_pgdir s_boot) 0x00800004 PGSIZE 0x5000 PTE_W)).
  vm_compute. discriminate.
Defined.

(** C8, as the claim has it, fails for the size: a call with a size of
    one byte, which is not a multiple of the page size, and an aligned
    address returns normally after mapping one page. *)
Lemma page_map_segment_unaligned_size_returns :
  1 mod PGSIZE <> 0 /\
  observe (fun s => (pte_of (L := zion_layout) s (kern_pgdir s) va0,
                     populated s (PTE_ADDR
                       (pde_of (L := zion_layout) s (kern_pgdir s) va0))))
    (page_map_segment (L := zion_layout) (kern_pgdir s_boot) va0 1 0x5000
                      PTE_W s_boot)
  = Some (tt, (0x5003, [0])).
Proof. split; [vm_compute; discriminate|vm_compute; reflexivity]. Qed.

(** Scenarios are settled by running the model. *)
Ltac by_evaluation :=
  repeat match goal with |- _ /\ _ => split end; vm_compute; reflexivity.

(** ** page_map and the result of page_insert *)

(** C5.  With one free frame left and no table yet for the address,
    [page_map] takes the frame, the [page_insert] it calls returns
    [-E_NO_MEM] because no frame is left for the table, and [page_map]
    returns 0 all the same: nothing is mapped at the address, the free
    list is empty and the frame taken is neither mapped nor referenced. *)
Theorem page_map_drops_insert_failure :
  free_list s_last_frame = [1%nat] /\
  observe (fun s =>
             observe (fun _ => tt)
               (page_insert (L := zion_layout) (kern_pgdir s) 1 va0 PTE_W s))
    (page_alloc (L := zion_layout) s_last_frame)
  = Some (Some 1%nat, Some (- E_NO_MEM (Layout := zion_layout), tt)) /\
  observe (fun s => (free_list s,
                     lookup_frame (L := zion_layout) s (kern_pgdir s) va0,
                     ref_count s 1))
    (page_map (L := zion_layout) va0 PTE_W s_last_frame)
  = Some (0, ([], Some None, Some 0)).
Proof. by_evaluation. Qed.

(** ** page_insert and the translation cache *)

(** C6.  A frame is mapped writable at an address; inserting the same
    frame there again without the writable bit succeeds and rewrites the
    entry, and no [invlpg] is issued: the log of invalidations is as
    empty after the call as before. *)
Theorem page_insert_same_frame_no_invalidate :
  lookup_frame (L := zion_layout) s_mapped (kern_pgdir s_mapped) va0
  = Some (Some 262%nat) /\
  pte_of (L := zion_layout) s_mapped (kern_pgdir s_mapped) va0 = 0x106003 /\
  tlb_log s_mapped = [] /\
  observe (fun s => (pte_of (L := zion_layout) s (kern_pgdir s) va0,
                     tlb_log s))
    (page_insert (L := zion_layout) (kern_pgdir s_mapped) 262 va0 0 s_mapped)
  = Some (0, (0x106001, [])).
Proof. by_evaluation. Qed.

(** ** page_insert over a mapping of frame 0 *)

(** C4.  Frame 0 has been mapped at an address by [page_insert], which
    took a reference on it.  Inserting frame 261 at the same address
    succeeds and leaves frame 261 mapped with one reference more, but
    frame 0 keeps its two references and no [invlpg] is issued: the test
    [PTE_ADDR( *pte)] takes the entry for an empty one and [page_remove]
    is not called. *)
Theorem page_insert_over_frame_zero :
  lookup_frame (L := zion_layout) s_zero_mapped (kern_pgdir s_zero_mapped) va0
  = Some (Some 0%nat) /\
  ref_count s_zero_mapped 0 = Some 2 /\
  ref_count s_zero_mapped 261 = Some 0 /\
  observe (fun s => (lookup_frame (L := zion_layout) s (kern_pgdir s) va0,
                     ref_count s 0, ref_count s 261, tlb_log s))
    (page_insert (L := zion_layout) (kern_pgdir s_zero_mapped) 261 va0 PTE_W
                 s_zero_mapped)
  = Some (0, (Some (Some 261%nat), Some 2, Some 1, [])).
Proof. by_evaluation. Qed.

(** ** The bulk mapper and the free list *)

(** C7, as the claim has it, fails: on a directory that has no table for
    the range, mapping three pages fills three entries with the requested
    bits and takes one frame from the free list, the one [pgdir_walk]
    allocates for the table. *)
Lemma page_map_segment_takes_table_frame :
  free_list s_boot = 262%nat :: free_list
    (run (page_map_segment (L := zion_layout) (kern_pgdir s_boot) va0
                           (3 * PGSIZE) 0x5000 PTE_W) s_boot) /\
  observe (fun s =>
             (populated s (PTE_ADDR
                (pde_of (L := zion_layout) s (kern_pgdir s) va0)),
              pte_of (L := zion_layout) s (kern_pgdir s) va0,
              pte_of (L := zion_layout) s (kern_pgdir s) (va0 + PGSIZE),
              pte_of (L := zion_layout) s (kern_pgdir s) (va0 + 2 * PGSIZE),
              length (free_list s)))
    (page_map_segment (L := zion_layout) (kern_pgdir s_boot) va0
                      (3 * PGSIZE) 0x5000 PTE_W s_boot)
  = Some (tt, ([0; 1; 2], 0x5003, 0x6003, 0x7003, 161%nat)) /\
  length (free_list s_boot) = 162%nat.
Proof. by_evaluation. Qed.

(** ** Reasoning on the monad and on the registry *)

Lemma bind_Done {A B} (m : M A) (k : A -> M B) s b s' :
  bind m k s = Done b s' ->
  exists a s1, m s = Done a s1 /\ k a s1 = Done b s'.
Proof.
  unfold bind. destruct (m s) as [a s1| | |]; intros H; try discriminate.
  exists a, s1. split; [reflexivity|exact H].
Qed.

Lemma bind_eq {A B} (m : M A) (k : A -> M B) s a s1 :
  m s = Done a s1 -> bind m k s = k a s1.
Proof. unfold bind. intros ->. reflexivity. Qed.

Lemma bind_Undefined {A B} (m : M A) (k : A -> M B) s :
  m s = Undefined -> bind m k s = Undefined.
Proof. unfold bind. intros ->. reflexivity. Qed.

Lemma for_range_S i c body :
  for_range i (S c) body = (body i ;;; for_range (S i) c body).
Proof. reflexivity. Qed.

Section Registry.
Context {L : Layout}.

Lemma read_Page_eq i s p :
  pages s !! i = Some p -> read_Page i s = Done p s.
Proof. unfold read_Page. intros ->. reflexivity. Qed.

Lemma read_Page_Done i s p s' :
  read_Page i s = Done p s' -> pages s !! i = Some p /\ s' = s.
Proof.
  unfold read_Page. destruct (pages s !! i); intros H; try discriminate.
  injection H as -> ->. split; reflexivity.
Qed.

Lemma write_Page_eq i p s q :
  pages s !! i = Some q ->
  write_Page i p s = Done tt (set_pages (<[i := p]> (pages s)) s).
Proof. unfold write_Page. intros ->. reflexivity. Qed.

Lemma set_ref_eq i r s q :
  pages s !! i = Some q ->
  set_ref i r s = Done tt (set_pages (<[i := mkPage (pp_next q) r]> (pages s)) s).
Proof.
  intros H. unfold set_ref. rewrite (bind_eq _ _ _ _ _ (read_Page_eq _ _ _ H)).
  apply write_Page_eq with q. exact H.
Qed.

Lemma set_next_eq i n s q :
  pages s !! i = Some q ->
  set_next i n s = Done tt (set_pages (<[i := mkPage n (pp_ref q)]> (pages s)) s).
Proof.
  intros H. unfold set_next. rewrite (bind_eq _ _ _ _ _ (read_Page_eq _ _ _ H)).
  apply write_Page_eq with q. exact H.
Qed.

Lemma incref_eq i s q :
  pages s !! i = Some q ->
  incref i s = Done tt (set_pages
    (<[i := mkPage (pp_next q) ((pp_ref q + 1) mod REF_LIMIT)]> (pages s)) s).
Proof.
  intros H. unfold incref. rewrite (bind_eq _ _ _ _ _ (read_Page_eq _ _ _ H)).
  apply write_Page_eq with q. exact H.
Qed.

Lemma set_next_None i n s : pages s !! i = None -> set_next i n s = Undefined.
Proof. unfold set_next, bind, read_Page. intros ->. reflexivity. Qed.

Lemma incref_None i s : pages s !! i = None -> incref i s = Undefined.
Proof. unfold incref, bind, read_Page. intros ->. reflexivity. Qed.


Lemma incref_Done i s s' :
  incref i s = Done tt s' ->
  exists q, pages s !! i = Some q /\
    s' = set_pages
      (<[i := mkPage (pp_next q) ((pp_ref q + 1) mod REF_LIMIT)]> (pages s)) s.
Proof.
  destruct (pages s !! i) as [q|] eqn:E.
  - rewrite (incref_eq _ _ _ E). intros H. injection H as <-.
    exists q. split; reflexivity.
  - rewrite (incref_None _ _ E). discriminate.
Qed.

Lemma push_frame_eq i s q :
  pages s !! i = Some q ->
  push_frame i s =
  Done tt (set_free_pages (Some i)
            (set_pages (<[i := mkPage (free_pages s) 0]> (pages s)) s)).
Proof.
  intros H. unfold push_frame.
  rewrite (bind_eq _ _ _ _ _ (set_ref_eq _ 0 _ _ H)).
  unfold gets at 1. unfold bind at 1.
  assert (H' : pages (set_pages (<[i := mkPage (pp_next q) 0]> (pages s)) s)
               !! i = Some (mkPage (pp_next q) 0)).
  { simpl. apply list_lookup_insert_eq. apply lookup_lt_Some in H. exact H. }
  rewrite (bind_eq _ _ _ _ _ (set_next_eq _ _ _ _ H')).
  unfold modify. simpl. rewrite list_insert_insert_eq. reflexivity.
Qed.

Lemma push_loop_spec count : forall i s,
  (i + count <= length (pages s))%nat ->
  exists s',
    for_range i count push_frame s = Done tt s' /\
    length (pages s') = length (pages s) /\
    free_pages s' = match count with
                    | O => free_pages s
                    | S c => Some (i + c)%nat
                    end /\
    (forall j, (j < i \/ i + count <= j)%nat -> pages s' !! j = pages s !! j) /\
    (forall j, (i <= j < i + count)%nat ->
       pages s' !! j =
       Some (mkPage (if decide (j = i) then free_pages s
                     else Some (j - 1)%nat) 0)).
Proof.
  induction count as [|c IH]; intros i s Hlen.
  - exists s. simpl. repeat split; try reflexivity. intros j Hj. lia.
  - assert (Hi : (i < length (pages s))%nat) by lia.
    destruct (lookup_lt_is_Some_2 _ _ Hi) as [q Hq].
    simpl for_range. rewrite (bind_eq _ _ _ _ _ (push_frame_eq _ _ _ Hq)).
    set (s1 := set_free_pages _ _).
    destruct (IH (S i) s1) as (s' & Hrun & Hl & Hf & Hout & Hin).
    { subst s1. simpl. rewrite length_insert. lia. }
    exists s'. split; [exact Hrun|].
    subst s1. simpl in *. rewrite length_insert in Hl.
    split; [exact Hl|]. split.
    { rewrite Hf. destruct c; [f_equal; lia|f_equal; lia]. }
    split.
    + intros j Hj. rewrite Hout by lia.
      apply list_lookup_insert_ne. lia.
    + intros j Hj. destruct (decide (j = i)) as [->|Hne].
      * rewrite Hout by lia. apply list_lookup_insert_eq. exact Hi.
      * rewrite Hin by lia. destruct (decide (j = S i)) as [->|Hne'].
        -- do 3 f_equal. lia.
        -- reflexivity.
Qed.

End Registry.

(** ** Kernel addresses *)

Section Addresses.
Context {L : Layout}.

Lemma aligned_u32 x : aligned x -> aligned (u32 x).
Proof.
  unfold aligned, u32, WORD, PGSIZE. intros H.
  change (2 ^ 32) with (4096 * 1048576).
  rewrite Z.rem_mul_r by lia. rewrite H.
  rewrite Z.add_0_l, Z.mul_comm. apply Z.mod_mul. lia.
Qed.

Lemma aligned_top x : aligned x -> 0 <= x < WORD -> x <= WORD - PGSIZE.
Proof.
  unfold aligned, WORD, PGSIZE. change (2 ^ 32) with 4294967296.
  intros H Hx. pose proof (Z.div_mod x 4096 ltac:(lia)) as E.
  rewrite H in E.
  assert (x / 4096 < 1048576) by (apply Z.div_lt_upper_bound; lia).
  lia.
Qed.

Lemma aligned_add x y : aligned x -> aligned y -> aligned (x + y).
Proof.
  unfold aligned. intros Hx Hy.
  rewrite Z.add_mod, Hx, Hy by (unfold PGSIZE; lia). reflexivity.
Qed.

Lemma aligned_sub x y : aligned x -> aligned y -> aligned (x - y).
Proof.
  unfold aligned. intros Hx Hy.
  rewrite Zminus_mod, Hx, Hy. reflexivity.
Qed.

Lemma KADDR_aligned a : aligned a -> aligned (KADDR a).
Proof.
  intros H. apply aligned_u32, aligned_add; [exact H|apply KERNBASE_aligned].
Qed.

Lemma PADDR_aligned p : aligned p -> aligned (PADDR p).
Proof.
  intros H. apply aligned_u32, aligned_sub; [exact H|apply KERNBASE_aligned].
Qed.

Lemma u32_offset x o :
  aligned x -> 0 <= x < WORD -> 0 <= o < PGSIZE -> u32 (x + o) = x + o.
Proof.
  intros Ha Hx Ho. pose proof (aligned_top x Ha Hx).
  apply u32_id. unfold WORD, PGSIZE in *. lia.
Qed.

Lemma PADDR_offset p o : PADDR (u32 (p + o)) = u32 (PADDR p + o).
Proof.
  unfold PADDR, u32.
  rewrite Zminus_mod_idemp_l, Z.add_mod_idemp_l by (unfold WORD; lia).
  f_equal. lia.
Qed.

Lemma PADDR_KADDR a : PADDR (KADDR a) = u32 a.
Proof.
  unfold PADDR, KADDR, u32. rewrite Zminus_mod_idemp_l. f_equal. lia.
Qed.

Lemma PADDR_KADDR_offset a o : PADDR (KADDR a + o) = u32 (a + o).
Proof.
  unfold PADDR, KADDR, u32.
  replace ((a + KERNBASE) mod WORD + o - KERNBASE)
    with ((a + KERNBASE) mod WORD + (o - KERNBASE)) by lia.
  rewrite Z.add_mod_idemp_l by (unfold WORD; lia). f_equal. lia.
Qed.

Lemma physaddr_range pp : 0 <= physaddr pp < WORD.
Proof. apply u32_range. Qed.

Lemma physaddr_aligned pp : aligned (physaddr pp).
Proof.
  apply aligned_u32. unfold aligned.
  apply Z.mod_mul. unfold PGSIZE. lia.
Qed.

Lemma PADDR_data pp : PADDR (data pp) = physaddr pp.
Proof.
  unfold data. rewrite PADDR_KADDR. apply u32_id, physaddr_range.
Qed.

Lemma PTE_ADDR_aligned x : aligned (PTE_ADDR x).
Proof. apply PTE_ADDR_mod. Qed.

(** The frame of the descriptor that [page_lookup] computes from an
    entry is the frame the entry names. *)
Lemma physaddr_of_entry e :
  physaddr (Z.to_nat (PTE_ADDR e / PGSIZE)) = PTE_ADDR e.
Proof.
  pose proof (PTE_ADDR_range e) as Hr. pose proof (PTE_ADDR_mod e) as Hm.
  unfold physaddr. rewrite Z2Nat.id.
  - pose proof (Z.div_mod (PTE_ADDR e) PGSIZE ltac:(unfold PGSIZE; lia)) as E.
    rewrite Hm in E. rewrite u32_id; lia.
  - apply Z.div_pos; unfold PGSIZE; lia.
Qed.

Lemma frame_of_physaddr pp :
  Z.of_nat pp * PGSIZE < WORD ->
  Z.to_nat (physaddr pp / PGSIZE) = pp.
Proof.
  intros H. unfold physaddr. rewrite u32_id by (unfold PGSIZE in *; lia).
  rewrite Z.div_mul by (unfold PGSIZE; lia). apply Nat2Z.id.
Qed.

Lemma pde_slot_pa pgdir va :
  aligned pgdir -> 0 <= pgdir < WORD ->
  PADDR (pde_slot pgdir va) = PADDR pgdir + 4 * PDX va.
Proof.
  intros Ha Hr. unfold pde_slot. rewrite PADDR_offset.
  pose proof (PDX_range va).
  apply u32_offset; [apply PADDR_aligned; exact Ha|apply u32_range|].
  unfold PGSIZE. lia.
Qed.

Lemma pte_slot_pa pde va : PADDR (pte_slot pde va) = pte_pa pde va.
Proof.
  unfold pte_slot, pte_pa. rewrite PADDR_offset, PADDR_KADDR.
  pose proof (PTX_range va).
  rewrite (u32_id (PTE_ADDR pde)) by apply PTE_ADDR_range.
  apply u32_offset; [apply PTE_ADDR_aligned|apply PTE_ADDR_range|].
  unfold PGSIZE. lia.
Qed.

Lemma pte_slot_nonzero pde va :
  KADDR (PTE_ADDR pde) <> 0 -> pte_slot pde va <> 0.
Proof.
  intros H. unfold pte_slot. pose proof (PTX_range va).
  pose proof (u32_range (PTE_ADDR pde + KERNBASE)) as Hr.
  fold (KADDR (PTE_ADDR pde)) in Hr.
  rewrite u32_offset; [lia| |exact Hr|unfold PGSIZE; lia].
  apply KADDR_aligned, PTE_ADDR_aligned.
Qed.

(** Words of different frames have different addresses. *)
Lemma frame_sep f g o1 o2 :
  aligned f -> aligned g -> 0 <= o1 < PGSIZE -> 0 <= o2 < PGSIZE ->
  f <> g -> f + o1 <> g + o2.
Proof.
  unfold aligned, PGSIZE. intros Hf Hg H1 H2 Hne E.
  pose proof (Z.div_mod f 4096 ltac:(lia)) as Ef.
  pose proof (Z.div_mod g 4096 ltac:(lia)) as Eg.
  rewrite Hf in Ef. rewrite Hg in Eg. lia.
Qed.

(** [memset] of one frame leaves the words of the other frames alone. *)
Lemma memset_other_frame f g o :
  aligned f -> 0 <= f < WORD -> aligned g -> 0 <= g < WORD ->
  0 <= o < PGSIZE -> f <> g ->
  (u32 (g + o - f) <? PGSIZE) = false.
Proof.
  intros Hf Hfr Hg Hgr Ho Hne. apply Z.ltb_ge.
  pose proof (aligned_top f Hf Hfr). pose proof (aligned_top g Hg Hgr).
  unfold aligned, u32, WORD, PGSIZE in *.
  change (2 ^ 32) with 4294967296 in *.
  pose proof (Z.div_mod f 4096 ltac:(lia)) as Ef.
  pose proof (Z.div_mod g 4096 ltac:(lia)) as Eg.
  rewrite Hf in Ef. rewrite Hg in Eg.
  destruct (Z.lt_ge_cases g f).
  - replace (g + o - f) with (g + o - f + 4294967296 + (-1) * 4294967296)
      by lia.
    rewrite Z.mod_add by lia. rewrite Z.mod_small; lia.
  - rewrite Z.mod_small; lia.
Qed.

Lemma memset_same_frame f o :
  aligned f -> 0 <= f < WORD -> 0 <= o < PGSIZE ->
  (u32 (f + o - f) <? PGSIZE) = true.
Proof.
  intros Hf Hfr Ho. apply Z.ltb_lt.
  replace (f + o - f) with o by lia.
  rewrite u32_id; unfold WORD, PGSIZE in *; lia.
Qed.

Lemma perm_bits_range perm :
  0 <= perm < PGSIZE -> 1 <= Z.lor perm PTE_P < PGSIZE.
Proof.
  intros Hp.
  assert (Hn : 0 <= Z.lor perm PTE_P).
  { apply Z.lor_nonneg. unfold PTE_P. lia. }
  assert (H1 : 1 <= Z.lor perm PTE_P).
  { destruct (Z.eq_dec (Z.lor perm PTE_P) 0) as [E|Hne]; [|lia].
    apply Z.lor_eq_0_iff in E. unfold PTE_P in E. lia. }
  split; [exact H1|]. unfold PGSIZE, PTE_P in *.
  change 4096 with (2 ^ 12).
  apply Z.log2_lt_pow2; [lia|].
  rewrite Z.log2_lor by lia.
  apply Z.max_lub_lt; [|simpl; lia].
  destruct (Z.eq_dec perm 0) as [->|Hp0]; [simpl; lia|].
  apply Z.log2_lt_pow2; lia.
Qed.

(** Permission bits on top of a frame address. *)
Lemma entry_bits f perm :
  aligned f -> 0 <= f < WORD -> 0 <= perm < PGSIZE ->
  let e := u32 (Z.lor (Z.lor f perm) PTE_P) in
  e <> 0 /\ PTE_ADDR e = f /\ e = f + Z.lor perm PTE_P.
Proof.
  intros Hf Hfr Hp e.
  pose proof (perm_bits_range perm Hp) as Hb'.
  assert (H1 : 1 <= Z.lor perm PTE_P) by lia.
  assert (Hb : 0 <= Z.lor perm PTE_P < PGSIZE) by lia.
  assert (E : e = f + Z.lor perm PTE_P).
  { subst e. rewrite <- Z.lor_assoc, lor_low_bits by assumption.
    apply u32_offset; assumption. }
  split; [lia|]. split; [|exact E].
  rewrite E, PTE_ADDR_div. rewrite u32_offset by assumption.
  unfold aligned, PGSIZE in *.
  pose proof (Z.div_mod f 4096 ltac:(lia)) as Ef. rewrite Hf in Ef.
  replace (f + Z.lor perm PTE_P) with (Z.lor perm PTE_P + (f / 4096) * 4096)
    by lia.
  rewrite Z.div_add by lia. rewrite Z.div_small by lia. lia.
Qed.

End Addresses.

(** ** The functions as state transformers *)

Lemma mem_put ps fp m tl s : mem (put ps fp m tl s) = m.
Proof. reflexivity. Qed.

Lemma updated_eq m a v : updated m a v a = v.
Proof. unfold updated. rewrite Z.eqb_refl. reflexivity. Qed.

Lemma updated_ne m a v x : x <> a -> updated m a v x = m x.
Proof. unfold updated. intros H. apply Z.eqb_neq in H. rewrite H. reflexivity. Qed.

Section Transformers.
Context {L : Layout}.

Lemma store_eq p v s :
  store p v s = Done tt (put (pages s) (free_pages s)
                             (updated (mem s) (PADDR p) (u32 v)) (tlb_log s) s).
Proof. reflexivity. Qed.

Lemma memset_eq p c n s :
  memset p c n s = Done tt (put (pages s) (free_pages s)
                                (filled (mem s) (PADDR p) c n) (tlb_log s) s).
Proof. reflexivity. Qed.

Lemma incref_put i s q :
  pages s !! i = Some q ->
  incref i s = Done tt (put
    (<[i := mkPage (pp_next q) ((pp_ref q + 1) mod REF_LIMIT)]> (pages s))
    (free_pages s) (mem s) (tlb_log s) s).
Proof. intros H. rewrite (incref_eq _ _ _ H). reflexivity. Qed.

(** A word outside the frame of [pp] survives the [memset] of that frame. *)
Lemma filled_other m pp c f o :
  aligned f -> 0 <= f < WORD -> 0 <= o < PGSIZE -> physaddr pp <> f ->
  filled m (physaddr pp) c PGSIZE (f + o) = m (f + o).
Proof.
  intros Hf Hr Ho Hne. unfold filled.
  rewrite memset_other_frame; try assumption; try reflexivity.
  - apply physaddr_aligned.
  - apply physaddr_range.
Qed.

Lemma page_alloc_None s : free_pages s = None -> page_alloc s = Done None s.
Proof. unfold page_alloc, bind, gets. intros ->. reflexivity. Qed.

Lemma page_alloc_Some s T q :
  free_pages s = Some T -> pages s !! T = Some q ->
  page_alloc s = Done (Some T)
    (put (pages s) (pp_next q) (filled (mem s) (physaddr T) 0xcc PGSIZE)
         (tlb_log s) s).
Proof.
  intros Hf Hq. unfold page_alloc, bind, gets. rewrite Hf.
  rewrite memset_eq, PADDR_data. unfold read_Page. simpl. rewrite Hq.
  reflexivity.
Qed.

Lemma page_alloc_out s T :
  free_pages s = Some T -> pages s !! T = None -> page_alloc s = Undefined.
Proof.
  intros Hf Hq. unfold page_alloc, bind, gets. rewrite Hf.
  rewrite memset_eq. unfold read_Page. simpl. rewrite Hq. reflexivity.
Qed.

(** [page_decref]: the count goes down by one; at zero the frame is
    filled with 0xcc and pushed on the free list. *)
Lemma page_decref_eq s G g :
  pages s !! G = Some g ->
  page_decref G s =
  Done tt
    (if (pp_ref g - 1) mod REF_LIMIT =? 0
     then put (<[G := mkPage (free_pages s) 0]> (pages s)) (Some G)
              (filled (mem s) (physaddr G) 0xcc PGSIZE) (tlb_log s) s
     else put (<[G := mkPage (pp_next g) ((pp_ref g - 1) mod REF_LIMIT)]>
                 (pages s))
              (free_pages s) (mem s) (tlb_log s) s).
Proof.
  intros Hg. unfold page_decref.
  rewrite (bind_eq _ _ _ _ _ (read_Page_eq _ _ _ Hg)).
  rewrite (bind_eq _ _ _ _ _ (write_Page_eq _ _ _ _ Hg)).
  destruct (_ =? 0) eqn:E; [|reflexivity].
  apply Z.eqb_eq in E. rewrite E. unfold page_free.
  assert (Hl : (G < length (pages s))%nat) by (eapply lookup_lt_Some; eauto).
  set (s1 := set_pages _ s).
  assert (H1 : pages s1 !! G = Some (mkPage (pp_next g) 0)).
  { subst s1. simpl. apply list_lookup_insert_eq. exact Hl. }
  rewrite (bind_eq _ _ _ _ _ (read_Page_eq _ _ _ H1)). simpl pp_ref.
  unfold assert. simpl. unfold bind at 1. unfold ret at 1.
  unfold bind at 1. rewrite memset_eq, PADDR_data.
  unfold bind at 1. unfold gets at 1.
  set (s2 := put _ _ _ _ s1).
  assert (H2 : pages s2 !! G = Some (mkPage (pp_next g) 0)) by exact H1.
  rewrite (bind_eq _ _ _ _ _ (set_next_eq _ _ _ _ H2)).
  unfold modify. subst s2 s1. simpl.
  rewrite list_insert_insert_eq. reflexivity.
Qed.

Lemma page_decref_out s G :
  pages s !! G = None -> page_decref G s = Undefined.
Proof. unfold page_decref, bind, read_Page. intros ->. reflexivity. Qed.

End Transformers.

(** ** page_lookup, page_remove and page_insert on one entry *)

Section Entry.
Context {L : Layout}.
Variables pgdir va : Z.
Hypothesis pgdir_aligned : aligned pgdir.
Hypothesis pgdir_range : 0 <= pgdir < WORD.

Lemma PADDR_pgdir_range : 0 <= PADDR pgdir < WORD.
Proof. apply u32_range. Qed.

Lemma pde_of_put ps fp m tl s :
  pde_of (put ps fp m tl s) pgdir va = m (PADDR (pde_slot pgdir va)).
Proof. reflexivity. Qed.

(** A store into a table that is not the directory leaves the directory
    entry as it is. *)
Lemma pde_after_table_store m pde va' v :
  PTE_ADDR pde <> PADDR pgdir ->
  updated m (pte_pa pde va') v (PADDR (pde_slot pgdir va))
  = m (PADDR (pde_slot pgdir va)).
Proof.
  intros Hne. apply updated_ne.
  rewrite pde_slot_pa by assumption. unfold pte_pa.
  pose proof (PDX_range va). pose proof (PTX_range va').
  apply frame_sep.
  - apply PADDR_aligned. exact pgdir_aligned.
  - apply PTE_ADDR_aligned.
  - unfold PGSIZE. lia.
  - unfold PGSIZE. lia.
  - congruence.
Qed.

(** The [memset] of a frame that is not the directory leaves the
    directory entry as it is. *)
Lemma pde_after_fill m pp c :
  physaddr pp <> PADDR pgdir ->
  filled m (physaddr pp) c PGSIZE (PADDR (pde_slot pgdir va))
  = m (PADDR (pde_slot pgdir va)).
Proof.
  intros Hne. rewrite pde_slot_pa by assumption.
  pose proof (PDX_range va).
  apply filled_other.
  - apply PADDR_aligned. exact pgdir_aligned.
  - apply PADDR_pgdir_range.
  - unfold PGSIZE. lia.
  - exact Hne.
Qed.

(** What [page_lookup] returns to a caller that passes a [pte_store]. *)
Lemma page_lookup_eq s :
  page_lookup pgdir va true s =
  Done (if pde_of s pgdir va =? 0 then (None, None)
        else if pte_slot (pde_of s pgdir va) va =? 0 then (None, None)
        else if pte_of s pgdir va =? 0
             then (None, Some (pte_slot (pde_of s pgdir va) va))
             else (Some (Z.to_nat (PTE_ADDR (pte_of s pgdir va) / PGSIZE)),
                   Some (pte_slot (pde_of s pgdir va) va))) s.
Proof.
  unfold page_lookup. rewrite (bind_eq _ _ _ _ _ (pgdir_walk_nocreate _ _ _)).
  destruct (pde_of s pgdir va =? 0); [reflexivity|].
  destruct (pte_slot _ _ =? 0) eqn:E; [reflexivity|].
  unfold bind, load. rewrite pte_slot_pa. fold (pte_of s pgdir va).
  destruct (pte_of s pgdir va =? 0); reflexivity.
Qed.

Lemma lookup_frame_eq s :
  lookup_frame s pgdir va =
  Some (if pde_of s pgdir va =? 0 then None
        else if pte_slot (pde_of s pgdir va) va =? 0 then None
        else if pte_of s pgdir va =? 0 then None
        else Some (Z.to_nat (PTE_ADDR (pte_of s pgdir va) / PGSIZE))).
Proof.
  unfold lookup_frame. rewrite page_lookup_eq.
  destruct (_ =? 0); [reflexivity|].
  destruct (_ =? 0); [reflexivity|].
  destruct (_ =? 0); reflexivity.
Qed.

(** [page_remove] where nothing is mapped does nothing. *)
Lemma page_remove_unmapped s :
  lookup_frame s pgdir va = Some None -> page_remove pgdir va s = Done tt s.
Proof.
  rewrite lookup_frame_eq. intros H. unfold page_remove.
  rewrite (bind_eq _ _ _ _ _ (page_lookup_eq _)).
  destruct (_ =? 0); [reflexivity|].
  destruct (_ =? 0); [reflexivity|].
  destruct (_ =? 0); [reflexivity|discriminate].
Qed.

(** [page_remove] where frame [G] is mapped: the reference of [G] is
    released, the entry is cleared and the address is invalidated. *)
Lemma page_remove_mapped s G g :
  pde_of s pgdir va <> 0 ->
  pte_slot (pde_of s pgdir va) va <> 0 ->
  pte_of s pgdir va <> 0 ->
  G = Z.to_nat (PTE_ADDR (pte_of s pgdir va) / PGSIZE) ->
  pages s !! G = Some g ->
  exists s',
    page_decref G s = Done tt s' /\
    page_remove pgdir va s =
    Done tt (put (pages s') (free_pages s')
                 (updated (mem s') (pte_pa (pde_of s pgdir va) va) 0)
                 (tlb_log s ++ [va]) s).
Proof.
  intros Hpde Hslot He HG Hg.
  pose proof (page_decref_eq s G g Hg) as Hd.
  set (s' := if _ =? 0 then _ else _) in Hd.
  exists s'. split; [exact Hd|].
  unfold page_remove. rewrite (bind_eq _ _ _ _ _ (page_lookup_eq _)).
  apply Z.eqb_neq in Hpde, Hslot, He. rewrite Hpde, Hslot, He.
  cbn [fst snd]. rewrite <- HG.
  rewrite (bind_eq _ _ _ _ _ Hd). rewrite Hslot.
  unfold bind, store, modify, tlb_invalidate. simpl.
  rewrite pte_slot_pa.
  assert (E : tlb_log s' = tlb_log s /\ npages s' = npages s /\
              n_base_pages s' = n_base_pages s /\
              kern_pgdir s' = kern_pgdir s /\ nextfree s' = nextfree s /\
              freeptr s' = freeptr s).
  { subst s'. destruct ((pp_ref g - 1) mod REF_LIMIT =? 0);
      repeat split; reflexivity. }
  destruct E as (E1 & E2 & E3 & E4 & E5 & E6).
  unfold put, set_tlb_log, set_mem. simpl.
  rewrite E1, E2, E3, E4, E5, E6. reflexivity.
Qed.

Lemma page_remove_out s G :
  pde_of s pgdir va <> 0 ->
  pte_slot (pde_of s pgdir va) va <> 0 ->
  pte_of s pgdir va <> 0 ->
  G = Z.to_nat (PTE_ADDR (pte_of s pgdir va) / PGSIZE) ->
  pages s !! G = None ->
  page_remove pgdir va s = Undefined.
Proof.
  intros Hpde Hslot He HG Hg.
  unfold page_remove. rewrite (bind_eq _ _ _ _ _ (page_lookup_eq _)).
  apply Z.eqb_neq in Hpde, Hslot, He. rewrite Hpde, Hslot, He.
  cbn [fst snd]. rewrite <- HG. apply bind_Undefined.
  apply page_decref_out. exact Hg.
Qed.

(** The last statement of [page_insert]. *)
Lemma write_entry_eq s pp perm :
  write_entry pgdir va pp perm s =
  Done 0 (put (pages s) (free_pages s)
              (updated (mem s) (pte_pa (pde_of s pgdir va) va)
                       (u32 (Z.lor (Z.lor (physaddr pp) perm) PTE_P)))
              (tlb_log s) s).
Proof.
  unfold write_entry, bind, load, store, modify. simpl.
  rewrite pte_slot_pa. reflexivity.
Qed.

Lemma entry_maps_written s pp perm :
  pde_of s pgdir va <> 0 ->
  pte_slot (pde_of s pgdir va) va <> 0 ->
  PTE_ADDR (pde_of s pgdir va) <> PADDR pgdir ->
  entry_maps
    (put (pages s) (free_pages s)
         (updated (mem s) (pte_pa (pde_of s pgdir va) va)
                  (u32 (Z.lor (Z.lor (physaddr pp) perm) PTE_P)))
         (tlb_log s) s) pgdir va pp perm.
Proof.
  intros Hpde Hslot Hne. unfold entry_maps.
  assert (E : pde_of (put (pages s) (free_pages s)
                 (updated (mem s) (pte_pa (pde_of s pgdir va) va)
                    (u32 (Z.lor (Z.lor (physaddr pp) perm) PTE_P)))
                 (tlb_log s) s) pgdir va = pde_of s pgdir va).
  { rewrite pde_of_put. apply pde_after_table_store. exact Hne. }
  unfold pte_of. rewrite E.
  split; [exact Hpde|]. split; [exact Hslot|]. split; [exact Hne|].
  simpl. apply updated_eq.
Qed.

End Entry.

Section Walk.
Context {L : Layout}.
Variables pgdir va : Z.
Hypothesis pgdir_aligned : aligned pgdir.
Hypothesis pgdir_range : 0 <= pgdir < WORD.

Lemma PTE_ADDR_offset a o :
  aligned a -> 0 <= a < WORD -> 0 <= o < PGSIZE -> PTE_ADDR (a + o) = a.
Proof.
  intros Ha Hr Ho. rewrite PTE_ADDR_div, u32_offset by assumption.
  unfold aligned, PGSIZE in *.
  pose proof (Z.div_mod a 4096 ltac:(lia)) as E. rewrite Ha in E.
  replace (a + o) with (o + (a / 4096) * 4096) by lia.
  rewrite Z.div_add by lia. rewrite Z.div_small by lia. lia.
Qed.

Lemma new_pde_bits T : new_pde T <> 0 /\ PTE_ADDR (new_pde T) = physaddr T.
Proof.
  unfold new_pde. rewrite <- (Z.lor_assoc (physaddr T)).
  destruct (entry_bits (physaddr T) (Z.lor PTE_U PTE_W)) as (H1 & H2 & _).
  - apply physaddr_aligned.
  - apply physaddr_range.
  - vm_compute. split; [discriminate|reflexivity].
  - split; assumption.
Qed.

Lemma pgdir_walk_create_present s :
  pde_of s pgdir va <> 0 ->
  pgdir_walk pgdir va true s = Done (pte_slot (pde_of s pgdir va) va) s.
Proof.
  intros H. unfold pgdir_walk, bind, load. fold (pde_of s pgdir va).
  apply Z.eqb_neq in H. rewrite H. reflexivity.
Qed.

Lemma pgdir_walk_create_nomem s :
  pde_of s pgdir va = 0 -> free_pages s = None ->
  pgdir_walk pgdir va true s = Done 0 s.
Proof.
  intros H Hf. unfold pgdir_walk. unfold bind at 1. unfold load.
  fold (pde_of s pgdir va). rewrite H. simpl.
  rewrite (bind_eq _ _ _ _ _ (page_alloc_None _ Hf)). reflexivity.
Qed.

Lemma pgdir_walk_create_out s T :
  pde_of s pgdir va = 0 -> free_pages s = Some T -> pages s !! T = None ->
  pgdir_walk pgdir va true s = Undefined.
Proof.
  intros H Hf Hq. unfold pgdir_walk. unfold bind at 1. unfold load.
  fold (pde_of s pgdir va). rewrite H. simpl.
  apply bind_Undefined. apply page_alloc_out with T; assumption.
Qed.

Lemma pgdir_walk_create_new s T q :
  pde_of s pgdir va = 0 -> free_pages s = Some T -> pages s !! T = Some q ->
  pgdir_walk pgdir va true s =
  Done (pte_slot (new_pde T) va)
    (put (<[T := mkPage (pp_next q) ((pp_ref q + 1) mod REF_LIMIT)]> (pages s))
         (pp_next q)
         (updated (filled (filled (mem s) (physaddr T) 0xcc PGSIZE)
                          (physaddr T) 0 PGSIZE)
                  (PADDR (pde_slot pgdir va)) (new_pde T))
         (tlb_log s) s).
Proof.
  intros H Hf Hq. unfold pgdir_walk. unfold bind at 1. unfold load.
  fold (pde_of s pgdir va). rewrite H. simpl.
  rewrite (bind_eq _ _ _ _ _ (page_alloc_Some _ _ _ Hf Hq)).
  set (s1 := put _ _ _ _ s).
  assert (H1 : pages s1 !! T = Some q) by exact Hq.
  rewrite (bind_eq _ _ _ _ _ (incref_put _ _ _ H1)).
  unfold bind, memset, store, modify, load, ret. simpl.
  rewrite PADDR_data, updated_eq. reflexivity.
Qed.

(** The directory entry that [page_insert] writes over it, line 490. *)
Lemma rewritten_pde T perm :
  0 <= perm < PGSIZE -> pte_slot (new_pde T) va <> 0 ->
  u32 (PADDR (u32 (Z.lor (Z.lor (PTE_ADDR (pte_slot (new_pde T) va)) perm)
                         PTE_P)))
  = u32 (Z.lor (Z.lor (physaddr T) perm) PTE_P).
Proof.
  intros Hp Hs. destruct (new_pde_bits T) as [_ Ha].
  pose proof (physaddr_aligned T) as Hal. pose proof (physaddr_range T) as Hr.
  pose proof (KADDR_aligned _ Hal) as HKa.
  pose proof (u32_range (physaddr T + KERNBASE)) as HKr.
  fold (KADDR (physaddr T)) in HKr.
  pose proof (PTX_range va) as Hx.
  unfold pte_slot. rewrite Ha.
  rewrite (u32_offset (KADDR (physaddr T))); [|assumption..|unfold PGSIZE; lia].
  rewrite PTE_ADDR_offset; [|assumption..|unfold PGSIZE; lia].
  destruct (entry_bits _ perm HKa HKr Hp) as (_ & _ & E1).
  destruct (entry_bits _ perm Hal Hr Hp) as (_ & _ & E2).
  rewrite E1, E2.
  assert (Hb : 0 <= Z.lor perm PTE_P < PGSIZE).
  { pose proof (perm_bits_range perm Hp). lia. }
  rewrite PADDR_KADDR_offset. unfold u32 at 1.
  fold (u32 (physaddr T + Z.lor perm PTE_P)).
  unfold u32. rewrite Z.mod_mod by (unfold WORD; lia).
  apply u32_offset; assumption.
Qed.

End Walk.

Section Insert.
Context {L : Layout}.
Variables pgdir va : Z.
Hypothesis pgdir_aligned : aligned pgdir.
Hypothesis pgdir_range : 0 <= pgdir < WORD.

Lemma write_tail s pp perm r s1 :
  write_entry pgdir va pp perm s = Done r s1 ->
  pde_of s pgdir va <> 0 ->
  pte_slot (pde_of s pgdir va) va <> 0 ->
  PTE_ADDR (pde_of s pgdir va) <> PADDR pgdir ->
  r = 0 /\ entry_maps s1 pgdir va pp perm /\
  pages s1 = pages s /\ free_pages s1 = free_pages s /\
  tlb_log s1 = tlb_log s.
Proof.
  intros H H1 H2 H3. rewrite write_entry_eq in H. injection H as <- <-.
  split; [reflexivity|]. split; [|repeat split].
  apply entry_maps_written; assumption.
Qed.

Lemma insert_tail s pp perm r s1 :
  (incref pp ;;; write_entry pgdir va pp perm) s = Done r s1 ->
  pde_of s pgdir va <> 0 ->
  pte_slot (pde_of s pgdir va) va <> 0 ->
  PTE_ADDR (pde_of s pgdir va) <> PADDR pgdir ->
  r = 0 /\ entry_maps s1 pgdir va pp perm /\
  (exists q, pages s !! pp = Some q /\
     pages s1 = <[pp := mkPage (pp_next q) ((pp_ref q + 1) mod REF_LIMIT)]>
                  (pages s)) /\
  free_pages s1 = free_pages s /\ tlb_log s1 = tlb_log s.
Proof.
  intros H H1 H2 H3. destruct (pages s !! pp) as [q|] eqn:Eq.
  - rewrite (bind_eq _ _ _ _ _ (incref_put _ _ _ Eq)) in H.
    apply write_tail in H; try assumption.
    destruct H as (-> & Hm & Hp & Hf & Ht).
    split; [reflexivity|]. split; [exact Hm|]. split; [|split; assumption].
    exists q. split; [reflexivity|exact Hp].
  - rewrite (bind_Undefined _ _ _ (incref_None _ _ Eq)) in H. discriminate.
Qed.

(** The two ways [page_insert] fails: the table has a null kernel
    address, or there is neither a table nor a frame to make one of. *)
Lemma page_insert_null_slot s pp perm :
  pde_of s pgdir va <> 0 -> pte_slot (pde_of s pgdir va) va = 0 ->
  page_insert pgdir pp va perm s = Done (- E_NO_MEM) s.
Proof.
  intros Hpde Hs. unfold page_insert.
  rewrite (bind_eq _ _ _ _ _ (pgdir_walk_nocreate _ _ _)).
  pose proof Hpde as Hb. apply Z.eqb_neq in Hb. rewrite Hb, Hs. simpl.
  rewrite (bind_eq _ _ _ _ _ (pgdir_walk_create_present pgdir va s Hpde)).
  rewrite Hs. reflexivity.
Qed.

Lemma page_insert_no_frame s pp perm :
  pde_of s pgdir va = 0 -> free_pages s = None ->
  page_insert pgdir pp va perm s = Done (- E_NO_MEM) s.
Proof.
  intros Hpde Hf. unfold page_insert.
  rewrite (bind_eq _ _ _ _ _ (pgdir_walk_nocreate _ _ _)).
  rewrite Hpde. simpl.
  rewrite (bind_eq _ _ _ _ _ (pgdir_walk_create_nomem pgdir va s Hpde Hf)).
  reflexivity.
Qed.

(** Inserting a frame where it is mapped already rewrites the entry and
    nothing else: no reference is taken and no [invlpg] is issued. *)
Lemma page_insert_again s pp perm perm' :
  0 <= perm < PGSIZE -> entry_maps s pgdir va pp perm ->
  exists s',
    page_insert pgdir pp va perm' s = Done 0 s' /\
    pages s' = pages s /\ free_pages s' = free_pages s /\
    tlb_log s' = tlb_log s.
Proof.
  intros Hperm (Hpde & Hs & Hne & He).
  destruct (entry_bits (physaddr pp) perm (physaddr_aligned pp)
              (physaddr_range pp) Hperm) as (_ & Ha & _).
  unfold page_insert.
  rewrite (bind_eq _ _ _ _ _ (pgdir_walk_nocreate _ _ _)).
  apply Z.eqb_neq in Hpde, Hs. rewrite Hpde, Hs. simpl.
  unfold bind at 1. unfold load at 1. rewrite pte_slot_pa.
  fold (pte_of s pgdir va). rewrite He, Ha, Z.eqb_refl. simpl.
  unfold bind at 1. unfold ret at 1. rewrite write_entry_eq.
  eexists. split; [reflexivity|]. repeat split.
Qed.

(** [page_insert] either maps the frame or fails for lack of a table,
    and a failure repeats. *)
Lemma page_insert_post s pp perm r s1 :
  directory_private s pgdir va -> 0 <= perm < PGSIZE ->
  page_insert pgdir pp va perm s = Done r s1 ->
  length (pages s1) = length (pages s) /\
  ((r = 0 /\ entry_maps s1 pgdir va pp perm) \/
   (r = - E_NO_MEM /\
    forall pp' perm', page_insert pgdir pp' va perm' s1 = Done r s1)).
Proof.
  intros (_ & _ & Hfree & Htab) Hperm H.
  unfold page_insert in H.
  rewrite (bind_eq _ _ _ _ _ (pgdir_walk_nocreate _ _ _)) in H.
  destruct (pde_of s pgdir va =? 0) eqn:Epde.
  - apply Z.eqb_eq in Epde. simpl in H.
    destruct (free_pages s) as [T|] eqn:Ef.
    + destruct (pages s !! T) as [q|] eqn:Eq.
      * rewrite (bind_eq _ _ _ _ _
                   (pgdir_walk_create_new pgdir va s T q Epde Ef Eq)) in H.
        set (s' := put _ _ _ _ s) in H.
        assert (Hl : length (pages s') = length (pages s)).
        { subst s'. simpl. apply length_insert. }
        assert (Hpde' : pde_of s' pgdir va = new_pde T).
        { subst s'. rewrite pde_of_put. apply updated_eq. }
        destruct (new_pde_bits T) as [Hn0 Hna].
        destruct (pte_slot (new_pde T) va =? 0) eqn:Es.
        -- injection H as <- <-. split; [exact Hl|]. right.
           split; [reflexivity|]. intros pp' perm'.
           apply page_insert_null_slot; rewrite Hpde'; [exact Hn0|].
           apply Z.eqb_eq. exact Es.
        -- apply Z.eqb_neq in Es.
           rewrite (bind_eq _ _ _ _ _ (store_eq _ _ _)) in H.
           rewrite (rewritten_pde va T perm Hperm Es) in H.
           set (e := u32 (Z.lor (Z.lor (physaddr T) perm) PTE_P)) in H.
           set (s'' := put _ _ _ _ s') in H.
           destruct (entry_bits (physaddr T) perm (physaddr_aligned T)
                       (physaddr_range T) Hperm) as (He0 & Hea & _).
           fold e in He0, Hea.
           assert (Hpde'' : pde_of s'' pgdir va = e).
           { subst s''. rewrite pde_of_put. apply updated_eq. }
           apply insert_tail in H.
           ++ destruct H as (-> & Hm & (q' & _ & Hp) & _).
              split; [|left; split; [reflexivity|exact Hm]].
              rewrite Hp, length_insert. exact Hl.
           ++ rewrite Hpde''. exact He0.
           ++ rewrite Hpde''. unfold pte_slot. rewrite Hea, <- Hna. exact Es.
           ++ rewrite Hpde'', Hea. apply Hfree. reflexivity.
      * rewrite (bind_Undefined _ _ _
                   (pgdir_walk_create_out pgdir va s T Epde Ef Eq)) in H.
        discriminate.
    + rewrite (bind_eq _ _ _ _ _ (pgdir_walk_create_nomem pgdir va s Epde Ef))
        in H.
      simpl in H. injection H as <- <-. split; [reflexivity|]. right.
      split; [reflexivity|]. intros pp' perm'.
      apply page_insert_no_frame; assumption.
  - apply Z.eqb_neq in Epde. destruct (Htab Epde) as [Htd Hmd].
    destruct (pte_slot (pde_of s pgdir va) va =? 0) eqn:Es.
    + simpl in H.
      rewrite (bind_eq _ _ _ _ _ (pgdir_walk_create_present pgdir va s Epde))
        in H.
      rewrite Es in H. injection H as <- <-. split; [reflexivity|]. right.
      split; [reflexivity|]. intros pp' perm'.
      apply page_insert_null_slot; [exact Epde|].
      apply Z.eqb_eq. exact Es.
    + apply Z.eqb_neq in Es. simpl in H. unfold bind at 1 in H.
      unfold load at 1 in H. rewrite pte_slot_pa in H.
      fold (pte_of s pgdir va) in H.
      destruct (PTE_ADDR (pte_of s pgdir va) =? physaddr pp) eqn:Esame.
      * simpl in H. unfold bind at 1 in H. unfold ret at 1 in H.
        apply write_tail in H; try assumption.
        destruct H as (-> & Hm & Hp & _).
        split; [rewrite Hp; reflexivity|]. left. split; [reflexivity|exact Hm].
      * simpl in H.
        destruct (PTE_ADDR (pte_of s pgdir va) =? 0) eqn:Ez.
        -- simpl in H. unfold bind at 1 in H. unfold bind at 1 in H.
           unfold ret at 1 in H.
           apply insert_tail in H; try assumption.
           destruct H as (-> & Hm & (q' & _ & Hp) & _).
           split; [rewrite Hp; apply length_insert|].
           left. split; [reflexivity|exact Hm].
        -- simpl in H. apply Z.eqb_neq in Ez.
           assert (He : pte_of s pgdir va <> 0).
           { intros E. rewrite E in Ez. apply Ez. reflexivity. }
           set (G := Z.to_nat (PTE_ADDR (pte_of s pgdir va) / PGSIZE)) in *.
           destruct (pages s !! G) as [g|] eqn:Eg.
           ++ destruct (page_remove_mapped pgdir va s G g Epde Es He
                          eq_refl Eg) as (sd & Hd & Hrem).
              unfold bind at 1 in H. rewrite (bind_eq _ _ _ _ _ Hrem) in H.
              set (sr := put _ _ _ _ s) in H.
              rewrite (page_decref_eq s G g Eg) in Hd. injection Hd as Hd.
              assert (HG : physaddr G <> PADDR pgdir).
              { subst G. rewrite physaddr_of_entry. exact Hmd. }
              assert (Hsd : mem sd (PADDR (pde_slot pgdir va))
                            = mem s (PADDR (pde_slot pgdir va)) /\
                            length (pages sd) = length (pages s)).
              { rewrite <- Hd.
                destruct ((pp_ref g - 1) mod REF_LIMIT =? 0); simpl.
                - split; [|apply length_insert].
                  apply pde_after_fill; assumption.
                - split; [reflexivity|apply length_insert]. }
              destruct Hsd as [Hsd Hlen].
              assert (Hpr : pde_of sr pgdir va = pde_of s pgdir va).
              { subst sr. rewrite pde_of_put.
                rewrite pde_after_table_store by assumption. exact Hsd. }
              apply insert_tail in H.
              ** destruct H as (-> & Hm & (q' & _ & Hp) & _).
                 split; [|left; split; [reflexivity|exact Hm]].
                 rewrite Hp, length_insert. subst sr. simpl. exact Hlen.
              ** rewrite Hpr. exact Epde.
              ** rewrite Hpr. exact Es.
              ** rewrite Hpr. exact Htd.
           ++ unfold bind at 1 in H.
              rewrite (bind_Undefined _ _ _
                         (page_remove_out pgdir va s G Epde Es He eq_refl Eg))
                in H.
              discriminate.
Qed.

End Insert.

Lemma run_value {A} (m : M A) s a :
  observe (fun _ => tt) (m s) = Some (a, tt) -> m s = Done a (run m s).
Proof.
  unfold run. destruct (m s) as [a' s'| | |]; simpl; intros H;
    try discriminate.
  injection H as ->. reflexivity.
Qed.

(** ** Re-insertion and the round trip *)

Section RoundTrip.
Context {L : Layout}.

(** C3.  After a call of [page_insert], a second call with the same
    directory, frame and address (and any permission bits) returns what
    the first returned and leaves the whole registry as the first call
    left it: the frame's reference count is not touched. *)
Theorem page_insert_twice_same_ref_count s pgdir pp va perm perm' r s1 :
  directory_private s pgdir va ->
  0 <= perm < PGSIZE ->
  page_insert pgdir pp va perm s = Done r s1 ->
  exists s2,
    page_insert pgdir pp va perm' s1 = Done r s2 /\
    ref_count s2 pp = ref_count s1 pp /\
    pages s2 = pages s1 /\ free_pages s2 = free_pages s1.
Proof.
  intros Hd Hperm H. pose proof Hd as (Hal & Hr & _).
  destruct (page_insert_post pgdir va Hal Hr s pp perm r s1 Hd Hperm H)
    as [_ [[-> Hm]|[-> Hfail]]].
  - destruct (page_insert_again pgdir va s1 pp perm perm' Hperm Hm)
      as (s2 & H2 & Hp & Hf & _).
    exists s2. split; [exact H2|]. unfold ref_count. rewrite Hp.
    repeat split. exact Hf.
  - exists s1. split; [apply Hfail|]. repeat split.
Qed.

(** C1.  After a successful [page_insert] of frame [F] at [A],
    [page_lookup] at [A] (with a [pte_store]) returns [F]; [page_remove]
    at [A] then returns, and after it [page_lookup] at [A] returns
    [NULL]. *)
Theorem page_insert_lookup_remove s pgdir F A perm s1 :
  directory_private s pgdir A ->
  physaddr F <> PADDR pgdir ->
  (F < length (pages s))%nat ->
  Z.of_nat F * PGSIZE < WORD ->
  0 <= perm < PGSIZE ->
  page_insert pgdir F A perm s = Done 0 s1 ->
  (exists pte, page_lookup pgdir A true s1 = Done (Some F, Some pte) s1) /\
  (exists s2, page_remove pgdir A s1 = Done tt s2 /\
     exists q, page_lookup pgdir A true s2 = Done (None, q) s2).
Proof.
  intros Hd HF Hlt Hsmall Hperm H. pose proof Hd as (Hal & Hr & _).
  destruct (page_insert_post pgdir A Hal Hr s F perm 0 s1 Hd Hperm H)
    as [Hlen [[_ Hm]|[E _]]].
  2:{ pose proof E_NO_MEM_pos. lia. }
  destruct Hm as (Hpde & Hs & Hne & He).
  destruct (entry_bits (physaddr F) perm (physaddr_aligned F)
              (physaddr_range F) Hperm) as (He0 & Ha & _).
  rewrite <- He in He0, Ha.
  assert (HG : Z.to_nat (PTE_ADDR (pte_of s1 pgdir A) / PGSIZE) = F).
  { rewrite Ha. apply frame_of_physaddr. exact Hsmall. }
  split.
  - exists (pte_slot (pde_of s1 pgdir A) A).
    rewrite (page_lookup_eq pgdir A s1).
    pose proof Hpde as B1. pose proof Hs as B2. pose proof He0 as B3.
    apply Z.eqb_neq in B1, B2, B3. rewrite B1, B2, B3, HG. reflexivity.
  - rewrite <- Hlen in Hlt.
    destruct (lookup_lt_is_Some_2 _ _ Hlt) as [g Hg].
    destruct (page_remove_mapped pgdir A s1 F g Hpde Hs He0 (eq_sym HG) Hg)
      as (sd & Hdec & Hrem).
    eexists. split; [exact Hrem|].
    set (s2 := put _ _ _ _ s1).
    assert (Hsd : mem sd (PADDR (pde_slot pgdir A))
                  = mem s1 (PADDR (pde_slot pgdir A))).
    { rewrite (page_decref_eq s1 F g Hg) in Hdec. injection Hdec as <-.
      destruct ((pp_ref g - 1) mod REF_LIMIT =? 0); simpl; [|reflexivity].
      apply pde_after_fill; assumption. }
    assert (Hp2 : pde_of s2 pgdir A = pde_of s1 pgdir A).
    { subst s2. rewrite pde_of_put.
      rewrite pde_after_table_store by assumption. exact Hsd. }
    assert (He2 : pte_of s2 pgdir A = 0).
    { unfold pte_of. rewrite Hp2. subst s2. simpl. apply updated_eq. }
    exists (Some (pte_slot (pde_of s1 pgdir A) A)).
    rewrite (page_lookup_eq pgdir A s2). rewrite Hp2, He2.
    apply Z.eqb_neq in Hpde, Hs. rewrite Hpde, Hs. reflexivity.
Qed.

End RoundTrip.

Lemma s_alloc_private :
  directory_private (L := zion_layout) s_alloc (kern_pgdir s_boot) va0.
Proof.
  split; [vm_compute; reflexivity|].
  split; [vm_compute; split; [discriminate|reflexivity]|].
  split.
  - intros T HT. vm_compute in HT. injection HT as <-.
    vm_compute. discriminate.
  - intros H. exfalso. apply H. vm_compute. reflexivity.
Qed.

Lemma page_insert_twice_same_ref_count_witness :
  exists s2,
    page_insert (L := zion_layout) (kern_pgdir s_boot) 262 va0 0
      (run (page_insert (L := zion_layout) (kern_pgdir s_boot) 262 va0 PTE_W)
           s_alloc)
    = Done 0 s2 /\
    ref_count s2 262 =
    ref_count (run (page_insert (L := zion_layout) (kern_pgdir s_boot) 262
                      va0 PTE_W) s_alloc) 262 /\
    pages s2 = pages (run (page_insert (L := zion_layout) (kern_pgdir s_boot)
                             262 va0 PTE_W) s_alloc) /\
    free_pages s2 =
    free_pages (run (page_insert (L := zion_layout) (kern_pgdir s_boot) 262
                       va0 PTE_W) s_alloc).
Proof.
  apply (page_insert_twice_same_ref_count (L := zion_layout) s_alloc
           (kern_pgdir s_boot) 262 va0 PTE_W 0 0).
  - exact s_alloc_private.
  - vm_compute. split; [discriminate|reflexivity].
  - apply (run_value (page_insert (L := zion_layout) (kern_pgdir s_boot) 262
                        va0 PTE_W)).
    vm_compute. reflexivity.
Defined.

Lemma page_insert_lookup_remove_witness :
  (exists pte,
     page_lookup (L := zion_layout) (kern_pgdir s_boot) va0 true
       (run (page_insert (L := zion_layout) (kern_pgdir s_boot) 262 va0 PTE_W)
            s_alloc)
     = Done (Some 262%nat, Some pte)
         (run (page_insert (L := zion_layout) (kern_pgdir s_boot) 262 va0
                 PTE_W) s_alloc)) /\
  (exists s2,
     page_remove (L := zion_layout) (kern_pgdir s_boot) va0
       (run (page_insert (L := zion_layout) (kern_pgdir s_boot) 262 va0 PTE_W)
            s_alloc)
     = Done tt s2 /\
     exists q, page_lookup (L := zion_layout) (kern_pgdir s_boot) va0 true s2
               = Done (None, q) s2).
Proof.
  apply (page_insert_lookup_remove (L := zion_layout) s_alloc
           (kern_pgdir s_boot) 262 va0 PTE_W).
  - exact s_alloc_private.
  - vm_compute. discriminate.
  - vm_compute. lia.
  - vm_compute. reflexivity.
  - vm_compute. split; [discriminate|reflexivity].
  - apply (run_value (page_insert (L := zion_layout) (kern_pgdir s_boot) 262
                        va0 PTE_W)).
    vm_compute. reflexivity.
Defined.

(** ** The bulk mapper over present tables *)

Section Range.
Context {L : Layout}.
Variable pgdir : Z.
Hypothesis pgdir_aligned : aligned pgdir.
Hypothesis pgdir_range : 0 <= pgdir < WORD.

Lemma map_one_present s la pa perm i :
  table_present s pgdir (u32 (la + i)) ->
  map_one pgdir la pa perm i s =
  Done tt (put (pages s) (free_pages s)
             (updated (mem s)
                (pte_pa (pde_of s pgdir (u32 (la + i))) (u32 (la + i)))
                (u32 (Z.lor (Z.lor (u32 (pa + i)) perm) PTE_P)))
             (tlb_log s) s).
Proof.
  intros (Hpde & Hne & Hk). unfold map_one.
  rewrite (bind_eq _ _ _ _ _ (pgdir_walk_create_present pgdir _ s Hpde)).
  pose proof (pte_slot_nonzero _ (u32 (la + i)) Hk) as Hs.
  apply Z.eqb_neq in Hs. rewrite Hs. simpl.
  unfold bind, ret, store, modify. simpl. rewrite pte_slot_pa. reflexivity.
Qed.

(** Writing an entry of a present table changes no directory entry, so
    every table stays present. *)
Lemma table_present_written s va v va' ps fp tl :
  table_present s pgdir va -> table_present s pgdir va' ->
  table_present
    (put ps fp (updated (mem s) (pte_pa (pde_of s pgdir va) va) v) tl s)
    pgdir va' /\
  pde_of (put ps fp (updated (mem s) (pte_pa (pde_of s pgdir va) va) v) tl s)
         pgdir va' = pde_of s pgdir va'.
Proof.
  intros (Hpde & Hne & Hk) Hp'.
  assert (E : pde_of (put ps fp (updated (mem s)
                 (pte_pa (pde_of s pgdir va) va) v) tl s) pgdir va'
              = pde_of s pgdir va').
  { rewrite pde_of_put. apply pde_after_table_store; assumption. }
  split; [|exact E]. unfold table_present. rewrite E. exact Hp'.
Qed.

Lemma PTX_page la k :
  aligned la -> PTX (la + k * PGSIZE) = (la / PGSIZE + k) mod 1024.
Proof.
  unfold aligned, PTX, PGSIZE. intros Ha.
  change 0x3FF with (Z.ones 10). rewrite Z.land_ones by lia.
  rewrite Z.shiftr_div_pow2 by lia. change (2 ^ 12) with 4096.
  change (2 ^ 10) with 1024. rewrite Z.div_add by lia. reflexivity.
Qed.

(** The entries of consecutive pages are different words. *)
Lemma pte_pa_distinct la pde1 pde2 j k :
  aligned la -> 0 <= j < 1024 -> 0 <= k < 1024 -> j <> k ->
  pte_pa pde1 (la + j * PGSIZE) <> pte_pa pde2 (la + k * PGSIZE).
Proof.
  intros Ha Hj Hk Hjk. unfold pte_pa.
  pose proof (PTX_range (la + j * PGSIZE)) as R1.
  pose proof (PTX_range (la + k * PGSIZE)) as R2.
  destruct (Z.eq_dec (PTE_ADDR pde1) (PTE_ADDR pde2)) as [E|Hne].
  - rewrite E. intros E'.
    assert (Ex : PTX (la + j * PGSIZE) = PTX (la + k * PGSIZE)) by lia.
    rewrite !PTX_page in Ex by assumption.
    set (n := la / PGSIZE) in *.
    pose proof (Z.div_mod (n + j) 1024 ltac:(lia)) as D1.
    pose proof (Z.div_mod (n + k) 1024 ltac:(lia)) as D2.
    rewrite Ex in D1. lia.
  - apply frame_sep; try apply PTE_ADDR_aligned; try assumption;
      unfold PGSIZE in *; lia.
Qed.

(** C7, as the code has it.  When the tables that govern the three
    pages exist, mapping the range writes the three entries, each with
    the frame of its page and the requested bits with the present bit,
    changes no other word of memory, and leaves the registry and the
    free list as they were.  The three entries are different words. *)
Theorem page_map_segment_three_pages s la pa perm :
  aligned la -> 0 <= la -> la + 3 * PGSIZE <= WORD ->
  aligned pa -> 0 <= pa -> pa + 3 * PGSIZE <= WORD ->
  0 <= perm < PGSIZE ->
  (forall k, 0 <= k < 3 -> table_present s pgdir (la + k * PGSIZE)) ->
  exists s',
    page_map_segment pgdir la (3 * PGSIZE) pa perm s = Done tt s' /\
    pages s' = pages s /\ free_pages s' = free_pages s /\
    (forall k, 0 <= k < 3 ->
       pte_of s' pgdir (la + k * PGSIZE)
       = pa + k * PGSIZE + Z.lor perm PTE_P) /\
    (forall j k, 0 <= j < 3 -> 0 <= k < 3 -> j <> k ->
       pte_pa (pde_of s pgdir (la + j * PGSIZE)) (la + j * PGSIZE) <>
       pte_pa (pde_of s pgdir (la + k * PGSIZE)) (la + k * PGSIZE)) /\
    (forall a,
       (forall k, 0 <= k < 3 ->
          a <> pte_pa (pde_of s pgdir (la + k * PGSIZE)) (la + k * PGSIZE)) ->
       mem s' a = mem s a).
Proof.
  intros Hla Hla0 Hla3 Hpa Hpa0 Hpa3 Hperm Htab.
  assert (Hval : forall k, 0 <= k < 3 ->
            u32 (Z.lor (Z.lor (u32 (pa + k * PGSIZE)) perm) PTE_P)
            = pa + k * PGSIZE + Z.lor perm PTE_P).
  { intros k Hk.
    rewrite (u32_id (pa + k * PGSIZE)) by (unfold WORD, PGSIZE in *; lia).
    apply entry_bits; [|unfold WORD, PGSIZE in *; lia|exact Hperm].
    apply aligned_add; [exact Hpa|]. unfold aligned.
    apply Z.mod_mul. unfold PGSIZE. lia. }
  assert (Hu : forall k, 0 <= k < 3 ->
            u32 (la + k * PGSIZE) = la + k * PGSIZE).
  { intros k Hk. apply u32_id. unfold WORD, PGSIZE in *. lia. }
  assert (Hdis : forall pde1 pde2 j k, 0 <= j < 3 -> 0 <= k < 3 -> j <> k ->
            pte_pa pde1 (la + j * PGSIZE) <> pte_pa pde2 (la + k * PGSIZE)).
  { intros pde1 pde2 j k Hj Hk Hjk. apply pte_pa_distinct; try assumption; lia. }
  pose proof (Htab 0 ltac:(lia)) as T0.
  pose proof (Htab 1 ltac:(lia)) as T1.
  pose proof (Htab 2 ltac:(lia)) as T2.
  unfold page_map_segment.
  change (round_up (3 * PGSIZE) PGSIZE) with (3 * PGSIZE).
  change (Z.to_nat (3 * PGSIZE / PGSIZE)) with 3%nat.
  pose proof Hla as Hb. unfold aligned in Hb. apply Z.eqb_eq in Hb.
  rewrite Hb. simpl assert. unfold bind at 1. unfold ret at 1.
  rewrite !for_range_S. simpl for_range.
  change (Z.of_nat 0 * PGSIZE) with (0 * PGSIZE).
  change (Z.of_nat 1 * PGSIZE) with (1 * PGSIZE).
  change (Z.of_nat 2 * PGSIZE) with (2 * PGSIZE).
  (* first page *)
  rewrite <- (Hu 0) in T0 by lia.
  rewrite (bind_eq _ _ _ _ _ (map_one_present s la pa perm _ T0)).
  rewrite (Hu 0), (Hval 0) by lia. rewrite (Hu 0) in T0 by lia.
  set (s1 := put _ _ _ _ s).
  destruct (table_present_written s (la + 0 * PGSIZE)
              (pa + 0 * PGSIZE + Z.lor perm PTE_P) (la + 1 * PGSIZE)
              (pages s) (free_pages s) (tlb_log s) T0 T1) as [T1' E11].
  destruct (table_present_written s (la + 0 * PGSIZE)
              (pa + 0 * PGSIZE + Z.lor perm PTE_P) (la + 2 * PGSIZE)
              (pages s) (free_pages s) (tlb_log s) T0 T2) as [T2' E12].
  destruct (table_present_written s (la + 0 * PGSIZE)
              (pa + 0 * PGSIZE + Z.lor perm PTE_P) (la + 0 * PGSIZE)
              (pages s) (free_pages s) (tlb_log s) T0 T0) as [T0' E10].
  fold s1 in T1', E11, T2', E12, T0', E10.
  (* second page *)
  rewrite <- (Hu 1) in T1' by lia.
  rewrite (bind_eq _ _ _ _ _ (map_one_present s1 la pa perm _ T1')).
  rewrite (Hu 1), (Hval 1) by lia. rewrite (Hu 1) in T1' by lia.
  set (s2 := put _ _ _ _ s1).
  destruct (table_present_written s1 (la + 1 * PGSIZE)
              (pa + 1 * PGSIZE + Z.lor perm PTE_P) (la + 2 * PGSIZE)
              (pages s1) (free_pages s1) (tlb_log s1) T1' T2') as [T2'' E22].
  destruct (table_present_written s1 (la + 1 * PGSIZE)
              (pa + 1 * PGSIZE + Z.lor perm PTE_P) (la + 1 * PGSIZE)
              (pages s1) (free_pages s1) (tlb_log s1) T1' T1') as [_ E21].
  destruct (table_present_written s1 (la + 1 * PGSIZE)
              (pa + 1 * PGSIZE + Z.lor perm PTE_P) (la + 0 * PGSIZE)
              (pages s1) (free_pages s1) (tlb_log s1) T1' T0') as [_ E20].
  fold s2 in T2'', E22, E21, E20.
  (* third page *)
  rewrite <- (Hu 2) in T2'' by lia.
  rewrite (bind_eq _ _ _ _ _ (map_one_present s2 la pa perm _ T2'')).
  rewrite (Hu 2), (Hval 2) by lia. rewrite (Hu 2) in T2'' by lia.
  set (s3 := put _ _ _ _ s2).
  destruct (table_present_written s2 (la + 2 * PGSIZE)
              (pa + 2 * PGSIZE + Z.lor perm PTE_P) (la + 2 * PGSIZE)
              (pages s2) (free_pages s2) (tlb_log s2) T2'' T2'') as [_ E32].
  fold s3 in E32.
  unfold bind, ret.
  exists s3. split; [reflexivity|]. split; [reflexivity|].
  split; [reflexivity|].
  assert (M : mem s3 =
    updated (updated (updated (mem s)
      (pte_pa (pde_of s pgdir (la + 0 * PGSIZE)) (la + 0 * PGSIZE))
      (pa + 0 * PGSIZE + Z.lor perm PTE_P))
      (pte_pa (pde_of s pgdir (la + 1 * PGSIZE)) (la + 1 * PGSIZE))
      (pa + 1 * PGSIZE + Z.lor perm PTE_P))
      (pte_pa (pde_of s pgdir (la + 2 * PGSIZE)) (la + 2 * PGSIZE))
      (pa + 2 * PGSIZE + Z.lor perm PTE_P)).
  { unfold s3. rewrite mem_put, E22, E12.
    unfold s2. rewrite mem_put, E11.
    unfold s1. rewrite mem_put. reflexivity. }
  assert (P3 : forall k, 0 <= k < 3 ->
            pde_of s3 pgdir (la + k * PGSIZE) = pde_of s pgdir (la + k * PGSIZE)).
  { intros k Hk.
    assert (k = 0 \/ k = 1 \/ k = 2) as [->|[->| ->]] by lia.
    - destruct (table_present_written s2 (la + 2 * PGSIZE)
                  (pa + 2 * PGSIZE + Z.lor perm PTE_P) (la + 0 * PGSIZE)
                  (pages s2) (free_pages s2) (tlb_log s2) T2''
                  ltac:(unfold table_present; rewrite E20; exact T0'))
        as [_ E]. fold s3 in E. rewrite E, E20, E10. reflexivity.
    - destruct (table_present_written s2 (la + 2 * PGSIZE)
                  (pa + 2 * PGSIZE + Z.lor perm PTE_P) (la + 1 * PGSIZE)
                  (pages s2) (free_pages s2) (tlb_log s2) T2''
                  ltac:(unfold table_present; rewrite E21; exact T1'))
        as [_ E]. fold s3 in E. rewrite E, E21, E11. reflexivity.
    - rewrite E32, E22, E12. reflexivity. }
  split; [|split].
  - intros k Hk. unfold pte_of. rewrite (P3 k Hk), M.
    assert (k = 0 \/ k = 1 \/ k = 2) as [->|[->| ->]] by lia.
    + rewrite updated_ne by (apply Hdis; lia).
      rewrite updated_ne by (apply Hdis; lia). apply updated_eq.
    + rewrite updated_ne by (apply Hdis; lia). apply updated_eq.
    + apply updated_eq.
  - intros j k Hj Hk Hjk. apply Hdis; assumption.
  - intros a Ha. rewrite M.
    rewrite !updated_ne by (apply Ha; lia). reflexivity.
Qed.

End Range.

Lemma page_map_segment_three_pages_witness :
  exists s',
    page_map_segment (L := zion_layout) (kern_pgdir s_boot) 0x00801000
                     (3 * PGSIZE) 0x5000 PTE_W s_mapped = Done tt s' /\
    pages s' = pages s_mapped /\ free_pages s' = free_pages s_mapped.
Proof.
  destruct (page_map_segment_three_pages (L := zion_layout)
              (kern_pgdir s_boot)
              ltac:(vm_compute; reflexivity)
              ltac:(vm_compute; split; [discriminate|reflexivity])
              s_mapped 0x00801000 0x5000 PTE_W)
    as (s' & H & Hp & Hf & _).
  - vm_compute. reflexivity.
  - vm_compute. discriminate.
  - vm_compute. discriminate.
  - vm_compute. reflexivity.
  - vm_compute. discriminate.
  - vm_compute. discriminate.
  - vm_compute. split; [discriminate|reflexivity].
  - intros k Hk.
    assert (k = 0 \/ k = 1 \/ k = 2) as [->|[->| ->]] by lia;
      (split; [|split]); vm_compute; discriminate.
  - exists s'. split; [exact H|]. split; assumption.
Defined.

(** ** The free list *)

Section FreeList.

Lemma chain_in_range ps h l F :
  chain ps h l -> F ∈ l -> (F < length ps)%nat.
Proof.
  induction 1 as [|i p l Hp _ IH]; intros Hin.
  - inversion Hin.
  - apply elem_of_cons in Hin as [->|Hin]; [|apply IH; exact Hin].
    eapply lookup_lt_Some. exact Hp.
Qed.

(** A descriptor that is not on the list can be changed at will. *)
Lemma chain_insert_off ps h l F p :
  chain ps h l -> F ∉ l -> chain (<[F := p]> ps) h l.
Proof.
  induction 1 as [|i q l Hq _ IH]; intros Hn.
  - constructor.
  - apply not_elem_of_cons in Hn as [Hne Hn].
    apply chain_cons with q.
    + rewrite list_lookup_insert_ne by congruence. exact Hq.
    + apply IH. exact Hn.
Qed.

Lemma walk_free_chain ps h l fuel :
  chain ps h l -> (length l <= fuel)%nat -> walk_free fuel ps h = l.
Proof.
  intros Hc. revert fuel. induction Hc as [|i p l Hp _ IH]; intros fuel Hf.
  - destruct fuel; reflexivity.
  - destruct fuel as [|fuel]; simpl in Hf; [lia|].
    simpl. rewrite Hp. f_equal. apply IH. lia.
Qed.

Lemma NoDup_reversed (l : list nat) : NoDup l -> NoDup (reverse l).
Proof. intros H. rewrite reverse_Permutation. exact H. Qed.

Lemma NoDup_bounded_length (l : list nat) n :
  NoDup l -> (forall x, x ∈ l -> (x < n)%nat) -> (length l <= n)%nat.
Proof.
  intros Hnd Hb.
  assert (Hs : l ⊆+ seq 0 n).
  { apply NoDup_submseteq; [exact Hnd|].
    intros x Hx. apply elem_of_seq. pose proof (Hb x Hx). lia. }
  apply submseteq_length in Hs. rewrite length_seq in Hs. exact Hs.
Qed.

(** The list of the invariant is the list that the walk from the head
    finds. *)
Lemma free_list_is_walk s l :
  free_list_is (pages s) (free_pages s) l -> free_list s = l.
Proof.
  intros (Hc & Hnd & _). unfold free_list.
  apply walk_free_chain; [exact Hc|].
  assert (length l <= length (pages s))%nat; [|lia].
  apply NoDup_bounded_length; [exact Hnd|].
  intros x Hx. eapply chain_in_range; eauto.
Qed.





End FreeList.

(** ** The operations keep the free list *)

Section Preserve.
Context {L : Layout}.



















End Preserve.

(** ** page_init builds the free list *)

Section Init.
Context {L : Layout}.

Lemma boot_alloc_registry n s v s' :
  boot_alloc n s = Done v s' ->
  pages s' = pages s /\ free_pages s' = free_pages s.
Proof.
  unfold boot_alloc, bind, gets, modify, ret, halt_with. simpl.
  destruct (nextfree s =? 0); simpl;
    destruct (_ <? _); intros H; try discriminate;
    injection H as _ <-; split; reflexivity.
Qed.


(** The count of a descriptor after its first reference. *)
Lemma one_ref : (0 + 1) mod REF_LIMIT = 1.
Proof. pose proof REF_LIMIT_big. apply Z.mod_small. lia. Qed.

Lemma reserve_frame_shape n s f s' :
  init_shape n (pages s) f -> (160 <= f)%nat ->
  reserve_frame f s = Done tt s' ->
  init_shape n (pages s') (S f) /\ free_pages s' = free_pages s.
Proof.
  intros (Hlen & Hzero & Hlow & Hres & Hcur & Hup) Hf H.
  unfold reserve_frame in H.
  rewrite (bind_eq _ _ _ _ _ (read_Page_eq _ _ _ Hcur)) in H. simpl in H.
  destruct (pages s !! S f) as [q|] eqn:Eq.
  2:{ rewrite (bind_Undefined _ _ _ (set_next_None _ _ _ Eq)) in H.
      discriminate. }
  assert (Hlt : (S f < n)%nat).
  { rewrite <- Hlen. eapply lookup_lt_Some. exact Eq. }
  rewrite (Hup (S f) ltac:(lia)) in Eq. injection Eq as <-.
  rewrite (bind_eq _ _ _ _ _
             (set_next_eq (S f) (Some 159%nat) s _ (Hup (S f) ltac:(lia))))
    in H.
  simpl in H. set (s1 := set_pages _ s) in H.
  assert (H1 : pages s1 !! f = Some (mkPage (Some 159%nat) 0)).
  { subst s1. simpl. rewrite list_lookup_insert_ne by lia. exact Hcur. }
  rewrite (incref_eq _ _ _ H1) in H. injection H as <-. simpl.
  rewrite one_ref.
  split; [|reflexivity]. split; [|split; [|split; [|split; [|split]]]].
  - rewrite !length_insert. exact Hlen.
  - rewrite !list_lookup_insert_ne by lia. exact Hzero.
  - intros j Hj. rewrite !list_lookup_insert_ne by lia. apply Hlow. exact Hj.
  - intros j Hj. destruct (decide (j = f)) as [->|Hne].
    + exists (mkPage (Some 159%nat) 1). split; [|reflexivity].
      apply list_lookup_insert_eq. rewrite length_insert. lia.
    + rewrite !list_lookup_insert_ne by lia. apply Hres. lia.
  - rewrite list_lookup_insert_ne by lia.
    apply list_lookup_insert_eq. lia.
  - intros j Hj. rewrite !list_lookup_insert_ne by lia. apply Hup. lia.
Qed.



(** The frames below the I/O hole, from [m] down to 1. *)
Lemma chain_low n ps f m :
  init_shape n ps f -> (1 <= m < 160)%nat ->
  chain ps (Some m) (reverse (seq 1 m)).
Proof.
  intros (_ & _ & Hlow & _) Hm. induction m as [|m IH]; [lia|].
  rewrite seq_S, reverse_snoc. simpl.
  apply chain_cons with (mkPage (if decide (S m = 1%nat) then None
                                 else Some (S m - 1)%nat) 0).
  - apply Hlow. exact Hm.
  - cbn [pp_next]. destruct (decide (S m = 1%nat)) as [E|E].
    + assert (m = 0%nat) as -> by lia. constructor.
    + replace (S m - 1)%nat with m by lia. apply IH. lia.
Qed.

(** The frames from [f + k] down to [f], then those below the hole. *)
Lemma chain_high n ps f k :
  init_shape n ps f -> (f + k < n)%nat ->
  chain ps (Some (f + k)%nat)
        (reverse (seq f (S k)) ++ reverse (seq 1 159)).
Proof.
  intros Hs Hk. pose proof Hs as (_ & _ & _ & _ & Hcur & Hup).
  induction k as [|k IH].
  - rewrite Nat.add_0_r. simpl seq. simpl reverse. simpl app.
    apply chain_cons with (mkPage (Some 159%nat) 0); [exact Hcur|].
    cbn [pp_next]. apply (chain_low n ps f 159 Hs). lia.
  - rewrite seq_S, reverse_snoc. simpl app.
    apply chain_cons with (mkPage (Some (f + S k - 1)%nat) 0).
    + apply Hup. lia.
    + cbn [pp_next]. replace (f + S k - 1)%nat with (f + k)%nat by lia.
      apply IH. lia.
Qed.

Lemma init_shape_free_list n ps f :
  init_shape n ps f -> (160 <= f)%nat ->
  free_list_is ps (Some (n - 1)%nat)
               (reverse (seq f (n - f)) ++ reverse (seq 1 159)).
Proof.
  intros Hs Hf. pose proof Hs as (Hlen & _ & Hlow & _ & Hcur & Hup).
  assert (Hfn : (f < n)%nat).
  { rewrite <- Hlen. eapply lookup_lt_Some. exact Hcur. }
  split; [|split].
  - assert (Hk : exists k, (n - 1 = f + k)%nat /\ (n - f = S k)%nat).
    { exists (n - f - 1)%nat. lia. }
    destruct Hk as (k & E1 & E2). rewrite E1, E2.
    apply (chain_high n ps f k Hs). lia.
  - apply NoDup_app. split; [|split].
    + apply NoDup_reversed, NoDup_seq.
    + intros x Hx Hx'. apply elem_of_reverse, elem_of_seq in Hx.
      apply elem_of_reverse, elem_of_seq in Hx'. lia.
    + apply NoDup_reversed, NoDup_seq.
  - intros F HF. apply elem_of_app in HF as [HF|HF];
      apply elem_of_reverse, elem_of_seq in HF.
    + destruct (decide (F = f)) as [->|Hne].
      * eexists. split; [exact Hcur|reflexivity].
      * eexists. split; [apply Hup; lia|reflexivity].
    + eexists. split; [apply Hlow; lia|reflexivity].
Qed.

#[local] Opaque for_range reserve_boot.


#[local] Transparent for_range reserve_boot.


End Init.

(** ** Computations on the registry alone *)

Section RegistrySteps.
Context {L : Layout}.

Lemma registry_step_Done {A} (m : M A) s a s' :
  registry_step m -> m s = Done a s' ->
  length (pages s') = length (pages s) /\
  npages s' = npages s /\ nextfree s' = nextfree s.
Proof.
  intros Hm H. destruct (Hm s) as [E|(a' & s'' & E & R)].
  - rewrite E in H. discriminate.
  - rewrite E in H. injection H as _ <-. exact R.
Qed.

Lemma registry_step_bind {A B} (m : M A) (k : A -> M B) :
  registry_step m -> (forall a, registry_step (k a)) ->
  registry_step (bind m k).
Proof.
  intros Hm Hk s. unfold bind.
  destruct (Hm s) as [E|(a & s' & E & R1 & R2 & R3)]; rewrite E.
  - left. reflexivity.
  - destruct (Hk a s') as [E'|(b & s'' & E' & Q1 & Q2 & Q3)]; rewrite E'.
    + left. reflexivity.
    + right. exists b, s''. split; [reflexivity|].
      rewrite Q1, Q2, Q3. repeat split; assumption.
Qed.

Lemma registry_step_read i : registry_step (read_Page i).
Proof.
  intros s. unfold read_Page. destruct (pages s !! i) as [p|].
  - right. exists p, s. repeat split.
  - left. reflexivity.
Qed.

Lemma registry_step_write i p : registry_step (write_Page i p).
Proof.
  intros s. unfold write_Page. destruct (pages s !! i).
  - right. eexists tt, _. split; [reflexivity|]. simpl.
    rewrite length_insert. repeat split.
  - left. reflexivity.
Qed.

Lemma registry_step_set_next i n : registry_step (set_next i n).
Proof.
  apply registry_step_bind; [apply registry_step_read|].
  intros p. apply registry_step_write.
Qed.

Lemma registry_step_incref i : registry_step (incref i).
Proof.
  apply registry_step_bind; [apply registry_step_read|].
  intros p. apply registry_step_write.
Qed.

Lemma registry_step_reserve i : registry_step (reserve_frame i).
Proof.
  unfold reserve_frame.
  apply registry_step_bind; [apply registry_step_read|].
  intros p. apply registry_step_bind; [apply registry_step_set_next|].
  intros _. apply registry_step_incref.
Qed.

Lemma registry_step_push i : registry_step (push_frame i).
Proof.
  unfold push_frame.
  apply registry_step_bind.
  { apply registry_step_bind; [apply registry_step_read|].
    intros p. apply registry_step_write. }
  intros _. apply registry_step_bind.
  { intros s. right. exists (free_pages s), s. repeat split. }
  intros fp. apply registry_step_bind; [apply registry_step_set_next|].
  intros _ s. right. eexists tt, _. split; [reflexivity|]. repeat split.
Qed.

Lemma registry_step_for body :
  (forall i, registry_step (body i)) ->
  forall c i, registry_step (for_range i c body).
Proof.
  intros Hb. induction c as [|c IH]; intros i.
  - intros s. right. exists tt, s. repeat split.
  - rewrite for_range_S. apply registry_step_bind; [apply Hb|].
    intros _. apply IH.
Qed.

End RegistrySteps.

(** ** page_init on a machine without extended memory *)

Section BaseMemory.
Context {L : Layout}.









#[local] Opaque for_range reserve_boot.



#[local] Transparent for_range reserve_boot.

End BaseMemory.


(** With the kernel image of [zion_layout], which ends above 1 MB, a
    machine without extended memory has no room for the registry:
    [boot_alloc] panics in [mem_init], before [page_init]. *)
Lemma mem_init_registry_no_room :
  mem_init_registry (L := zion_layout) 640 0 8
    (fun _ => mkPage (Some 7%nat) 41) power_on
  = Halt panic_boot_alloc.
Proof. vm_compute. reflexivity. Qed.

(** ** The states of a frame *)

Section Invariant.
Context {L : Layout}.





End Invariant.


(** ** The three states of the claim *)




(** ** The fuel of page_init *)

Section Fuel.
Context {L : Layout}.

Lemma bind_fuel {A B} (m : M A) (k : A -> M B) s :
  m s <> OutOfFuel ->
  (forall a s', m s = Done a s' -> k a s' <> OutOfFuel) ->
  bind m k s <> OutOfFuel.
Proof.
  unfold bind. intros Hm Hk. destruct (m s) as [a s'| | |];
    [apply Hk; reflexivity|discriminate|discriminate|contradiction].
Qed.

Lemma write_Page_fuel i p s : write_Page i p s <> OutOfFuel.
Proof. unfold write_Page. destruct (pages s !! i); discriminate. Qed.

Lemma read_Page_fuel i s : read_Page i s <> OutOfFuel.
Proof. unfold read_Page. destruct (pages s !! i); discriminate. Qed.

Lemma set_next_fuel i n s : set_next i n s <> OutOfFuel.
Proof.
  unfold set_next. apply bind_fuel; [apply read_Page_fuel|].
  intros. apply write_Page_fuel.
Qed.

Lemma set_ref_fuel i r s : set_ref i r s <> OutOfFuel.
Proof.
  unfold set_ref. apply bind_fuel; [apply read_Page_fuel|].
  intros. apply write_Page_fuel.
Qed.

Lemma incref_fuel i s : incref i s <> OutOfFuel.
Proof.
  unfold incref. apply bind_fuel; [apply read_Page_fuel|].
  intros. apply write_Page_fuel.
Qed.

Lemma push_frame_fuel i s : push_frame i s <> OutOfFuel.
Proof.
  unfold push_frame. apply bind_fuel; [apply set_ref_fuel|]. intros _ s1 _.
  apply bind_fuel; [discriminate|]. intros fp s2 _.
  apply bind_fuel; [apply set_next_fuel|]. intros. discriminate.
Qed.

Lemma reserve_frame_fuel i s : reserve_frame i s <> OutOfFuel.
Proof.
  unfold reserve_frame. apply bind_fuel; [apply read_Page_fuel|].
  intros p s1 _. apply bind_fuel; [apply set_next_fuel|].
  intros. apply incref_fuel.
Qed.

Lemma boot_alloc_fuel n s : boot_alloc n s <> OutOfFuel.
Proof.
  unfold boot_alloc, bind, gets, modify, ret, halt_with. simpl.
  destruct (nextfree s =? 0); simpl; destruct (_ <? _); discriminate.
Qed.

Lemma for_range_fuel body :
  (forall i s, body i s <> OutOfFuel) ->
  forall c i s, for_range i c body s <> OutOfFuel.
Proof.
  intros Hb. induction c as [|c IH]; intros i s; [discriminate|].
  rewrite for_range_S. apply bind_fuel; [apply Hb|]. intros. apply IH.
Qed.

(** A frame is reserved only if its successor is in the registry, and
    the registry keeps its size. *)
Lemma reserve_frame_length i s s' :
  reserve_frame i s = Done tt s' ->
  (S i < length (pages s))%nat /\ length (pages s') = length (pages s).
Proof.
  unfold reserve_frame. intros H.
  apply bind_Done in H as (p & s1 & Hr & H).
  apply read_Page_Done in Hr as [Hp ->].
  apply bind_Done in H as ([] & s2 & Hn & Hi).
  destruct (pages s !! S i) as [q|] eqn:Eq.
  - rewrite (set_next_eq _ _ _ _ Eq) in Hn. injection Hn as <-.
    apply incref_Done in Hi as (q' & _ & ->). simpl.
    rewrite !length_insert. split; [|reflexivity].
    eapply lookup_lt_Some. exact Eq.
  - rewrite (set_next_None _ _ _ Eq) in Hn. discriminate.
Qed.

(** The loop over extended memory stops, returns or fails before its
    fuel is spent. *)
Lemma reserve_boot_fuel fuel : forall i s,
  (0 < fuel)%nat -> (length (pages s) <= i + fuel)%nat ->
  reserve_boot fuel i s <> OutOfFuel.
Proof.
  induction fuel as [|fuel IH]; intros i s Hpos Hlen; [lia|].
  simpl. apply bind_fuel; [apply boot_alloc_fuel|]. intros v s1 Hb.
  apply boot_alloc_registry in Hb as [Hp _].
  destruct (Z.of_nat i <? PADDR v / PGSIZE); [|discriminate].
  apply bind_fuel; [apply reserve_frame_fuel|]. intros [] s2 Hr.
  apply reserve_frame_length in Hr as [Hlt Hl2].
  rewrite Hp in Hlt, Hl2. apply IH; lia.
Qed.

(** [page_init] never stops for lack of fuel: the model loses no run of
    the code. *)
Lemma page_init_fuel s : page_init s <> OutOfFuel.
Proof.
  unfold page_init. apply bind_fuel; [discriminate|]. intros _ s1 _.
  apply bind_fuel; [discriminate|]. intros np s2 _.
  apply bind_fuel; [apply for_range_fuel, push_frame_fuel|]. intros _ s3 _.
  apply bind_fuel; [apply read_Page_fuel|]. intros p0 s4 _.
  apply bind_fuel; [apply set_next_fuel|]. intros _ s5 _.
  apply bind_fuel; [apply incref_fuel|]. intros _ s6 _.
  apply bind_fuel; [apply for_range_fuel, reserve_frame_fuel|].
  intros _ s7 _.
  apply bind_fuel; [discriminate|]. intros ps s8 Hg.
  injection Hg as <- <-. apply reserve_boot_fuel; lia.
Qed.

End Fuel.

(** ** What page_insert and page_map do otherwise *)

Section Replace.
Context {L : Layout}.

(** X21.  Away from frame 0 the replacement is as the specification has
    it: over a mapping of a frame [G] whose address is not 0, inserting
    another frame [F] releases one reference of [G], takes one on [F],
    leaves [F] mapped and invalidates the address. *)
Lemma page_insert_replaces s pgdir F G A perm g q :
  directory_private s pgdir A ->
  0 <= perm < PGSIZE ->
  pde_of s pgdir A <> 0 ->
  pte_slot (pde_of s pgdir A) A <> 0 ->
  G = Z.to_nat (PTE_ADDR (pte_of s pgdir A) / PGSIZE) ->
  PTE_ADDR (pte_of s pgdir A) <> 0 ->
  PTE_ADDR (pte_of s pgdir A) <> physaddr F ->
  Z.of_nat F * PGSIZE < WORD ->
  pages s !! G = Some g -> 1 <= pp_ref g < REF_LIMIT ->
  pages s !! F = Some q -> 0 <= pp_ref q -> pp_ref q + 1 < REF_LIMIT ->
  exists s1 pte,
    page_insert pgdir F A perm s = Done 0 s1 /\
    page_lookup pgdir A true s1 = Done (Some F, Some pte) s1 /\
    ref_count s1 G = Some (pp_ref g - 1) /\
    ref_count s1 F = Some (pp_ref q + 1) /\
    tlb_log s1 = tlb_log s ++ [A].
Proof.
  intros Hd Hperm Hpde Hs HG Hz Hne Hsmall Hg Hrg Hq Hq0 Hq1.
  pose proof Hd as (Hal & Hr & _).
  assert (He : pte_of s pgdir A <> 0).
  { intros E. rewrite E in Hz. apply Hz. reflexivity. }
  assert (HFG : F <> G).
  { intros ->. apply Hne. rewrite HG. symmetry. apply physaddr_of_entry. }
  destruct (page_remove_mapped pgdir A s G g Hpde Hs He HG Hg)
    as (sd & Hdec & Hrem).
  rewrite (page_decref_eq s G g Hg) in Hdec. injection Hdec as Hdec.
  rewrite (Z.mod_small (pp_ref g - 1)) in Hdec by lia.
  assert (Hsd : pages sd !! F = Some q /\
                ref_count sd G = Some (pp_ref g - 1) /\
                tlb_log sd = tlb_log s).
  { rewrite <- Hdec. unfold ref_count.
    destruct (pp_ref g - 1 =? 0) eqn:E0; simpl.
    - apply Z.eqb_eq in E0. rewrite list_lookup_insert_ne by congruence.
      rewrite list_lookup_insert_eq by (eapply lookup_lt_Some; eauto).
      simpl. rewrite E0. repeat split. exact Hq.
    - rewrite list_lookup_insert_ne by congruence.
      rewrite list_lookup_insert_eq by (eapply lookup_lt_Some; eauto).
      repeat split. exact Hq. }
  destruct Hsd as (HqF & HrG & Htl).
  set (sr := put (pages sd) (free_pages sd)
                 (updated (mem sd) (pte_pa (pde_of s pgdir A) A) 0)
                 (tlb_log s ++ [A]) s) in Hrem.
  assert (Hins : page_insert pgdir F A perm s =
                 Done 0 (put (<[F := mkPage (pp_next q)
                                       ((pp_ref q + 1) mod REF_LIMIT)]>
                                (pages sr))
                             (free_pages sr)
                             (updated (mem sr)
                                (pte_pa (pde_of sr pgdir A) A)
                                (u32 (Z.lor (Z.lor (physaddr F) perm) PTE_P)))
                             (tlb_log sr) sr)).
  { unfold page_insert.
    rewrite (bind_eq _ _ _ _ _ (pgdir_walk_nocreate _ _ _)).
    pose proof Hpde as B1. pose proof Hs as B2.
    apply Z.eqb_neq in B1, B2. rewrite B1, B2. simpl.
    unfold bind at 1. unfold load at 1. rewrite pte_slot_pa.
    fold (pte_of s pgdir A).
    pose proof Hne as B3. pose proof Hz as B4.
    apply Z.eqb_neq in B3, B4. rewrite B3, B4. simpl.
    unfold bind at 1. unfold bind at 1. rewrite Hrem.
    assert (HqR : pages sr !! F = Some q) by exact HqF.
    rewrite (incref_put F sr q HqR). rewrite write_entry_eq. reflexivity. }
  set (s1 := put _ _ _ _ sr) in Hins.
  destruct (page_insert_post pgdir A Hal Hr s F perm 0 s1 Hd Hperm Hins)
    as [_ [[_ Hm]|[E _]]].
  2:{ pose proof E_NO_MEM_pos. lia. }
  destruct Hm as (Hpde1 & Hs1 & _ & He1).
  destruct (entry_bits (physaddr F) perm (physaddr_aligned F)
              (physaddr_range F) Hperm) as (He0 & Ha & _).
  rewrite <- He1 in He0, Ha.
  exists s1, (pte_slot (pde_of s1 pgdir A) A).
  split; [exact Hins|]. split; [|split; [|split]].
  - rewrite (page_lookup_eq pgdir A s1).
    apply Z.eqb_neq in Hpde1, Hs1, He0. rewrite Hpde1, Hs1, He0, Ha.
    rewrite frame_of_physaddr by exact Hsmall. reflexivity.
  - unfold ref_count. subst s1. simpl.
    rewrite list_lookup_insert_ne by congruence. exact HrG.
  - unfold ref_count. subst s1. simpl.
    rewrite list_lookup_insert_eq by (eapply lookup_lt_Some; eauto).
    simpl. rewrite Z.mod_small by lia. reflexivity.
  - reflexivity.
Qed.

(** The half of the out-of-memory contract that [page_map] keeps: with
    no free frame it returns [-E_NO_MEM] and changes nothing. *)
Lemma page_map_no_frame s va perm :
  free_pages s = None -> page_map va perm s = Done (- E_NO_MEM) s.
Proof.
  intros Hf. unfold page_map.
  rewrite (bind_eq _ _ _ _ _ (page_alloc_None s Hf)). reflexivity.
Qed.

End Replace.

(** The replacement on the machine of the scenarios: frame 260 inserted
    over frame 262, whose only reference it was. *)
Lemma page_insert_replaces_example :
  observe (fun s =>
             observe (fun s' => (lookup_frame (L := zion_layout) s'
                                   (kern_pgdir s') va0,
                                 ref_count s' 262, ref_count s' 260,
                                 on_free_listb s' 262, tlb_log s'))
               (page_insert (L := zion_layout) (kern_pgdir s) 260 va0 PTE_W s))
    (page_alloc (L := zion_layout) s_mapped)
  = Some (Some 260%nat,
          Some (0, (Some (Some 260%nat), Some 0, Some 1, true, [va0]))).
Proof. by_evaluation. Qed.

(** ** alloc_free_page and the head of the free list *)

(** When the frame that [alloc_free_page] takes is the head of the free
    list, it is marked referenced and its link is cleared, but
    [free_pages] is not moved: the frame stays the head of the list with
    a reference count of 1, the frames behind it are lost, and the next
    [page_alloc] returns the same frame again. *)
Lemma alloc_free_page_keeps_head :
  free_pages s_head = Some 260%nat /\
  ref_count s_head 260 = Some 0 /\
  observe (fun s => (free_pages s, free_list s, ref_count s 260))
    (alloc_free_page (L := zion_layout) s_head)
  = Some (0xF0104000, (Some 260%nat, [260%nat], Some 1)) /\
  observe (fun s => ref_count s 260)
    (bind (alloc_free_page (L := zion_layout))
          (fun _ => page_alloc (L := zion_layout)) s_head)
  = Some (Some 260%nat, Some 1).
Proof. by_evaluation. Qed.

(** * Further properties of pmap.c *)

(** ** The boot-time allocator *)

Section BootAlloc.
Context {L : Layout}.

(** [boot_alloc] in one step: the frontier is the top of the kernel image
    on the first call, the block starts there, and the call panics when
    the new frontier lies above the last frame. *)
Lemma boot_alloc_eq n s :
  boot_alloc n s =
  let v := if nextfree s =? 0 then round_up kernel_end PGSIZE
           else nextfree s in
  let nf := u32 (v + round_up n PGSIZE) in
  if u32 (npages s * PGSIZE + KERNBASE) <? nf
  then Halt panic_boot_alloc
  else Done v (set_nextfree nf s).
Proof.
  unfold boot_alloc, bind, gets, modify, ret, halt_with.
  destruct (nextfree s =? 0); simpl;
    destruct (_ <? _); reflexivity.
Qed.

Lemma set_nextfree_id s : set_nextfree (nextfree s) s = s.
Proof. destruct s. reflexivity. Qed.

(** X1.  [boot_alloc(0)] reads the frontier and does not move it: the
    value returned is the frontier afterwards, asking again gives the same
    value and changes nothing, and once the frontier has been initialised
    the first query changes nothing either. *)
Theorem boot_alloc_zero_query s v s1 :
  0 <= nextfree s < WORD ->
  boot_alloc 0 s = Done v s1 ->
  nextfree s1 = v /\
  boot_alloc 0 s1 = Done v s1 /\
  (nextfree s <> 0 -> s1 = s).
Proof.
  intros Hr H. rewrite boot_alloc_eq in H. cbv zeta in H.
  change (round_up 0 PGSIZE) with 0 in H. rewrite Z.add_0_r in H.
  set (v0 := if nextfree s =? 0 then round_up kernel_end PGSIZE
             else nextfree s) in H.
  assert (Hv : 0 <= v0 < WORD).
  { subst v0. destruct (nextfree s =? 0); [|exact Hr].
    pose proof (round_up_PGSIZE_range kernel_end). unfold PGSIZE in *. lia. }
  rewrite (u32_id v0 Hv) in H.
  destruct (_ <? v0) eqn:Ec; [discriminate|].
  injection H as <- <-. split; [reflexivity|]. split.
  - rewrite boot_alloc_eq. cbv zeta.
    change (round_up 0 PGSIZE) with 0. rewrite Z.add_0_r.
    change (nextfree (set_nextfree v0 s)) with v0.
    change (npages (set_nextfree v0 s)) with (npages s).
    assert (E : (if v0 =? 0 then round_up kernel_end PGSIZE else v0) = v0).
    { destruct (v0 =? 0) eqn:E0; [|reflexivity].
      apply Z.eqb_eq in E0. subst v0.
      destruct (nextfree s =? 0) eqn:E1; [reflexivity|].
      apply Z.eqb_neq in E1. contradiction. }
    rewrite E, (u32_id v0 Hv), Ec. f_equal.
  - intros Hne. subst v0. apply Z.eqb_neq in Hne. rewrite Hne.
    apply set_nextfree_id.
Qed.

(** X2.  Two successive allocations hand out page-aligned blocks that do
    not overlap: the second block starts where the first one, rounded up
    to whole pages, ends.  The frontier must not pass the end of the
    32-bit address space, which [boot_alloc] does not check. *)
Theorem boot_alloc_consecutive s n m v1 s1 v2 s2 :
  aligned (nextfree s) -> 0 <= nextfree s < WORD ->
  0 <= n <= WORD - PGSIZE ->
  boot_alloc n s = Done v1 s1 ->
  v1 + round_up n PGSIZE < WORD ->
  boot_alloc m s1 = Done v2 s2 ->
  aligned v1 /\ aligned v2 /\
  v2 = v1 + round_up n PGSIZE /\ v1 + n <= v2.
Proof.
  intros Ha Hr Hn H1 Hw H2.
  rewrite boot_alloc_eq in H1. cbv zeta in H1.
  set (v0 := if nextfree s =? 0 then round_up kernel_end PGSIZE
             else nextfree s) in H1.
  pose proof (round_up_PGSIZE_range kernel_end) as [Rk Ak].
  pose proof (round_up_PGSIZE_range n) as [Rn An].
  assert (Hv : 0 <= v0 < WORD /\ aligned v0).
  { subst v0. destruct (nextfree s =? 0); [|split; assumption].
    split; [unfold PGSIZE in *; lia|exact Ak]. }
  destruct Hv as [Hv Hva].
  destruct (_ <? _) eqn:Ec in H1; [discriminate|].
  injection H1 as <- <-.
  rewrite (u32_id (v0 + round_up n PGSIZE)) in * by lia.
  assert (Hge : n <= round_up n PGSIZE).
  { unfold round_up. rewrite u32_id by (unfold WORD, PGSIZE in *; lia).
    unfold PGSIZE.
    pose proof (Z.mod_pos_bound (n + 4096 - 1) 4096 ltac:(lia)). lia. }
  rewrite boot_alloc_eq in H2. cbv zeta in H2.
  change (nextfree (set_nextfree (v0 + round_up n PGSIZE) s))
    with (v0 + round_up n PGSIZE) in H2.
  assert (E : (if v0 + round_up n PGSIZE =? 0
               then round_up kernel_end PGSIZE
               else v0 + round_up n PGSIZE) = v0 + round_up n PGSIZE).
  { destruct (v0 + round_up n PGSIZE =? 0) eqn:E0; [|reflexivity].
    apply Z.eqb_eq in E0.
    assert (v0 = 0) by lia. subst v0.
    destruct (nextfree s =? 0) eqn:E1.
    - lia.
    - apply Z.eqb_neq in E1. lia. }
  rewrite E in H2.
  destruct (_ <? _) in H2; [discriminate|].
  injection H2 as <- _.
  split; [exact Hva|]. split; [|split; [reflexivity|lia]].
  apply aligned_add; assumption.
Qed.

End BootAlloc.

Lemma boot_alloc_zero_query_witness :
  nextfree (run (boot_alloc (L := zion_layout) 0) (boot_state 264))
  = 0xF0104000 /\
  boot_alloc (L := zion_layout) 0
    (run (boot_alloc (L := zion_layout) 0) (boot_state 264))
  = Done 0xF0104000 (run (boot_alloc (L := zion_layout) 0) (boot_state 264)) /\
  (nextfree (boot_state 264) <> 0 ->
   run (boot_alloc (L := zion_layout) 0) (boot_state 264) = boot_state 264).
Proof.
  apply (boot_alloc_zero_query (L := zion_layout) (boot_state 264)).
  - vm_compute. split; [discriminate|reflexivity].
  - apply (run_value (boot_alloc (L := zion_layout) 0)).
    vm_compute. reflexivity.
Defined.

Lemma boot_alloc_consecutive_witness :
  aligned 0xF0104000 /\ aligned 0xF0106000 /\
  0xF0106000 = 0xF0104000 + round_up 0x1001 PGSIZE /\
  0xF0104000 + 0x1001 <= 0xF0106000.
Proof.
  apply (boot_alloc_consecutive (L := zion_layout) (boot_state 264)
           0x1001 0 0xF0104000
           (run (boot_alloc (L := zion_layout) 0x1001) (boot_state 264))
           0xF0106000
           (run (boot_alloc (L := zion_layout) 0)
              (run (boot_alloc (L := zion_layout) 0x1001) (boot_state 264)))).
  - vm_compute. reflexivity.
  - vm_compute. split; [discriminate|reflexivity].
  - vm_compute. split; discriminate.
  - apply (run_value (boot_alloc (L := zion_layout) 0x1001)).
    vm_compute. reflexivity.
  - vm_compute. reflexivity.
  - apply (run_value (boot_alloc (L := zion_layout) 0)).
    vm_compute. reflexivity.
Defined.

(** ** Frames: allocation, release and the reference count *)

Section Frames.
Context {L : Layout}.

Lemma page_free_eq s pp p :
  pages s !! pp = Some p ->
  page_free pp s =
  if pp_ref p =? 0
  then Done tt (put (<[pp := mkPage (free_pages s) 0]> (pages s)) (Some pp)
                    (filled (mem s) (physaddr pp) 0xcc PGSIZE) (tlb_log s) s)
  else Halt assert_pp_ref_zero.
Proof.
  intros Hp. unfold page_free.
  rewrite (bind_eq _ _ _ _ _ (read_Page_eq _ _ _ Hp)).
  destruct (pp_ref p =? 0) eqn:E; [|reflexivity].
  apply Z.eqb_eq in E. unfold assert. unfold bind at 1. unfold ret at 1.
  unfold bind at 1. rewrite memset_eq, PADDR_data.
  unfold bind at 1. unfold gets at 1.
  set (s2 := put _ _ _ _ s).
  assert (H2 : pages s2 !! pp = Some p) by exact Hp.
  rewrite (bind_eq _ _ _ _ _ (set_next_eq _ _ _ _ H2)).
  unfold modify. subst s2. simpl. rewrite E. reflexivity.
Qed.

(** X3.  [page_free] stops on its assertion, changing nothing, when the
    frame is still referenced.  Otherwise the frame becomes the head of
    the free list, and the next [page_alloc] returns this very frame and
    puts the head back where it was: the list is last-in first-out. *)
Theorem page_free_then_alloc s pp p :
  pages s !! pp = Some p ->
  (pp_ref p <> 0 -> page_free pp s = Halt assert_pp_ref_zero) /\
  (pp_ref p = 0 ->
   exists s1 s2,
     page_free pp s = Done tt s1 /\
     free_pages s1 = Some pp /\
     page_alloc s1 = Done (Some pp) s2 /\
     free_pages s2 = free_pages s /\
     pages s2 = <[pp := mkPage (free_pages s) 0]> (pages s) /\
     tlb_log s2 = tlb_log s).
Proof.
  intros Hp. rewrite (page_free_eq s pp p Hp). split.
  - intros Hne. apply Z.eqb_neq in Hne. rewrite Hne. reflexivity.
  - intros ->. simpl. set (s1 := put _ _ _ _ s).
    assert (H1 : pages s1 !! pp = Some (mkPage (free_pages s) 0)).
    { subst s1. simpl. apply list_lookup_insert_eq.
      eapply lookup_lt_Some. exact Hp. }
    exists s1. eexists. split; [reflexivity|]. split; [reflexivity|].
    split; [apply (page_alloc_Some s1 pp _ eq_refl H1)|].
    repeat split.
Qed.

(** X4.  [page_free] does not notice a frame that is free already.
    Freeing an unreferenced frame twice links its descriptor to itself:
    from then on every [page_alloc] returns that frame and leaves the
    list as it is, so the list never runs out and the frames that were
    on it are lost. *)
Theorem page_free_twice_cycle s pp p :
  pages s !! pp = Some p -> pp_ref p = 0 ->
  exists s2,
    (page_free pp ;;; page_free pp) s = Done tt s2 /\
    free_pages s2 = Some pp /\
    pages s2 !! pp = Some (mkPage (Some pp) 0) /\
    forall s',
      free_pages s' = Some pp ->
      pages s' !! pp = Some (mkPage (Some pp) 0) ->
      exists s'',
        page_alloc s' = Done (Some pp) s'' /\
        free_pages s'' = Some pp /\
        pages s'' !! pp = Some (mkPage (Some pp) 0).
Proof.
  intros Hp Hz.
  assert (Hlt : (pp < length (pages s))%nat) by (eapply lookup_lt_Some; eauto).
  pose proof (page_free_eq s pp p Hp) as H1. rewrite Hz in H1. simpl in H1.
  set (s1 := put _ _ _ _ s) in H1.
  assert (Hp1 : pages s1 !! pp = Some (mkPage (free_pages s) 0)).
  { subst s1. simpl. apply list_lookup_insert_eq. exact Hlt. }
  pose proof (page_free_eq s1 pp _ Hp1) as H2. simpl in H2.
  rewrite (bind_eq _ _ _ _ _ H1), H2.
  eexists. split; [reflexivity|]. split; [reflexivity|]. split.
  - simpl. apply list_lookup_insert_eq. rewrite length_insert. exact Hlt.
  - intros s' Hf' Hp'. eexists.
    split; [apply (page_alloc_Some s' pp _ Hf' Hp')|].
    split; [reflexivity|exact Hp'].
Qed.

(** X5.  [page_decref] on the three ranges of the count.  At 0 the
    unsigned counter wraps to its largest value and nothing is freed; at
    1 the frame is freed and becomes the head of the free list, linked to
    the former head; above 1 only the count changes. *)
Theorem page_decref_cases s pp p :
  pages s !! pp = Some p -> 0 <= pp_ref p < REF_LIMIT ->
  exists s',
    page_decref pp s = Done tt s' /\
    (pp_ref p = 0 ->
     pages s' !! pp = Some (mkPage (pp_next p) (REF_LIMIT - 1)) /\
     free_pages s' = free_pages s /\ mem s' = mem s) /\
    (pp_ref p = 1 ->
     pages s' !! pp = Some (mkPage (free_pages s) 0) /\
     free_pages s' = Some pp) /\
    (1 < pp_ref p ->
     pages s' !! pp = Some (mkPage (pp_next p) (pp_ref p - 1)) /\
     free_pages s' = free_pages s /\ mem s' = mem s).
Proof.
  intros Hp Hr. pose proof REF_LIMIT_big as HL.
  assert (Hlt : (pp < length (pages s))%nat) by (eapply lookup_lt_Some; eauto).
  rewrite (page_decref_eq s pp p Hp). eexists. split; [reflexivity|].
  split; [|split].
  - intros E. rewrite E.
    replace ((0 - 1) mod REF_LIMIT) with (REF_LIMIT - 1).
    + assert (Hn : (REF_LIMIT - 1 =? 0) = false) by (apply Z.eqb_neq; lia).
      rewrite Hn. simpl. split; [|split; reflexivity].
      apply list_lookup_insert_eq. exact Hlt.
    + symmetry. replace (0 - 1) with (REF_LIMIT - 1 + (-1) * REF_LIMIT) by lia.
      rewrite Z.mod_add by lia. apply Z.mod_small. lia.
  - intros E. rewrite E. change (1 - 1) with 0.
    rewrite Z.mod_0_l by lia. simpl. split; [|reflexivity].
    apply list_lookup_insert_eq. exact Hlt.
  - intros E. rewrite (Z.mod_small (pp_ref p - 1)) by lia.
    assert (Hn : (pp_ref p - 1 =? 0) = false) by (apply Z.eqb_neq; lia).
    rewrite Hn. simpl. split; [|split; reflexivity].
    apply list_lookup_insert_eq. exact Hlt.
Qed.

(** X6.  A frame taken from the free list, referenced once by its owner
    and released with [page_decref] is back at the head of the list: the
    registry and the head of the list are as they were before the
    allocation. *)
Theorem alloc_use_release s T q :
  free_pages s = Some T -> pages s !! T = Some q -> pp_ref q = 0 ->
  exists s3,
    (a <- page_alloc ;;
     match a with
     | Some pp => incref pp ;;; page_decref pp
     | None => ret tt
     end) s = Done tt s3 /\
    pages s3 = pages s /\ free_pages s3 = free_pages s /\
    tlb_log s3 = tlb_log s.
Proof.
  intros Hf Hq Hz. pose proof REF_LIMIT_big as HL.
  rewrite (bind_eq _ _ _ _ _ (page_alloc_Some s T q Hf Hq)).
  set (s1 := put _ _ _ _ s).
  assert (H1 : pages s1 !! T = Some q) by exact Hq.
  rewrite (bind_eq _ _ _ _ _ (incref_put _ _ _ H1)).
  set (s2 := put _ _ _ _ s1).
  assert (Hlt : (T < length (pages s))%nat) by (eapply lookup_lt_Some; eauto).
  assert (H2 : pages s2 !! T
               = Some (mkPage (pp_next q) ((pp_ref q + 1) mod REF_LIMIT))).
  { subst s2. simpl. apply list_lookup_insert_eq. exact Hlt. }
  rewrite (page_decref_eq s2 T _ H2). cbn [pp_ref pp_next].
  rewrite Hz. rewrite (Z.mod_small (0 + 1)) by lia.
  change (0 + 1 - 1) with 0. rewrite Z.mod_0_l by lia. simpl.
  eexists. split; [reflexivity|]. simpl.
  split; [|split; [symmetry; exact Hf|reflexivity]].
  rewrite list_insert_insert_eq. apply list_insert_id.
  rewrite Hq. destruct q as [nx r]. simpl in Hz. subst r. reflexivity.
Qed.

End Frames.

Lemma page_free_then_alloc_witness :
  (pp_ref (mkPage (Some 261%nat) 0) <> 0 ->
   page_free (L := zion_layout) 262 s_alloc = Halt assert_pp_ref_zero) /\
  (pp_ref (mkPage (Some 261%nat) 0) = 0 ->
   exists s1 s2,
     page_free (L := zion_layout) 262 s_alloc = Done tt s1 /\
     free_pages s1 = Some 262%nat /\
     page_alloc (L := zion_layout) s1 = Done (Some 262%nat) s2 /\
     free_pages s2 = free_pages s_alloc /\
     pages s2 = <[262%nat := mkPage (free_pages s_alloc) 0]> (pages s_alloc) /\
     tlb_log s2 = tlb_log s_alloc).
Proof.
  apply (page_free_then_alloc (L := zion_layout) s_alloc 262).
  vm_compute. reflexivity.
Defined.

Lemma page_free_twice_cycle_witness :
  exists s2,
    (page_free (L := zion_layout) 262 ;;; page_free (L := zion_layout) 262)
      s_alloc = Done tt s2 /\
    free_pages s2 = Some 262%nat /\
    pages s2 !! 262%nat = Some (mkPage (Some 262%nat) 0) /\
    forall s',
      free_pages s' = Some 262%nat ->
      pages s' !! 262%nat = Some (mkPage (Some 262%nat) 0) ->
      exists s'',
        page_alloc (L := zion_layout) s' = Done (Some 262%nat) s'' /\
        free_pages s'' = Some 262%nat /\
        pages s'' !! 262%nat = Some (mkPage (Some 262%nat) 0).
Proof.
  apply (page_free_twice_cycle (L := zion_layout) s_alloc 262
           (mkPage (Some 261%nat) 0)).
  - vm_compute. reflexivity.
  - reflexivity.
Defined.

Lemma page_decref_cases_witness :
  exists s',
    page_decref (L := zion_layout) 263 s_boot = Done tt s' /\
    (1 = 0 ->
     pages s' !! 263%nat
     = Some (mkPage (Some 262%nat) (REF_LIMIT (Layout := zion_layout) - 1)) /\
     free_pages s' = free_pages s_boot /\ mem s' = mem s_boot) /\
    (1 = 1 ->
     pages s' !! 263%nat = Some (mkPage (free_pages s_boot) 0) /\
     free_pages s' = Some 263%nat) /\
    (1 < 1 ->
     pages s' !! 263%nat = Some (mkPage (Some 262%nat) (1 - 1)) /\
     free_pages s' = free_pages s_boot /\ mem s' = mem s_boot).
Proof.
  apply (page_decref_cases (L := zion_layout) s_boot 263 (mkPage (Some 262%nat) 1)).
  - vm_compute. reflexivity.
  - vm_compute. split; [discriminate|reflexivity].
Defined.

Lemma alloc_use_release_witness :
  exists s3,
    (a <- page_alloc (L := zion_layout) ;;
     match a with
     | Some pp => incref (L := zion_layout) pp ;;;
                  page_decref (L := zion_layout) pp
     | None => ret tt
     end) s_boot = Done tt s3 /\
    pages s3 = pages s_boot /\ free_pages s3 = free_pages s_boot /\
    tlb_log s3 = tlb_log s_boot.
Proof.
  apply (alloc_use_release (L := zion_layout) s_boot 262
           (mkPage (Some 261%nat) 0)).
  - vm_compute. reflexivity.
  - vm_compute. reflexivity.
  - reflexivity.
Defined.

(** ** New page tables *)

Section NewTable.
Context {L : Layout}.
Variables pgdir va : Z.
Hypothesis pgdir_aligned : aligned pgdir.
Hypothesis pgdir_range : 0 <= pgdir < WORD.

Lemma new_pde_value T : new_pde T = physaddr T + 7.
Proof.
  unfold new_pde. rewrite <- (Z.lor_assoc (physaddr T)).
  destruct (entry_bits (physaddr T) (Z.lor PTE_U PTE_W)) as (_ & _ & E).
  - apply physaddr_aligned.
  - apply physaddr_range.
  - vm_compute. split; [discriminate|reflexivity].
  - exact E.
Qed.

Lemma pde_slot_PDX va' : PDX va' = PDX va -> pde_slot pgdir va' = pde_slot pgdir va.
Proof. unfold pde_slot. intros ->. reflexivity. Qed.

(** The state [pgdir_walk] leaves after it has made a table of frame
    [T]: the directory entry is in place and the table reads 0. *)
Lemma new_table_state s T ps fp tl :
  physaddr T <> PADDR pgdir ->
  let s' := put ps fp
              (updated (filled (filled (mem s) (physaddr T) 0xcc PGSIZE)
                               (physaddr T) 0 PGSIZE)
                       (PADDR (pde_slot pgdir va)) (new_pde T)) tl s in
  forall va', PDX va' = PDX va ->
    pde_of s' pgdir va' = new_pde T /\ pte_of s' pgdir va' = 0.
Proof.
  intros Hne s' va' Hx.
  assert (E : pde_of s' pgdir va' = new_pde T).
  { unfold pde_of. rewrite (pde_slot_PDX va' Hx). subst s'. simpl.
    apply updated_eq. }
  split; [exact E|]. unfold pte_of. rewrite E. subst s'. simpl.
  destruct (new_pde_bits T) as [_ Ha]. unfold pte_pa. rewrite Ha.
  pose proof (PTX_range va') as Hx'. pose proof (PDX_range va) as Hd.
  rewrite updated_ne.
  - unfold filled. rewrite memset_same_frame.
    + reflexivity.
    + apply physaddr_aligned.
    + apply physaddr_range.
    + unfold PGSIZE. lia.
  - rewrite pde_slot_pa by assumption. apply frame_sep.
    + apply physaddr_aligned.
    + apply PADDR_aligned. exact pgdir_aligned.
    + unfold PGSIZE. lia.
    + unfold PGSIZE. lia.
    + exact Hne.
Qed.

(** X7.  [pgdir_walk] with [create] on an address that has no table
    takes the head of the free list, gives it one reference, installs it
    in the directory with the user, writable and present bits, and
    returns the address of the entry of [va] in it; the new table is
    empty, so every address it governs has an entry equal to 0. *)
Theorem pgdir_walk_new_table s T q :
  pde_of s pgdir va = 0 -> free_pages s = Some T -> pages s !! T = Some q ->
  physaddr T <> PADDR pgdir ->
  exists s',
    pgdir_walk pgdir va true s
    = Done (u32 (KADDR (physaddr T) + 4 * PTX va)) s' /\
    free_pages s' = pp_next q /\
    pages s' = <[T := mkPage (pp_next q) ((pp_ref q + 1) mod REF_LIMIT)]>
                 (pages s) /\
    tlb_log s' = tlb_log s /\
    (forall va', PDX va' = PDX va ->
       pde_of s' pgdir va' = physaddr T + (PTE_U + PTE_W + PTE_P) /\
       pte_of s' pgdir va' = 0).
Proof.
  intros Hpde Hf Hq Hne.
  rewrite (pgdir_walk_create_new pgdir va s T q Hpde Hf Hq).
  destruct (new_pde_bits T) as [_ Ha].
  eexists. split.
  - unfold pte_slot. rewrite Ha. reflexivity.
  - split; [reflexivity|]. split; [reflexivity|]. split; [reflexivity|].
    intros va' Hx.
    destruct (new_table_state s T
                (<[T := mkPage (pp_next q) ((pp_ref q + 1) mod REF_LIMIT)]>
                   (pages s)) (pp_next q) (tlb_log s) Hne va' Hx) as [E1 E2].
    split; [|exact E2]. rewrite E1. apply new_pde_value.
Qed.

(** X8.  [page_insert] at an address that has no table makes the table
    and maps the frame.  The table frame comes from the head of the free
    list and both frames gain one reference.  The directory entry that
    [pgdir_walk] installed is overwritten: it ends with the permission
    bits of this mapping and the present bit, not with the user and
    writable bits.  No address is invalidated. *)
Theorem page_insert_new_table s T q pp p perm :
  0 <= perm < PGSIZE ->
  pde_of s pgdir va = 0 -> free_pages s = Some T -> pages s !! T = Some q ->
  physaddr T <> PADDR pgdir -> KADDR (physaddr T) <> 0 ->
  pages s !! pp = Some p -> pp <> T ->
  exists s1,
    page_insert pgdir pp va perm s = Done 0 s1 /\
    pde_of s1 pgdir va = physaddr T + Z.lor perm PTE_P /\
    pte_of s1 pgdir va = physaddr pp + Z.lor perm PTE_P /\
    free_pages s1 = pp_next q /\
    pages s1 !! T = Some (mkPage (pp_next q) ((pp_ref q + 1) mod REF_LIMIT)) /\
    pages s1 !! pp = Some (mkPage (pp_next p) ((pp_ref p + 1) mod REF_LIMIT)) /\
    tlb_log s1 = tlb_log s.
Proof.
  intros Hperm Hpde Hf Hq Hne Hk Hp HppT.
  assert (HT : (T < length (pages s))%nat) by (eapply lookup_lt_Some; eauto).
  assert (Hpp : (pp < length (pages s))%nat) by (eapply lookup_lt_Some; eauto).
  destruct (new_pde_bits T) as [Hn0 Hna].
  assert (Es : pte_slot (new_pde T) va <> 0).
  { apply pte_slot_nonzero. rewrite Hna. exact Hk. }
  destruct (entry_bits (physaddr T) perm (physaddr_aligned T)
              (physaddr_range T) Hperm) as (He0 & Hea & Hev).
  destruct (entry_bits (physaddr pp) perm (physaddr_aligned pp)
              (physaddr_range pp) Hperm) as (_ & _ & Hpv).
  cbv zeta in Hev, Hpv, He0, Hea.
  unfold page_insert.
  rewrite (bind_eq _ _ _ _ _ (pgdir_walk_nocreate _ _ _)).
  rewrite Hpde. simpl.
  rewrite (bind_eq _ _ _ _ _ (pgdir_walk_create_new pgdir va s T q Hpde Hf Hq)).
  set (s' := put _ _ _ _ s).
  pose proof Es as Esb. apply Z.eqb_neq in Esb. rewrite Esb.
  rewrite (bind_eq _ _ _ _ _ (store_eq _ _ _)).
  rewrite (rewritten_pde va T perm Hperm Es).
  set (e := u32 (Z.lor (Z.lor (physaddr T) perm) PTE_P)) in *.
  set (s'' := put _ _ _ _ s').
  assert (Hp'' : pages s'' !! pp = Some p).
  { subst s'' s'. simpl. rewrite list_lookup_insert_ne by congruence.
    exact Hp. }
  rewrite (bind_eq _ _ _ _ _ (incref_put _ _ _ Hp'')).
  set (s3 := put _ _ _ _ s'').
  rewrite (write_entry_eq pgdir va s3 pp perm).
  assert (Hpde3 : pde_of s3 pgdir va = e).
  { subst s3 s''. unfold pde_of. simpl. apply updated_eq. }
  rewrite Hpde3.
  eexists. split; [reflexivity|].
  assert (Hsep : pte_pa e va <> PADDR (pde_slot pgdir va)).
  { unfold pte_pa. rewrite Hea. rewrite pde_slot_pa by assumption.
    pose proof (PTX_range va). pose proof (PDX_range va).
    apply frame_sep.
    - apply physaddr_aligned.
    - apply PADDR_aligned. exact pgdir_aligned.
    - unfold PGSIZE. lia.
    - unfold PGSIZE. lia.
    - exact Hne. }
  assert (Hd1 : pde_of
            (put (pages s3) (free_pages s3)
               (updated (mem s3) (pte_pa e va)
                  (u32 (Z.lor (Z.lor (physaddr pp) perm) PTE_P)))
               (tlb_log s3) s3) pgdir va = e).
  { unfold pde_of. simpl. rewrite updated_ne by congruence.
    apply updated_eq. }
  split; [rewrite Hd1; exact Hev|]. split.
  - unfold pte_of. rewrite Hd1. simpl. rewrite updated_eq. exact Hpv.
  - split; [reflexivity|]. simpl. split; [|split; [|reflexivity]].
    + rewrite list_lookup_insert_ne by congruence.
      apply list_lookup_insert_eq. exact HT.
    + apply list_lookup_insert_eq. rewrite length_insert. exact Hpp.
Qed.

(** [page_insert] at an address whose table exists and whose entry is
    empty, as a state transformer. *)
Lemma page_insert_empty_eq s pp p perm :
  pde_of s pgdir va <> 0 -> pte_slot (pde_of s pgdir va) va <> 0 ->
  pte_of s pgdir va = 0 ->
  pages s !! pp = Some p ->
  page_insert pgdir pp va perm s =
  Done 0 (put (if physaddr pp =? 0 then pages s
               else <[pp := mkPage (pp_next p)
                              ((pp_ref p + 1) mod REF_LIMIT)]> (pages s))
              (free_pages s)
              (updated (mem s) (pte_pa (pde_of s pgdir va) va)
                       (u32 (Z.lor (Z.lor (physaddr pp) perm) PTE_P)))
              (tlb_log s) s).
Proof.
  intros Hpde Hs He Hp.
  unfold page_insert.
  rewrite (bind_eq _ _ _ _ _ (pgdir_walk_nocreate _ _ _)).
  pose proof Hpde as B1. pose proof Hs as B2.
  apply Z.eqb_neq in B1, B2. rewrite B1, B2. simpl.
  unfold bind at 1. unfold load at 1. rewrite pte_slot_pa.
  fold (pte_of s pgdir va). rewrite He.
  change (PTE_ADDR 0) with 0. rewrite (Z.eqb_sym 0 (physaddr pp)).
  destruct (physaddr pp =? 0) eqn:Ez; simpl.
  - unfold bind at 1. unfold ret at 1.
    rewrite (write_entry_eq pgdir va s pp perm). reflexivity.
  - unfold bind at 1. unfold bind at 1. unfold ret at 1.
    rewrite (incref_put _ _ _ Hp).
    set (s' := put _ _ _ _ s).
    rewrite (write_entry_eq pgdir va s' pp perm). reflexivity.
Qed.

(** X9.  [page_insert] at an address whose table exists and whose entry
    is empty writes the entry and no other word of memory, invalidates
    nothing and takes nothing from the free list.  It takes one
    reference on the frame, unless the frame
    is frame 0: an empty entry reads as a mapping of frame 0, so the call
    takes the branch for a frame that is mapped already and the count of
    frame 0 stays as it was. *)
Theorem page_insert_empty_entry s pp p perm :
  0 <= perm < PGSIZE ->
  pde_of s pgdir va <> 0 -> pte_slot (pde_of s pgdir va) va <> 0 ->
  PTE_ADDR (pde_of s pgdir va) <> PADDR pgdir ->
  pte_of s pgdir va = 0 ->
  pages s !! pp = Some p ->
  exists s1,
    page_insert pgdir pp va perm s = Done 0 s1 /\
    pte_of s1 pgdir va = physaddr pp + Z.lor perm PTE_P /\
    free_pages s1 = free_pages s /\ tlb_log s1 = tlb_log s /\
    pages s1 = (if physaddr pp =? 0 then pages s
                else <[pp := mkPage (pp_next p)
                               ((pp_ref p + 1) mod REF_LIMIT)]> (pages s)) /\
    (forall a, a <> pte_pa (pde_of s pgdir va) va -> mem s1 a = mem s a).
Proof.
  intros Hperm Hpde Hs Hne He Hp.
  destruct (entry_bits (physaddr pp) perm (physaddr_aligned pp)
              (physaddr_range pp) Hperm) as (_ & _ & Hpv).
  cbv zeta in Hpv.
  rewrite (page_insert_empty_eq s pp p perm Hpde Hs He Hp).
  eexists. split; [reflexivity|]. split.
  { unfold pte_of. rewrite pde_of_put.
    rewrite pde_after_table_store by assumption.
    fold (pde_of s pgdir va). simpl. rewrite updated_eq. exact Hpv. }
  split; [reflexivity|]. split; [reflexivity|]. split; [reflexivity|].
  intros a Ha. simpl. apply updated_ne. exact Ha.
Qed.

End NewTable.

Lemma pgdir_walk_new_table_witness :
  exists s',
    pgdir_walk (L := zion_layout) (kern_pgdir s_boot) va0 true s_boot
    = Done (u32 (KADDR (L := zion_layout) (physaddr 262) + 4 * PTX va0)) s' /\
    free_pages s' = pp_next (mkPage (Some 261%nat) 0) /\
    pages s' = <[262%nat := mkPage (pp_next (mkPage (Some 261%nat) 0))
                              ((pp_ref (mkPage (Some 261%nat) 0) + 1)
                               mod REF_LIMIT (Layout := zion_layout))]>
                 (pages s_boot) /\
    tlb_log s' = tlb_log s_boot /\
    (forall va', PDX va' = PDX va0 ->
       pde_of (L := zion_layout) s' (kern_pgdir s_boot) va'
       = physaddr 262 + (PTE_U + PTE_W + PTE_P) /\
       pte_of (L := zion_layout) s' (kern_pgdir s_boot) va' = 0).
Proof.
  apply (pgdir_walk_new_table (L := zion_layout) (kern_pgdir s_boot) va0).
  - vm_compute. reflexivity.
  - vm_compute. split; [discriminate|reflexivity].
  - vm_compute. reflexivity.
  - vm_compute. reflexivity.
  - vm_compute. reflexivity.
  - vm_compute. discriminate.
Defined.

Lemma page_insert_new_table_witness :
  exists s1,
    page_insert (L := zion_layout) (kern_pgdir s_boot) 262 va0 PTE_W s_alloc
    = Done 0 s1 /\
    pde_of (L := zion_layout) s1 (kern_pgdir s_boot) va0
    = physaddr 261 + Z.lor PTE_W PTE_P /\
    pte_of (L := zion_layout) s1 (kern_pgdir s_boot) va0
    = physaddr 262 + Z.lor PTE_W PTE_P /\
    free_pages s1 = pp_next (mkPage (Some 260%nat) 0) /\
    pages s1 !! 261%nat
    = Some (mkPage (pp_next (mkPage (Some 260%nat) 0))
              ((pp_ref (mkPage (Some 260%nat) 0) + 1)
               mod REF_LIMIT (Layout := zion_layout))) /\
    pages s1 !! 262%nat
    = Some (mkPage (pp_next (mkPage (Some 261%nat) 0))
              ((pp_ref (mkPage (Some 261%nat) 0) + 1)
               mod REF_LIMIT (Layout := zion_layout))) /\
    tlb_log s1 = tlb_log s_alloc.
Proof.
  apply (page_insert_new_table (L := zion_layout) (kern_pgdir s_boot) va0).
  - vm_compute. reflexivity.
  - vm_compute. split; [discriminate|reflexivity].
  - vm_compute. split; [discriminate|reflexivity].
  - vm_compute. reflexivity.
  - vm_compute. reflexivity.
  - vm_compute. reflexivity.
  - vm_compute. discriminate.
  - vm_compute. discriminate.
  - vm_compute. reflexivity.
  - discriminate.
Defined.

Lemma page_insert_empty_entry_witness :
  exists s1,
    page_insert (L := zion_layout) (kern_pgdir s_boot) 262 0x00801000 PTE_W
      s_mapped = Done 0 s1 /\
    pte_of (L := zion_layout) s1 (kern_pgdir s_boot) 0x00801000
    = physaddr 262 + Z.lor PTE_W PTE_P /\
    free_pages s1 = free_pages s_mapped /\ tlb_log s1 = tlb_log s_mapped /\
    pages s1 = (if physaddr 262 =? 0 then pages s_mapped
                else <[262%nat := mkPage (pp_next (mkPage (Some 261%nat) 1))
                                    ((pp_ref (mkPage (Some 261%nat) 1) + 1)
                                     mod REF_LIMIT (Layout := zion_layout))]>
                       (pages s_mapped)) /\
    (forall a,
       a <> pte_pa (pde_of (L := zion_layout) s_mapped (kern_pgdir s_boot)
                           0x00801000) 0x00801000 ->
       mem s1 a = mem s_mapped a).
Proof.
  apply (page_insert_empty_entry (L := zion_layout) (kern_pgdir s_boot)
           0x00801000).
  - vm_compute. reflexivity.
  - vm_compute. split; [discriminate|reflexivity].
  - vm_compute. split; [discriminate|reflexivity].
  - vm_compute. discriminate.
  - vm_compute. discriminate.
  - vm_compute. discriminate.
  - vm_compute. reflexivity.
  - vm_compute. reflexivity.
Defined.

(** ** Removing a mapping *)

Section Remove.
Context {L : Layout}.
Variables pgdir va : Z.
Hypothesis pgdir_aligned : aligned pgdir.
Hypothesis pgdir_range : 0 <= pgdir < WORD.

(** The state after [page_remove] of a mapped frame that is not the
    directory: the directory entry stands and the table entry is 0. *)
Lemma page_remove_state s G g :
  pde_of s pgdir va <> 0 ->
  pte_slot (pde_of s pgdir va) va <> 0 ->
  pte_of s pgdir va <> 0 ->
  G = Z.to_nat (PTE_ADDR (pte_of s pgdir va) / PGSIZE) ->
  pages s !! G = Some g ->
  PTE_ADDR (pde_of s pgdir va) <> PADDR pgdir ->
  physaddr G <> PADDR pgdir ->
  exists sd s1,
    page_decref G s = Done tt sd /\
    page_remove pgdir va s = Done tt s1 /\
    pages s1 = pages sd /\ free_pages s1 = free_pages sd /\
    tlb_log s1 = tlb_log s ++ [va] /\
    pde_of s1 pgdir va = pde_of s pgdir va /\
    pte_of s1 pgdir va = 0.
Proof.
  intros Hpde Hs He HG Hg Hne HGd.
  destruct (page_remove_mapped pgdir va s G g Hpde Hs He HG Hg)
    as (sd & Hdec & Hrem).
  exists sd. eexists. split; [exact Hdec|]. split; [exact Hrem|].
  set (s1 := put _ _ _ _ s).
  assert (Hsd : mem sd (PADDR (pde_slot pgdir va))
                = mem s (PADDR (pde_slot pgdir va))).
  { rewrite (page_decref_eq s G g Hg) in Hdec. injection Hdec as <-.
    destruct ((pp_ref g - 1) mod REF_LIMIT =? 0); simpl; [|reflexivity].
    apply pde_after_fill; assumption. }
  assert (Hp1 : pde_of s1 pgdir va = pde_of s pgdir va).
  { subst s1. rewrite pde_of_put.
    rewrite pde_after_table_store by assumption. exact Hsd. }
  repeat split; try reflexivity; try exact Hp1.
  unfold pte_of. rewrite Hp1. subst s1. simpl. apply updated_eq.
Qed.

(** X10.  [page_remove] of a mapped frame releases one reference of the
    frame, clears the entry and invalidates the address once; the page
    table stays in the directory, also when it is left empty.  A second
    [page_remove] of the same address then changes nothing at all. *)
Theorem page_remove_twice s G g :
  pde_of s pgdir va <> 0 ->
  pte_slot (pde_of s pgdir va) va <> 0 ->
  pte_of s pgdir va <> 0 ->
  G = Z.to_nat (PTE_ADDR (pte_of s pgdir va) / PGSIZE) ->
  pages s !! G = Some g ->
  PTE_ADDR (pde_of s pgdir va) <> PADDR pgdir ->
  physaddr G <> PADDR pgdir ->
  exists s1,
    page_remove pgdir va s = Done tt s1 /\
    ref_count s1 G = Some ((pp_ref g - 1) mod REF_LIMIT) /\
    pte_of s1 pgdir va = 0 /\
    pde_of s1 pgdir va = pde_of s pgdir va /\
    tlb_log s1 = tlb_log s ++ [va] /\
    page_lookup pgdir va true s1
    = Done (None, Some (pte_slot (pde_of s pgdir va) va)) s1 /\
    page_remove pgdir va s1 = Done tt s1.
Proof.
  intros Hpde Hs He HG Hg Hne HGd.
  destruct (page_remove_state s G g Hpde Hs He HG Hg Hne HGd)
    as (sd & s1 & Hdec & Hrem & Hp & Hf & Ht & Hd1 & He1).
  assert (Hlt : (G < length (pages s))%nat) by (eapply lookup_lt_Some; eauto).
  exists s1. split; [exact Hrem|]. split.
  { unfold ref_count. rewrite Hp.
    rewrite (page_decref_eq s G g Hg) in Hdec. injection Hdec as <-.
    destruct ((pp_ref g - 1) mod REF_LIMIT =? 0) eqn:E; simpl;
      rewrite list_lookup_insert_eq by exact Hlt; simpl; [|reflexivity].
    apply Z.eqb_eq in E. rewrite E. reflexivity. }
  split; [exact He1|]. split; [exact Hd1|]. split; [exact Ht|].
  assert (Hl : page_lookup pgdir va true s1
               = Done (None, Some (pte_slot (pde_of s pgdir va) va)) s1).
  { rewrite (page_lookup_eq pgdir va s1). rewrite Hd1, He1.
    apply Z.eqb_neq in Hpde, Hs. rewrite Hpde, Hs. reflexivity. }
  split; [exact Hl|].
  apply page_remove_unmapped. unfold lookup_frame. rewrite Hl. reflexivity.
Qed.

(** X11.  [page_remove] of the last mapping of a frame frees the frame:
    its count is 0, it is the head of the free list, linked to the former
    head, and the next [page_alloc] returns it. *)
Theorem page_remove_last_reference s G g :
  pde_of s pgdir va <> 0 ->
  pte_slot (pde_of s pgdir va) va <> 0 ->
  pte_of s pgdir va <> 0 ->
  G = Z.to_nat (PTE_ADDR (pte_of s pgdir va) / PGSIZE) ->
  pages s !! G = Some g -> pp_ref g = 1 ->
  PTE_ADDR (pde_of s pgdir va) <> PADDR pgdir ->
  physaddr G <> PADDR pgdir ->
  exists s1 s2,
    page_remove pgdir va s = Done tt s1 /\
    free_pages s1 = Some G /\
    pages s1 = <[G := mkPage (free_pages s) 0]> (pages s) /\
    page_alloc s1 = Done (Some G) s2 /\
    free_pages s2 = free_pages s.
Proof.
  intros Hpde Hs He HG Hg Hone Hne HGd. pose proof REF_LIMIT_big as HL.
  destruct (page_remove_state s G g Hpde Hs He HG Hg Hne HGd)
    as (sd & s1 & Hdec & Hrem & Hp & Hf & _).
  assert (Hlt : (G < length (pages s))%nat) by (eapply lookup_lt_Some; eauto).
  rewrite (page_decref_eq s G g Hg) in Hdec. injection Hdec as Hdec.
  rewrite Hone in Hdec. change (1 - 1) with 0 in Hdec.
  rewrite Z.mod_0_l in Hdec by lia. simpl in Hdec. subst sd.
  simpl in Hp, Hf.
  assert (H1 : pages s1 !! G = Some (mkPage (free_pages s) 0)).
  { rewrite Hp. apply list_lookup_insert_eq. exact Hlt. }
  exists s1. eexists. split; [exact Hrem|]. split; [exact Hf|].
  split; [exact Hp|].
  split; [apply (page_alloc_Some s1 G _ Hf H1)|reflexivity].
Qed.

End Remove.

Lemma page_remove_twice_witness :
  exists s1,
    page_remove (L := zion_layout) (kern_pgdir s_boot) va0 s_mapped
    = Done tt s1 /\
    ref_count s1 262
    = Some ((pp_ref (mkPage (Some 261%nat) 1) - 1)
            mod REF_LIMIT (Layout := zion_layout)) /\
    pte_of (L := zion_layout) s1 (kern_pgdir s_boot) va0 = 0 /\
    pde_of (L := zion_layout) s1 (kern_pgdir s_boot) va0
    = pde_of (L := zion_layout) s_mapped (kern_pgdir s_boot) va0 /\
    tlb_log s1 = tlb_log s_mapped ++ [va0] /\
    page_lookup (L := zion_layout) (kern_pgdir s_boot) va0 true s1
    = Done (None,
            Some (pte_slot (L := zion_layout)
                    (pde_of (L := zion_layout) s_mapped (kern_pgdir s_boot) va0)
                    va0)) s1 /\
    page_remove (L := zion_layout) (kern_pgdir s_boot) va0 s1 = Done tt s1.
Proof.
  apply (page_remove_twice (L := zion_layout) (kern_pgdir s_boot) va0).
  - vm_compute. reflexivity.
  - vm_compute. split; [discriminate|reflexivity].
  - vm_compute. discriminate.
  - vm_compute. discriminate.
  - vm_compute. discriminate.
  - vm_compute. reflexivity.
  - vm_compute. reflexivity.
  - vm_compute. discriminate.
  - vm_compute. discriminate.
Defined.

Lemma page_remove_last_reference_witness :
  exists s1 s2,
    page_remove (L := zion_layout) (kern_pgdir s_boot) va0 s_mapped
    = Done tt s1 /\
    free_pages s1 = Some 262%nat /\
    pages s1 = <[262%nat := mkPage (free_pages s_mapped) 0]> (pages s_mapped) /\
    page_alloc (L := zion_layout) s1 = Done (Some 262%nat) s2 /\
    free_pages s2 = free_pages s_mapped.
Proof.
  apply (page_remove_last_reference (L := zion_layout) (kern_pgdir s_boot) va0
           ltac:(vm_compute; reflexivity)
           ltac:(vm_compute; split; [discriminate|reflexivity])
           s_mapped 262 (mkPage (Some 261%nat) 1)).
  - vm_compute. discriminate.
  - vm_compute. discriminate.
  - vm_compute. discriminate.
  - vm_compute. reflexivity.
  - vm_compute. reflexivity.
  - reflexivity.
  - vm_compute. discriminate.
  - vm_compute. discriminate.
Defined.

(** ** page_map and page_unmap *)

Section Facade.
Context {L : Layout}.
Variables kd va : Z.
Hypothesis kd_aligned : aligned kd.
Hypothesis kd_range : 0 <= kd < WORD.

(** X12.  [page_map] at an address of the kernel directory whose table
    exists and whose entry is empty takes the head of the free list,
    hands it out zero-filled with one reference and maps it; [page_unmap]
    of the address then gives the frame back: the registry and the head
    of the free list are as before [page_map], the address has been
    invalidated once and nothing is mapped there.  The head of the list
    is neither frame 0, nor the frame of the directory, nor that of the
    table. *)
Theorem page_map_then_unmap s T q perm :
  kern_pgdir s = kd -> 0 <= perm < PGSIZE ->
  free_pages s = Some T -> pages s !! T = Some q -> pp_ref q = 0 ->
  physaddr T <> 0 -> Z.of_nat T * PGSIZE < WORD ->
  pde_of s kd va <> 0 -> pte_slot (pde_of s kd va) va <> 0 ->
  PTE_ADDR (pde_of s kd va) <> PADDR kd ->
  pte_of s kd va = 0 ->
  physaddr T <> PADDR kd -> physaddr T <> PTE_ADDR (pde_of s kd va) ->
  exists s1 s2,
    page_map va perm s = Done 0 s1 /\
    page_lookup kd va true s1
    = Done (Some T, Some (pte_slot (pde_of s kd va) va)) s1 /\
    ref_count s1 T = Some 1 /\ free_pages s1 = pp_next q /\
    (forall o, 0 <= o < PGSIZE -> mem s1 (physaddr T + o) = 0) /\
    page_unmap va s1 = Done tt s2 /\
    pages s2 = pages s /\ free_pages s2 = free_pages s /\
    tlb_log s2 = tlb_log s ++ [va] /\
    page_lookup kd va true s2
    = Done (None, Some (pte_slot (pde_of s kd va) va)) s2.
Proof.
  intros Hkd Hperm Hf Hq Hz HT0 Hsmall Hpde Hs Hne He HTd HTt.
  pose proof REF_LIMIT_big as HL.
  assert (Hlt : (T < length (pages s))%nat) by (eapply lookup_lt_Some; eauto).
  pose proof (PTX_range va) as Hx.
  destruct (entry_bits (physaddr T) perm (physaddr_aligned T)
              (physaddr_range T) Hperm) as (He0 & Hea & Hev).
  cbv zeta in He0, Hea, Hev.
  set (e := u32 (Z.lor (Z.lor (physaddr T) perm) PTE_P)) in *.
  (* page_map *)
  unfold page_map.
  rewrite (bind_eq _ _ _ _ _ (page_alloc_Some s T q Hf Hq)).
  set (sA := put _ _ _ _ s).
  rewrite (bind_eq _ _ _ _ _ (memset_eq _ _ _ _)). rewrite PADDR_data.
  set (sB := put _ _ _ _ sA).
  unfold bind at 1. unfold gets at 1.
  change (kern_pgdir sB) with (kern_pgdir s). rewrite Hkd.
  assert (HpdeB : pde_of sB kd va = pde_of s kd va).
  { unfold pde_of. subst sB sA. simpl.
    rewrite !(pde_after_fill kd va kd_aligned kd_range) by assumption.
    reflexivity. }
  assert (HeB : pte_of sB kd va = 0).
  { unfold pte_of. rewrite HpdeB. subst sB sA. simpl. unfold pte_pa.
    rewrite !filled_other; try (apply PTE_ADDR_aligned);
      try (apply PTE_ADDR_range); try exact He; try assumption;
      try (unfold PGSIZE; lia). }
  assert (HqB : pages sB !! T = Some q) by exact Hq.
  rewrite (bind_eq _ _ _ _ _
             (page_insert_empty_eq kd va sB T q perm
                ltac:(rewrite HpdeB; exact Hpde)
                ltac:(rewrite HpdeB; exact Hs) HeB HqB)).
  apply Z.eqb_neq in HT0. rewrite HT0. rewrite HpdeB. fold e.
  set (s1 := put _ _ _ _ sB). unfold ret.
  assert (Hpde1 : pde_of s1 kd va = pde_of s kd va).
  { subst s1. rewrite pde_of_put.
    rewrite (pde_after_table_store kd va kd_aligned kd_range) by assumption.
    exact HpdeB. }
  assert (He1 : pte_of s1 kd va = e).
  { unfold pte_of. rewrite Hpde1. subst s1. simpl. apply updated_eq. }
  assert (HG : Z.to_nat (PTE_ADDR (pte_of s1 kd va) / PGSIZE) = T).
  { rewrite He1, Hea. apply frame_of_physaddr. exact Hsmall. }
  assert (Hp1 : pages s1 !! T = Some (mkPage (pp_next q) 1)).
  { subst s1 sB sA. simpl. rewrite list_lookup_insert_eq by exact Hlt.
    rewrite Hz. rewrite (Z.mod_small (0 + 1)) by lia. reflexivity. }
  destruct (page_remove_state kd va kd_aligned kd_range s1 T _
              ltac:(rewrite Hpde1; exact Hpde)
              ltac:(rewrite Hpde1; exact Hs)
              ltac:(rewrite He1; exact He0)
              (eq_sym HG) Hp1
              ltac:(rewrite Hpde1; exact Hne) HTd)
    as (sd & s2 & Hdec & Hrem & Hp & Hfp & Ht & Hd2 & He2).
  rewrite (page_decref_eq s1 T _ Hp1) in Hdec. injection Hdec as Hdec.
  cbn [pp_ref pp_next] in Hdec. change (1 - 1) with 0 in Hdec.
  try rewrite Z.mod_0_l in Hdec by lia. simpl in Hdec. subst sd.
  simpl in Hp, Hfp.
  exists s1, s2.
  split; [reflexivity|]. split.
  { rewrite (page_lookup_eq kd va s1). rewrite HG, Hpde1, He1.
    pose proof Hpde as B1. pose proof Hs as B2. pose proof He0 as B3.
    apply Z.eqb_neq in B1, B2, B3. rewrite B1, B2, B3. reflexivity. }
  split; [unfold ref_count; rewrite Hp1; reflexivity|].
  split; [reflexivity|]. split.
  { intros o Ho. subst s1 sB sA. simpl. rewrite updated_ne.
    - unfold filled at 1. rewrite memset_same_frame.
      + reflexivity.
      + apply physaddr_aligned.
      + apply physaddr_range.
      + exact Ho.
    - unfold pte_pa. apply frame_sep.
      + apply physaddr_aligned.
      + apply PTE_ADDR_aligned.
      + exact Ho.
      + unfold PGSIZE. lia.
      + exact HTt. }
  (* page_unmap *)
  unfold page_unmap. unfold bind at 1. unfold gets at 1.
  change (kern_pgdir s1) with (kern_pgdir s). rewrite Hkd.
  split; [exact Hrem|]. split.
  { rewrite Hp. rewrite list_insert_insert_eq. apply list_insert_id.
    rewrite Hq. destruct q as [nx r]. simpl in Hz. subst r. reflexivity. }
  split; [rewrite Hfp; symmetry; exact Hf|]. split; [exact Ht|].
  rewrite (page_lookup_eq kd va s2). rewrite Hd2, He2, Hpde1.
  pose proof Hpde as B1. pose proof Hs as B2.
  apply Z.eqb_neq in B1, B2. rewrite B1, B2. reflexivity.
Qed.

End Facade.

Lemma page_map_then_unmap_witness :
  exists s1 s2,
    page_map (L := zion_layout) 0x00801000 PTE_W s_mapped = Done 0 s1 /\
    page_lookup (L := zion_layout) (kern_pgdir s_boot) 0x00801000 true s1
    = Done (Some 260%nat,
            Some (pte_slot (L := zion_layout)
                    (pde_of (L := zion_layout) s_mapped (kern_pgdir s_boot)
                       0x00801000) 0x00801000)) s1 /\
    ref_count s1 260 = Some 1 /\
    free_pages s1 = pp_next (mkPage (Some 159%nat) 0) /\
    (forall o, 0 <= o < PGSIZE -> mem s1 (physaddr 260 + o) = 0) /\
    page_unmap (L := zion_layout) 0x00801000 s1 = Done tt s2 /\
    pages s2 = pages s_mapped /\ free_pages s2 = free_pages s_mapped /\
    tlb_log s2 = tlb_log s_mapped ++ [0x00801000] /\
    page_lookup (L := zion_layout) (kern_pgdir s_boot) 0x00801000 true s2
    = Done (None,
            Some (pte_slot (L := zion_layout)
                    (pde_of (L := zion_layout) s_mapped (kern_pgdir s_boot)
                       0x00801000) 0x00801000)) s2.
Proof.
  apply (page_map_then_unmap (L := zion_layout) (kern_pgdir s_boot)
           0x00801000).
  - vm_compute. reflexivity.
  - vm_compute. split; [discriminate|reflexivity].
  - vm_compute. reflexivity.
  - vm_compute. split; [discriminate|reflexivity].
  - vm_compute. reflexivity.
  - vm_compute. reflexivity.
  - reflexivity.
  - vm_compute. discriminate.
  - vm_compute. reflexivity.
  - vm_compute. discriminate.
  - vm_compute. discriminate.
  - vm_compute. discriminate.
  - vm_compute. reflexivity.
  - vm_compute. discriminate.
  - vm_compute. discriminate.
Defined.

(** ** check_va2pa, GetPhysicalAddress and va2page *)

Lemma present_bit_set x : Z.land (u32 (Z.lor x PTE_P)) PTE_P <> 0.
Proof.
  intros E.
  assert (H : Z.testbit (Z.land (u32 (Z.lor x PTE_P)) PTE_P) 0 = false).
  { rewrite E. reflexivity. }
  rewrite Z.land_spec in H. unfold u32, WORD in H.
  rewrite Z.mod_pow2_bits_low in H by lia.
  rewrite Z.lor_spec in H. change (Z.testbit PTE_P 0) with true in H.
  rewrite orb_true_r in H. discriminate.
Qed.

Section Translate.
Context {L : Layout}.
Variables pgdir va : Z.
Hypothesis pgdir_aligned : aligned pgdir.
Hypothesis pgdir_range : 0 <= pgdir < WORD.

Lemma check_va2pa_eq s :
  check_va2pa pgdir va s =
  Done (if Z.land (pde_of s pgdir va) PTE_P =? 0 then u32 (Z.lnot 0)
        else if Z.land (pte_of s pgdir va) PTE_P =? 0 then u32 (Z.lnot 0)
        else PTE_ADDR (pte_of s pgdir va)) s.
Proof.
  unfold check_va2pa. unfold bind at 1. unfold load at 1.
  fold (pde_of s pgdir va).
  destruct (Z.land (pde_of s pgdir va) PTE_P =? 0); [reflexivity|].
  unfold bind, load. rewrite pte_slot_pa. fold (pte_of s pgdir va).
  destruct (Z.land (pte_of s pgdir va) PTE_P =? 0); reflexivity.
Qed.

Lemma write_tail_pde s pp perm r s1 :
  write_entry pgdir va pp perm s = Done r s1 ->
  PTE_ADDR (pde_of s pgdir va) <> PADDR pgdir ->
  pde_of s1 pgdir va = pde_of s pgdir va.
Proof.
  intros H Hne. rewrite write_entry_eq in H. injection H as _ <-.
  rewrite pde_of_put. apply pde_after_table_store; assumption.
Qed.

Lemma insert_tail_pde s pp perm r s1 :
  (incref pp ;;; write_entry pgdir va pp perm) s = Done r s1 ->
  PTE_ADDR (pde_of s pgdir va) <> PADDR pgdir ->
  pde_of s1 pgdir va = pde_of s pgdir va.
Proof.
  intros H Hne. destruct (pages s !! pp) as [q|] eqn:Eq.
  - rewrite (bind_eq _ _ _ _ _ (incref_put _ _ _ Eq)) in H.
    apply write_tail_pde in H; [|exact Hne]. exact H.
  - rewrite (bind_Undefined _ _ _ (incref_None _ _ Eq)) in H. discriminate.
Qed.

(** [page_insert] leaves a directory entry that exists as it is. *)
Lemma page_insert_pde_kept s pp perm r s1 :
  directory_private s pgdir va -> pde_of s pgdir va <> 0 ->
  page_insert pgdir pp va perm s = Done r s1 ->
  pde_of s1 pgdir va = pde_of s pgdir va.
Proof.
  intros (_ & _ & Hfree & Htab) Epde H. destruct (Htab Epde) as [Htd Hmd].
  unfold page_insert in H.
  rewrite (bind_eq _ _ _ _ _ (pgdir_walk_nocreate _ _ _)) in H.
  pose proof Epde as B. apply Z.eqb_neq in B. rewrite B in H.
  destruct (pte_slot (pde_of s pgdir va) va =? 0) eqn:Es.
  - simpl in H.
    rewrite (bind_eq _ _ _ _ _ (pgdir_walk_create_present pgdir va s Epde))
      in H.
    rewrite Es in H. injection H as _ <-. reflexivity.
  - apply Z.eqb_neq in Es. simpl in H. unfold bind at 1 in H.
    unfold load at 1 in H. rewrite pte_slot_pa in H.
    fold (pte_of s pgdir va) in H.
    destruct (PTE_ADDR (pte_of s pgdir va) =? physaddr pp) eqn:Esame.
    + simpl in H. unfold bind at 1 in H. unfold ret at 1 in H.
      apply write_tail_pde in H; assumption.
    + simpl in H.
      destruct (PTE_ADDR (pte_of s pgdir va) =? 0) eqn:Ez.
      * simpl in H. unfold bind at 1 in H. unfold bind at 1 in H.
        unfold ret at 1 in H.
        apply insert_tail_pde in H; assumption.
      * simpl in H. apply Z.eqb_neq in Ez.
        assert (He : pte_of s pgdir va <> 0).
        { intros E. rewrite E in Ez. apply Ez. reflexivity. }
        set (G := Z.to_nat (PTE_ADDR (pte_of s pgdir va) / PGSIZE)) in *.
        destruct (pages s !! G) as [g|] eqn:Eg.
        -- assert (HG : physaddr G <> PADDR pgdir).
           { subst G. rewrite physaddr_of_entry. exact Hmd. }
           destruct (page_remove_state pgdir va pgdir_aligned pgdir_range
                       s G g Epde Es He eq_refl Eg Htd HG)
             as (sd & sr & _ & Hrem & _ & _ & _ & Hpr & _).
           unfold bind at 1 in H. rewrite (bind_eq _ _ _ _ _ Hrem) in H.
           apply insert_tail_pde in H.
           ++ rewrite H. exact Hpr.
           ++ rewrite Hpr. exact Htd.
        -- unfold bind at 1 in H.
           rewrite (bind_Undefined _ _ _
                      (page_remove_out pgdir va s G Epde Es He eq_refl Eg))
             in H.
           discriminate.
Qed.

(** The directory entry that a successful [page_insert] leaves where
    there was none: the new table with the bits of the mapping. *)
Lemma page_insert_pde_new s pp perm s1 :
  directory_private s pgdir va -> 0 <= perm < PGSIZE ->
  pde_of s pgdir va = 0 ->
  page_insert pgdir pp va perm s = Done 0 s1 ->
  exists T, free_pages s = Some T /\
    pde_of s1 pgdir va = u32 (Z.lor (Z.lor (physaddr T) perm) PTE_P).
Proof.
  intros (_ & _ & Hfree & _) Hperm Epde H. pose proof E_NO_MEM_pos as HE.
  unfold page_insert in H.
  rewrite (bind_eq _ _ _ _ _ (pgdir_walk_nocreate _ _ _)) in H.
  rewrite Epde in H. simpl in H.
  destruct (free_pages s) as [T|] eqn:Ef.
  - exists T. split; [reflexivity|].
    destruct (pages s !! T) as [q|] eqn:Eq.
    + rewrite (bind_eq _ _ _ _ _
                 (pgdir_walk_create_new pgdir va s T q Epde Ef Eq)) in H.
      set (s' := put _ _ _ _ s) in H.
      destruct (pte_slot (new_pde T) va =? 0) eqn:Es.
      * injection H as H _. lia.
      * apply Z.eqb_neq in Es.
        rewrite (bind_eq _ _ _ _ _ (store_eq _ _ _)) in H.
        rewrite (rewritten_pde va T perm Hperm Es) in H.
        set (e := u32 (Z.lor (Z.lor (physaddr T) perm) PTE_P)) in *.
        set (s'' := put _ _ _ _ s') in H.
        destruct (entry_bits (physaddr T) perm (physaddr_aligned T)
                    (physaddr_range T) Hperm) as (_ & Hea & _).
        fold e in Hea.
        assert (Hpde'' : pde_of s'' pgdir va = e).
        { subst s''. rewrite pde_of_put. apply updated_eq. }
        apply insert_tail_pde in H.
        -- rewrite H. exact Hpde''.
        -- rewrite Hpde'', Hea. apply Hfree. reflexivity.
    + rewrite (bind_Undefined _ _ _
                 (pgdir_walk_create_out pgdir va s T Epde Ef Eq)) in H.
      discriminate.
  - rewrite (bind_eq _ _ _ _ _ (pgdir_walk_create_nomem pgdir va s Epde Ef))
      in H.
    simpl in H. injection H as H _. lia.
Qed.

(** X13.  The translation functions agree with [page_insert] and
    [page_remove]: after a successful [page_insert] of frame [F] at [va],
    [check_va2pa] and [GetPhysicalAddress] give the physical address of
    [F] and, in the kernel directory, [va2page] gives the descriptor of
    [F]; after [page_remove] they give [~0].  [check_va2pa] follows a
    directory entry only when its present bit is set, whereas
    [page_insert] follows every non-zero entry, hence the condition on
    the directory entry found by [page_insert]. *)
Theorem check_va2pa_after_insert s F perm s1 :
  directory_private s pgdir va -> 0 <= perm < PGSIZE ->
  physaddr F <> PADDR pgdir ->
  (F < length (pages s))%nat -> Z.of_nat F * PGSIZE < WORD ->
  pde_of s pgdir va = 0 \/ Z.land (pde_of s pgdir va) PTE_P <> 0 ->
  page_insert pgdir F va perm s = Done 0 s1 ->
  check_va2pa pgdir va s1 = Done (physaddr F) s1 /\
  GetPhysicalAddress pgdir va s1 = Done (physaddr F) s1 /\
  (kern_pgdir s1 = pgdir -> va2page va s1 = Done F s1) /\
  exists s2,
    page_remove pgdir va s1 = Done tt s2 /\
    check_va2pa pgdir va s2 = Done 0xFFFFFFFF s2.
Proof.
  intros Hd Hperm HF Hlt Hsmall Hp H.
  destruct (page_insert_post pgdir va pgdir_aligned pgdir_range
              s F perm 0 s1 Hd Hperm H) as [Hlen [[_ Hm]|[E _]]].
  2:{ pose proof E_NO_MEM_pos. lia. }
  destruct Hm as (Hpde & Hs & Hne & He).
  destruct (entry_bits (physaddr F) perm (physaddr_aligned F)
              (physaddr_range F) Hperm) as (He0 & Ha & _).
  cbv zeta in He0, Ha. rewrite <- He in He0, Ha.
  assert (HP : Z.land (pde_of s1 pgdir va) PTE_P <> 0).
  { destruct (Z.eq_dec (pde_of s pgdir va) 0) as [E0|E0].
    - destruct (page_insert_pde_new s F perm s1 Hd Hperm E0 H)
        as (T & _ & ->).
      apply present_bit_set.
    - rewrite (page_insert_pde_kept s F perm 0 s1 Hd E0 H).
      destruct Hp as [Hp|Hp]; [contradiction|exact Hp]. }
  assert (HPe : Z.land (pte_of s1 pgdir va) PTE_P <> 0).
  { rewrite He. apply present_bit_set. }
  assert (Hc : check_va2pa pgdir va s1 = Done (physaddr F) s1).
  { rewrite check_va2pa_eq. apply Z.eqb_neq in HP, HPe.
    rewrite HP, HPe, Ha. reflexivity. }
  assert (HG : Z.to_nat (PTE_ADDR (pte_of s1 pgdir va) / PGSIZE) = F).
  { rewrite Ha. apply frame_of_physaddr. exact Hsmall. }
  split; [exact Hc|]. split; [exact Hc|]. split.
  { intros Hk. unfold va2page, bind, gets. rewrite Hk, Hc. unfold ret.
    rewrite <- Ha, HG. reflexivity. }
  rewrite <- Hlen in Hlt.
  destruct (lookup_lt_is_Some_2 _ _ Hlt) as [g Hg].
  destruct (page_remove_state pgdir va pgdir_aligned pgdir_range
              s1 F g Hpde Hs He0 (eq_sym HG) Hg Hne HF)
    as (sd & s2 & _ & Hrem & _ & _ & _ & Hd2 & He2).
  exists s2. split; [exact Hrem|].
  rewrite check_va2pa_eq. rewrite He2. apply Z.eqb_neq in HP.
  rewrite Hd2, HP. reflexivity.
Qed.

End Translate.

Lemma check_va2pa_after_insert_witness :
  check_va2pa (L := zion_layout) (kern_pgdir s_boot) va0
    (run (page_insert (L := zion_layout) (kern_pgdir s_boot) 262 va0 PTE_W)
         s_alloc)
  = Done (physaddr 262)
      (run (page_insert (L := zion_layout) (kern_pgdir s_boot) 262 va0 PTE_W)
           s_alloc) /\
  GetPhysicalAddress (L := zion_layout) (kern_pgdir s_boot) va0
    (run (page_insert (L := zion_layout) (kern_pgdir s_boot) 262 va0 PTE_W)
         s_alloc)
  = Done (physaddr 262)
      (run (page_insert (L := zion_layout) (kern_pgdir s_boot) 262 va0 PTE_W)
           s_alloc) /\
  (kern_pgdir
     (run (page_insert (L := zion_layout) (kern_pgdir s_boot) 262 va0 PTE_W)
          s_alloc) = kern_pgdir s_boot ->
   va2page (L := zion_layout) va0
     (run (page_insert (L := zion_layout) (kern_pgdir s_boot) 262 va0 PTE_W)
          s_alloc)
   = Done 262%nat
       (run (page_insert (L := zion_layout) (kern_pgdir s_boot) 262 va0 PTE_W)
            s_alloc)) /\
  exists s2,
    page_remove (L := zion_layout) (kern_pgdir s_boot) va0
      (run (page_insert (L := zion_layout) (kern_pgdir s_boot) 262 va0 PTE_W)
           s_alloc) = Done tt s2 /\
    check_va2pa (L := zion_layout) (kern_pgdir s_boot) va0 s2
    = Done 0xFFFFFFFF s2.
Proof.
  apply (check_va2pa_after_insert (L := zion_layout) (kern_pgdir s_boot) va0
           ltac:(vm_compute; reflexivity)
           ltac:(vm_compute; split; [discriminate|reflexivity])
           s_alloc 262 PTE_W).
  - exact s_alloc_private.
  - vm_compute. split; [discriminate|reflexivity].
  - vm_compute. discriminate.
  - vm_compute. lia.
  - vm_compute. reflexivity.
  - left. vm_compute. reflexivity.
  - apply (run_value (page_insert (L := zion_layout) (kern_pgdir s_boot) 262
                        va0 PTE_W)).
    vm_compute. reflexivity.
Defined.

(** ** The bulk mapper on a range of any length *)

Section Segments.
Context {L : Layout}.
Variable pgdir : Z.
Hypothesis pgdir_aligned : aligned pgdir.
Hypothesis pgdir_range : 0 <= pgdir < WORD.

Lemma round_up_pages n :
  0 <= n -> n * PGSIZE <= WORD - PGSIZE ->
  round_up (n * PGSIZE) PGSIZE = n * PGSIZE.
Proof.
  intros H0 H1. unfold round_up.
  rewrite u32_id by (unfold WORD, PGSIZE in *; lia).
  unfold PGSIZE in *.
  replace (n * 4096 + 4096 - 1) with (4095 + n * 4096) by lia.
  rewrite Z.mod_add by lia. rewrite Z.mod_small by lia. lia.
Qed.

(** The loop of [page_map_segment] over present tables, from page [i]
    on: the entries of the pages before [i] are written already. *)
Lemma map_loop s la pa perm n :
  (n <= 1024)%nat ->
  aligned la -> 0 <= la -> la + Z.of_nat n * PGSIZE <= WORD ->
  0 <= pa -> pa + Z.of_nat n * PGSIZE <= WORD ->
  (forall j, (j < n)%nat ->
     table_present s pgdir (la + Z.of_nat j * PGSIZE)) ->
  forall c i sk,
    (i + c <= n)%nat ->
    pages sk = pages s /\ free_pages sk = free_pages s /\
    tlb_log sk = tlb_log s /\
    (forall j, (j < n)%nat ->
       pde_of sk pgdir (la + Z.of_nat j * PGSIZE)
       = pde_of s pgdir (la + Z.of_nat j * PGSIZE)) /\
    (forall j, (j < i)%nat ->
       mem sk (pte_pa (pde_of s pgdir (la + Z.of_nat j * PGSIZE))
                      (la + Z.of_nat j * PGSIZE))
       = u32 (Z.lor (Z.lor (pa + Z.of_nat j * PGSIZE) perm) PTE_P)) /\
    (forall a,
       (forall j, (j < i)%nat ->
          a <> pte_pa (pde_of s pgdir (la + Z.of_nat j * PGSIZE))
                      (la + Z.of_nat j * PGSIZE)) ->
       mem sk a = mem s a) ->
    exists s',
      for_range i c (fun k => map_one pgdir la pa perm (Z.of_nat k * PGSIZE)) sk
      = Done tt s' /\
      pages s' = pages s /\ free_pages s' = free_pages s /\
      tlb_log s' = tlb_log s /\
      (forall j, (j < n)%nat ->
         pde_of s' pgdir (la + Z.of_nat j * PGSIZE)
         = pde_of s pgdir (la + Z.of_nat j * PGSIZE)) /\
      (forall j, (j < i + c)%nat ->
         mem s' (pte_pa (pde_of s pgdir (la + Z.of_nat j * PGSIZE))
                        (la + Z.of_nat j * PGSIZE))
         = u32 (Z.lor (Z.lor (pa + Z.of_nat j * PGSIZE) perm) PTE_P)) /\
      (forall a,
         (forall j, (j < i + c)%nat ->
            a <> pte_pa (pde_of s pgdir (la + Z.of_nat j * PGSIZE))
                        (la + Z.of_nat j * PGSIZE)) ->
         mem s' a = mem s a).
Proof.
  intros Hn Hla Hla0 Hlan Hpa0 Hpan Htab.
  induction c as [|c IH]; intros i sk Hic (Hp & Hf & Ht & Hd & Hm & Ho).
  - exists sk. rewrite Nat.add_0_r. repeat split; assumption.
  - rewrite for_range_S.
    assert (Hu : u32 (la + Z.of_nat i * PGSIZE) = la + Z.of_nat i * PGSIZE).
    { apply u32_id. unfold WORD, PGSIZE in *. lia. }
    assert (Hup : u32 (pa + Z.of_nat i * PGSIZE) = pa + Z.of_nat i * PGSIZE).
    { apply u32_id. unfold WORD, PGSIZE in *. lia. }
    pose proof (Htab i ltac:(lia)) as Ti.
    assert (Tk : table_present sk pgdir (u32 (la + Z.of_nat i * PGSIZE))).
    { rewrite Hu. unfold table_present. rewrite (Hd i ltac:(lia)). exact Ti. }
    rewrite (bind_eq _ _ _ _ _
               (map_one_present pgdir sk la pa perm _ Tk)).
    rewrite Hu, Hup, (Hd i ltac:(lia)).
    destruct Ti as (_ & Tne & _).
    set (Ei := pte_pa (pde_of s pgdir (la + Z.of_nat i * PGSIZE))
                      (la + Z.of_nat i * PGSIZE)).
    set (s1 := put _ _ _ _ sk).
    destruct (IH (S i) s1 ltac:(lia)) as (s' & Hrun & R).
    + split; [exact Hp|]. split; [exact Hf|]. split; [exact Ht|].
      split; [|split].
      * intros j Hj. subst s1. rewrite pde_of_put. subst Ei.
        rewrite (pde_after_table_store pgdir _ pgdir_aligned pgdir_range)
          by exact Tne.
        apply (Hd j Hj).
      * intros j Hj. subst s1. simpl.
        destruct (decide (j = i)) as [->|Hne].
        -- apply updated_eq.
        -- rewrite updated_ne; [apply Hm; lia|].
           subst Ei. apply pte_pa_distinct; try assumption; lia.
      * intros a Ha. subst s1. simpl. rewrite updated_ne.
        -- apply Ho. intros j Hj. apply Ha. lia.
        -- apply Ha. lia.
    + exists s'. split; [exact Hrun|].
      replace (i + S c)%nat with (S i + c)%nat by lia. exact R.
Qed.

(** X14.  [page_map_segment] over a range of [n] pages, at most one
    table's worth, whose tables exist: the entry of every page holds the
    physical address of that page of the range with the requested bits,
    and always the present bit, also when [perm] is 0; no other word of
    memory changes, and the registry, the free list and the invalidation
    log are left alone. *)
Theorem page_map_segment_pages s la pa perm n :
  (n <= 1024)%nat ->
  aligned la -> 0 <= la -> la + Z.of_nat n * PGSIZE <= WORD ->
  aligned pa -> 0 <= pa -> pa + Z.of_nat n * PGSIZE <= WORD ->
  0 <= perm < PGSIZE ->
  (forall j, (j < n)%nat ->
     table_present s pgdir (la + Z.of_nat j * PGSIZE)) ->
  exists s',
    page_map_segment pgdir la (Z.of_nat n * PGSIZE) pa perm s = Done tt s' /\
    pages s' = pages s /\ free_pages s' = free_pages s /\
    tlb_log s' = tlb_log s /\
    (forall j, (j < n)%nat ->
       pte_of s' pgdir (la + Z.of_nat j * PGSIZE)
       = pa + Z.of_nat j * PGSIZE + Z.lor perm PTE_P /\
       Z.land (pte_of s' pgdir (la + Z.of_nat j * PGSIZE)) PTE_P <> 0) /\
    (forall a,
       (forall j, (j < n)%nat ->
          a <> pte_pa (pde_of s pgdir (la + Z.of_nat j * PGSIZE))
                      (la + Z.of_nat j * PGSIZE)) ->
       mem s' a = mem s a).
Proof.
  intros Hn Hla Hla0 Hlan Hpa Hpa0 Hpan Hperm Htab.
  unfold page_map_segment.
  rewrite round_up_pages by (unfold WORD, PGSIZE in *; lia).
  rewrite Z.div_mul by (unfold PGSIZE; lia). rewrite Nat2Z.id.
  pose proof Hla as Hb. unfold aligned in Hb. apply Z.eqb_eq in Hb.
  rewrite Hb. simpl assert. unfold bind at 1. unfold ret at 1.
  destruct (map_loop s la pa perm n Hn Hla Hla0 Hlan Hpa0 Hpan Htab n 0%nat s
              ltac:(lia))
    as (s' & Hrun & Hp & Hf & Ht & Hd & Hm & Ho).
  { repeat split; try reflexivity. intros j Hj. lia. }
  exists s'. split; [exact Hrun|]. split; [exact Hp|]. split; [exact Hf|].
  split; [exact Ht|]. split; [|exact Ho].
  intros j Hj. unfold pte_of. rewrite (Hd j Hj), (Hm j ltac:(lia)). split.
  - apply entry_bits; [|unfold WORD, PGSIZE in *; lia|exact Hperm].
    apply aligned_add; [exact Hpa|]. unfold aligned.
    apply Z.mod_mul. unfold PGSIZE. lia.
  - apply present_bit_set.
Qed.

(** X15.  [page_map_segment] does not report a lack of memory: when the
    first page of a range that is not empty has no table and the free
    list is empty, [pgdir_walk] returns [NULL] and the kernel stops on
    the assertion. *)
Theorem page_map_segment_out_of_memory s la size pa perm :
  la mod PGSIZE = 0 -> 0 <= la < WORD ->
  0 < size <= WORD - PGSIZE ->
  pde_of s pgdir la = 0 -> free_pages s = None ->
  page_map_segment pgdir la size pa perm s = Halt assert_pte_not_null.
Proof.
  intros Hla Hr Hsize Hpde Hf. unfold page_map_segment.
  apply Z.eqb_eq in Hla. rewrite Hla. simpl assert.
  unfold bind at 1. unfold ret at 1.
  assert (Hc : exists c, Z.to_nat (round_up size PGSIZE / PGSIZE) = S c).
  { assert (PGSIZE <= round_up size PGSIZE).
    { unfold round_up. rewrite u32_id by (unfold WORD, PGSIZE in *; lia).
      unfold PGSIZE in *.
      pose proof (Z.div_mod (size + 4096 - 1) 4096 ltac:(lia)) as D.
      assert (1 <= (size + 4096 - 1) / 4096).
      { apply Z.div_le_lower_bound; lia. }
      lia. }
    assert (1 <= round_up size PGSIZE / PGSIZE).
    { apply Z.div_le_lower_bound; unfold PGSIZE in *; lia. }
    exists (Z.to_nat (round_up size PGSIZE / PGSIZE) - 1)%nat. lia. }
  destruct Hc as [c ->]. rewrite for_range_S.
  change (Z.of_nat 0 * PGSIZE) with 0. unfold map_one.
  rewrite Z.add_0_r. rewrite (u32_id la Hr).
  unfold bind at 1. unfold bind at 1.
  rewrite (pgdir_walk_create_nomem pgdir la s Hpde Hf). reflexivity.
Qed.

End Segments.

Lemma page_map_segment_pages_witness :
  exists s',
    page_map_segment (L := zion_layout) (kern_pgdir s_boot) 0x00801000
                     (Z.of_nat 3 * PGSIZE) 0x5000 0 s_mapped = Done tt s' /\
    pages s' = pages s_mapped /\ free_pages s' = free_pages s_mapped /\
    tlb_log s' = tlb_log s_mapped /\
    (forall j, (j < 3)%nat ->
       pte_of (L := zion_layout) s' (kern_pgdir s_boot)
              (0x00801000 + Z.of_nat j * PGSIZE)
       = 0x5000 + Z.of_nat j * PGSIZE + Z.lor 0 PTE_P /\
       Z.land (pte_of (L := zion_layout) s' (kern_pgdir s_boot)
                      (0x00801000 + Z.of_nat j * PGSIZE)) PTE_P <> 0) /\
    (forall a,
       (forall j, (j < 3)%nat ->
          a <> pte_pa (pde_of (L := zion_layout) s_mapped (kern_pgdir s_boot)
                              (0x00801000 + Z.of_nat j * PGSIZE))
                      (0x00801000 + Z.of_nat j * PGSIZE)) ->
       mem s' a = mem s_mapped a).
Proof.
  apply (page_map_segment_pages (L := zion_layout) (kern_pgdir s_boot)
           ltac:(vm_compute; reflexivity)
           ltac:(vm_compute; split; [discriminate|reflexivity])
           s_mapped 0x00801000 0x5000 0 3).
  - lia.
  - vm_compute. reflexivity.
  - vm_compute. discriminate.
  - vm_compute. discriminate.
  - vm_compute. reflexivity.
  - vm_compute. discriminate.
  - vm_compute. discriminate.
  - vm_compute. split; [discriminate|reflexivity].
  - intros j Hj.
    assert (j = 0 \/ j = 1 \/ j = 2)%nat as [->|[->| ->]] by lia;
      (split; [|split]); vm_compute; discriminate.
Defined.

Lemma page_map_segment_out_of_memory_witness :
  page_map_segment (L := zion_layout) (kern_pgdir s_boot) va0 PGSIZE 0x5000
                   PTE_W s_exhausted
  = Halt assert_pte_not_null.
Proof.
  apply (page_map_segment_out_of_memory (L := zion_layout)).
  - vm_compute. reflexivity.
  - vm_compute. split; [discriminate|reflexivity].
  - vm_compute. split; [reflexivity|discriminate].
  - vm_compute. reflexivity.
  - vm_compute. reflexivity.
Defined.

(** ** page_init on a machine with extended memory *)

Section InitRun.
Context {L : Layout}.

(** Once [boot_alloc(0)] has answered [v] it answers [v] again, in every
    state with the same frame count whose frontier is the old one or
    [v]. *)
Lemma boot_alloc_oracle s v s1 :
  0 <= nextfree s < WORD ->
  boot_alloc 0 s = Done v s1 ->
  forall s', npages s' = npages s ->
    nextfree s' = nextfree s \/ nextfree s' = v ->
    boot_alloc 0 s' = Done v (set_nextfree v s').
Proof.
  intros Hr H s' Hn Hf. rewrite boot_alloc_eq in H. cbv zeta in H.
  change (round_up 0 PGSIZE) with 0 in H. rewrite Z.add_0_r in H.
  set (v0 := if nextfree s =? 0 then round_up kernel_end PGSIZE
             else nextfree s) in H.
  assert (Hv : 0 <= v0 < WORD).
  { subst v0. destruct (nextfree s =? 0); [|exact Hr].
    pose proof (round_up_PGSIZE_range kernel_end). unfold PGSIZE in *. lia. }
  rewrite (u32_id v0 Hv) in H.
  destruct (_ <? v0) eqn:Ec; [discriminate|].
  injection H as <- _.
  rewrite boot_alloc_eq. cbv zeta.
  change (round_up 0 PGSIZE) with 0. rewrite Z.add_0_r. rewrite Hn.
  assert (E : (if nextfree s' =? 0 then round_up kernel_end PGSIZE
               else nextfree s') = v0).
  { destruct Hf as [->| ->]; [reflexivity|].
    destruct (v0 =? 0) eqn:E0; [|reflexivity].
    apply Z.eqb_eq in E0. subst v0.
    destruct (nextfree s =? 0) eqn:E1; [reflexivity|].
    apply Z.eqb_neq in E1. contradiction. }
  rewrite E, (u32_id v0 Hv), Ec. reflexivity.
Qed.

Lemma reserve_frame_run n s f :
  init_shape n (pages s) f -> (160 <= f)%nat -> (S f < n)%nat ->
  exists s',
    reserve_frame f s = Done tt s' /\
    init_shape n (pages s') (S f) /\ free_pages s' = free_pages s /\
    npages s' = npages s /\ nextfree s' = nextfree s.
Proof.
  intros Hs Hf Hlt. pose proof Hs as (Hlen & _).
  destruct (registry_step_reserve f s) as [E|([] & s' & E & _ & R2 & R3)].
  - exfalso. unfold reserve_frame in E.
    destruct (lookup_lt_is_Some_2 (pages s) f ltac:(lia)) as [p Hp].
    destruct (lookup_lt_is_Some_2 (pages s) (S f) ltac:(lia)) as [q Hq].
    rewrite (bind_eq _ _ _ _ _ (read_Page_eq _ _ _ Hp)) in E.
    rewrite (bind_eq _ _ _ _ _ (set_next_eq _ _ _ _ Hq)) in E.
    rewrite (incref_eq f _ p) in E; [discriminate|].
    simpl. rewrite list_lookup_insert_ne by lia. exact Hp.
  - exists s'. split; [exact E|].
    destruct (reserve_frame_shape n s f s' Hs Hf E) as [H1 H2].
    split; [exact H1|]. split; [exact H2|]. split; assumption.
Qed.

Lemma reserve_loop_run n c : forall f s,
  init_shape n (pages s) f -> (160 <= f)%nat -> (f + c < n)%nat ->
  exists s',
    for_range f c reserve_frame s = Done tt s' /\
    init_shape n (pages s') (f + c) /\ free_pages s' = free_pages s /\
    npages s' = npages s /\ nextfree s' = nextfree s.
Proof.
  induction c as [|c IH]; intros f s Hs Hf Hlt.
  - exists s. rewrite Nat.add_0_r. split; [reflexivity|].
    split; [exact Hs|]. repeat split.
  - rewrite for_range_S.
    destruct (reserve_frame_run n s f Hs Hf ltac:(lia))
      as (s1 & E1 & Hs1 & F1 & N1 & X1).
    rewrite (bind_eq _ _ _ _ _ E1).
    destruct (IH (S f) s1 Hs1 ltac:(lia) ltac:(lia))
      as (s' & E & Hs' & F & N & X).
    exists s'. split; [exact E|].
    replace (f + S c)%nat with (S f + c)%nat by lia.
    split; [exact Hs'|]. split; [congruence|]. split; congruence.
Qed.

(** The loop over extended memory stops at the frontier, or where it
    starts when the frontier lies below. *)
Lemma reserve_boot_run n v np nf fuel : forall f s,
  init_shape n (pages s) f -> (160 <= f)%nat ->
  (forall s', npages s' = np -> nextfree s' = nf \/ nextfree s' = v ->
     boot_alloc 0 s' = Done v (set_nextfree v s')) ->
  npages s = np -> nextfree s = nf \/ nextfree s = v ->
  0 <= PADDR v / PGSIZE < Z.of_nat n ->
  (Z.to_nat (PADDR v / PGSIZE) - f < fuel)%nat ->
  exists s',
    reserve_boot fuel f s = Done tt s' /\
    init_shape n (pages s') (Nat.max f (Z.to_nat (PADDR v / PGSIZE))) /\
    free_pages s' = free_pages s.
Proof.
  induction fuel as [|fuel IH]; intros f s Hs Hf Ho Hn Hx Hfr Hfuel; [lia|].
  simpl reserve_boot.
  rewrite (bind_eq _ _ _ _ _ (Ho s Hn Hx)).
  destruct (Z.of_nat f <? PADDR v / PGSIZE) eqn:Ec.
  - apply Z.ltb_lt in Ec.
    destruct (reserve_frame_run n (set_nextfree v s) f Hs Hf ltac:(lia))
      as (s1 & E1 & Hs1 & F1 & N1 & X1).
    rewrite (bind_eq _ _ _ _ _ E1).
    destruct (IH (S f) s1 Hs1 ltac:(lia) Ho) as (s' & E & Hs' & F).
    + rewrite N1. exact Hn.
    + right. rewrite X1. reflexivity.
    + exact Hfr.
    + lia.
    + exists s'. split; [exact E|].
      replace (Nat.max f (Z.to_nat (PADDR v / PGSIZE)))
        with (Nat.max (S f) (Z.to_nat (PADDR v / PGSIZE))) by lia.
      split; [exact Hs'|]. rewrite F, F1. reflexivity.
  - apply Z.ltb_ge in Ec. exists (set_nextfree v s).
    split; [reflexivity|].
    replace (Nat.max f (Z.to_nat (PADDR v / PGSIZE))) with f by lia.
    split; [exact Hs|reflexivity].
Qed.

#[local] Opaque for_range reserve_boot.

(** X17.  [page_init] on a zero-filled registry of more than 256
    descriptors that reaches past the frontier of [boot_alloc] returns,
    and the free list it builds is exactly: the frames from the last one
    down to the frontier (or to frame 256 when the frontier lies below),
    then the frames 159 down to 1.  Every frame on the list has a count
    of 0; every other frame, that is frame 0, the I/O hole and the frames
    between 1 MB and the frontier, has a count of 1. *)
Theorem page_init_free_frames s0 v s0' :
  registry_zeroed s0 -> 0 <= nextfree s0 < WORD ->
  boot_alloc 0 s0 = Done v s0' ->
  256 < npages s0 -> PADDR v / PGSIZE < npages s0 ->
  exists s,
    page_init s0 = Done tt s /\
    free_list s
    = reverse (seq (Z.to_nat (Z.max 256 (PADDR v / PGSIZE)))
                   (Z.to_nat (npages s0)
                    - Z.to_nat (Z.max 256 (PADDR v / PGSIZE))))
      ++ reverse (seq 1 159) /\
    (forall F, on_free_list s F -> ref_count s F = Some 0) /\
    (forall F, (F < Z.to_nat (npages s0))%nat -> ~ on_free_list s F ->
       ref_count s F = Some 1).
Proof.
  intros Hz Hr Hb Hbig Hfront.
  pose proof (boot_alloc_oracle s0 v s0' Hr Hb) as Ho.
  assert (Hfr0 : 0 <= PADDR v / PGSIZE).
  { apply Z.div_pos; [|unfold PGSIZE; lia]. apply u32_range. }
  unfold page_init.
  unfold modify at 1. unfold bind at 1.
  unfold gets at 1. unfold bind at 1. simpl npages.
  set (n := Z.to_nat (npages s0)) in *.
  assert (Hlen0 : length (pages s0) = n).
  { rewrite Hz. apply length_replicate. }
  assert (E : Z.to_nat (npages s0 - 1) = (n - 1)%nat) by lia.
  rewrite E.
  destruct (push_loop_spec (n - 1) 1 (set_free_pages None s0))
    as (s1 & Hrun & Hl1 & Hf1 & Hout & Hin).
  { simpl. lia. }
  pose proof (registry_step_Done _ _ _ _
                (registry_step_for push_frame registry_step_push _ _) Hrun)
    as (_ & N1 & X1).
  rewrite (bind_eq _ _ _ _ _ Hrun). simpl in Hl1, Hout, Hin, Hf1, N1, X1.
  assert (Hp0 : pages s1 !! 0%nat = Some zero_Page).
  { rewrite Hout by lia. rewrite Hz. apply lookup_replicate_2. lia. }
  rewrite (bind_eq _ _ _ _ _ (read_Page_eq _ _ _ Hp0)). simpl pp_next.
  rewrite (bind_eq _ _ _ _ _
             (set_next_eq 1 None s1 _ (Hin 1%nat ltac:(lia)))).
  set (s2 := set_pages _ s1).
  assert (Hp0' : pages s2 !! 0%nat = Some zero_Page).
  { subst s2. simpl. rewrite list_lookup_insert_ne by lia. exact Hp0. }
  rewrite (bind_eq _ _ _ _ _ (incref_eq _ _ _ Hp0')).
  set (s3 := set_pages _ s2).
  assert (Hs3 : forall j, (1 <= j < n)%nat ->
            pages s3 !! j =
            Some (mkPage (if decide (j = 1%nat) then None
                          else Some (j - 1)%nat) 0)).
  { intros j Hj. subst s3 s2. simpl.
    rewrite list_lookup_insert_ne by lia.
    destruct (decide (j = 1%nat)) as [->|Hne].
    - rewrite list_lookup_insert_eq by lia. reflexivity.
    - rewrite list_lookup_insert_ne by lia. rewrite Hin by lia.
      destruct (decide (j = 1%nat)); [lia|reflexivity]. }
  assert (Hl3 : length (pages s3) = n).
  { subst s3 s2. simpl. rewrite !length_insert. lia. }
  assert (Hz3 : pages s3 !! 0%nat = Some (mkPage None 1)).
  { subst s3. simpl. rewrite one_ref. apply list_lookup_insert_eq.
    subst s2. simpl. rewrite length_insert. lia. }
  assert (Hf3 : free_pages s3 = Some (n - 1)%nat).
  { subst s3 s2. simpl. rewrite Hf1.
    destruct (n - 1)%nat as [|c] eqn:Ec; [lia|]. reflexivity. }
  change (Z.to_nat (IOPHYSMEM / PGSIZE)) with 160%nat.
  change (Z.to_nat (EXTPHYSMEM / PGSIZE - IOPHYSMEM / PGSIZE)) with 96%nat.
  change (Z.to_nat (EXTPHYSMEM / PGSIZE)) with 256%nat.
  assert (Hshape : init_shape n (pages s3) 160).
  { split; [exact Hl3|]. split; [exact Hz3|]. split; [|split; [|split]].
    - intros j Hj. apply Hs3. lia.
    - intros j Hj. lia.
    - rewrite Hs3 by lia. destruct (decide (160 = 1)%nat); [lia|reflexivity].
    - intros j Hj. rewrite Hs3 by lia.
      destruct (decide (j = 1%nat)); [lia|reflexivity]. }
  destruct (reserve_loop_run n 96 160 s3 Hshape ltac:(lia) ltac:(lia))
    as (s4 & E4 & Hs4 & F4 & N4 & X4).
  rewrite (bind_eq _ _ _ _ _ E4).
  unfold gets at 1. unfold bind at 1.
  change (160 + 96)%nat with 256%nat in Hs4.
  pose proof Hs4 as (Hl4 & _).
  destruct (reserve_boot_run n v (npages s0) (nextfree s0)
              (S (length (pages s4))) 256 s4 Hs4 ltac:(lia) Ho)
    as (s & Es & Hs & Fs).
  { rewrite N4. subst s3 s2. simpl. exact N1. }
  { left. rewrite X4. subst s3 s2. simpl. exact X1. }
  { lia. }
  { lia. }
  exists s. split; [exact Es|].
  replace (Nat.max 256 (Z.to_nat (PADDR v / PGSIZE)))
    with (Z.to_nat (Z.max 256 (PADDR v / PGSIZE))) in Hs by lia.
  set (f := Z.to_nat (Z.max 256 (PADDR v / PGSIZE))) in *.
  assert (Hfs : free_pages s = Some (n - 1)%nat) by congruence.
  assert (Hl : free_list_is (pages s) (free_pages s)
                 (reverse (seq f (n - f)) ++ reverse (seq 1 159))).
  { rewrite Hfs. apply (init_shape_free_list n _ f Hs). lia. }
  pose proof (free_list_is_walk s _ Hl) as El.
  split; [exact El|]. split.
  - intros F HF. unfold on_free_list in HF. rewrite El in HF.
    destruct Hl as (_ & _ & Hzero). destruct (Hzero F HF) as (p & Hp & Hpz).
    unfold ref_count. rewrite Hp. simpl. f_equal. exact Hpz.
  - intros F HF Hoff. unfold on_free_list in Hoff. rewrite El in Hoff.
    destruct Hs as (_ & Hzero & _ & Hres & _).
    assert (HF' : F = 0%nat \/ (160 <= F < f)%nat).
    { destruct (decide (F = 0%nat)) as [|H0]; [left; assumption|right].
      destruct (decide (160 <= F < f)%nat) as [|Hno]; [assumption|].
      exfalso. apply Hoff. apply elem_of_app.
      destruct (decide (F < 160)%nat).
      - right. apply elem_of_reverse, elem_of_seq. lia.
      - left. apply elem_of_reverse, elem_of_seq. lia. }
    unfold ref_count. destruct HF' as [->|HF'].
    + rewrite Hzero. reflexivity.
    + destruct (Hres F HF') as (p & Hp & Hp1). rewrite Hp. simpl.
      f_equal. exact Hp1.
Qed.

#[local] Transparent for_range reserve_boot.

End InitRun.

Lemma page_init_free_frames_witness :
  exists s,
    page_init (L := zion_layout) (boot_state 264) = Done tt s /\
    free_list s
    = reverse (seq (Z.to_nat (Z.max 256 (PADDR (L := zion_layout) 0xF0104000
                                         / PGSIZE)))
                   (Z.to_nat (npages (boot_state 264))
                    - Z.to_nat (Z.max 256 (PADDR (L := zion_layout) 0xF0104000
                                           / PGSIZE))))
      ++ reverse (seq 1 159) /\
    (forall F, on_free_list s F -> ref_count s F = Some 0) /\
    (forall F, (F < Z.to_nat (npages (boot_state 264)))%nat ->
       ~ on_free_list s F -> ref_count s F = Some 1).
Proof.
  apply (page_init_free_frames (L := zion_layout) (boot_state 264) 0xF0104000
           (run (boot_alloc (L := zion_layout) 0) (boot_state 264))).
  - reflexivity.
  - vm_compute. split; [discriminate|reflexivity].
  - apply (run_value (boot_alloc (L := zion_layout) 0)).
    vm_compute. reflexivity.
  - vm_compute. reflexivity.
  - vm_compute. reflexivity.
Defined.

(** ** alloc_free_page *)

Section AllocFree.
Context {L : Layout}.

Lemma alloc_free_page_eq s :
  freeptr s <> 0 ->
  alloc_free_page s
  = alloc_free_loop (S (Z.to_nat (2 ^ 20))) (free_pages s) s.
Proof.
  intros H. unfold alloc_free_page.
  unfold bind at 1. unfold gets at 1. unfold bind at 1. unfold gets at 1.
  apply Z.eqb_neq in H. rewrite H. unfold bind at 1. unfold ret at 1.
  replace (Z.to_nat (2 ^ 20 + 1)) with (S (Z.to_nat (2 ^ 20))); [reflexivity|].
  symmetry. apply (Z2Nat.inj_succ (2 ^ 20)). discriminate.
Qed.

(** One turn of the loop. *)
Lemma alloc_free_loop_unfold f pp1 :
  alloc_free_loop (S f) pp1 =
    (fp <- gets freeptr ;;
     if fp <=? 0xfffff000 then
       kd <- gets kern_pgdir ;;
       pa <- check_va2pa kd fp ;;
       let pp0 := Z.to_nat (pa / PGSIZE) in
       p0 <- read_Page pp0 ;;
       match pp_next p0 with
       | None =>
           modify (set_freeptr (u32 (fp + PGSIZE))) ;;;
           alloc_free_loop f pp1
       | Some _ =>
           if decide (pp1 = Some pp0) then
             incref pp0 ;;;
             set_next pp0 None ;;;
             modify (set_freeptr (u32 (fp + PGSIZE))) ;;;
             ret fp
           else
             ps <- gets pages ;;
             r <- find_prev (S (length ps)) pp1 pp0 ;;
             match r with
             | None => ret 0
             | Some prev =>
                 memset (data pp0) 0 PGSIZE ;;;
                 incref pp0 ;;;
                 p0' <- read_Page pp0 ;;
                 set_next prev (pp_next p0') ;;;
                 set_next pp0 None ;;;
                 modify (set_freeptr (u32 (fp + PGSIZE))) ;;;
                 ret fp
             end
       end
     else halt_with panic_kernel_space).
Proof. reflexivity. Qed.

(** One turn of the loop, once the frame of [freeptr] is known. *)
Lemma alloc_free_loop_step f pp1 s pa p0 :
  (freeptr s <=? 0xfffff000) = true ->
  check_va2pa (kern_pgdir s) (freeptr s) s = Done pa s ->
  pages s !! Z.to_nat (pa / PGSIZE) = Some p0 ->
  alloc_free_loop (S f) pp1 s =
  match pp_next p0 with
  | None =>
      (modify (set_freeptr (u32 (freeptr s + PGSIZE))) ;;;
       alloc_free_loop f pp1) s
  | Some _ =>
      if decide (pp1 = Some (Z.to_nat (pa / PGSIZE))) then
        (incref (Z.to_nat (pa / PGSIZE)) ;;;
         set_next (Z.to_nat (pa / PGSIZE)) None ;;;
         modify (set_freeptr (u32 (freeptr s + PGSIZE))) ;;;
         ret (freeptr s)) s
      else
        (ps <- gets pages ;;
         r <- find_prev (S (length ps)) pp1 (Z.to_nat (pa / PGSIZE)) ;;
         match r with
         | None => ret 0
         | Some prev =>
             memset (data (Z.to_nat (pa / PGSIZE))) 0 PGSIZE ;;;
             incref (Z.to_nat (pa / PGSIZE)) ;;;
             p0' <- read_Page (Z.to_nat (pa / PGSIZE)) ;;
             set_next prev (pp_next p0') ;;;
             set_next (Z.to_nat (pa / PGSIZE)) None ;;;
             modify (set_freeptr (u32 (freeptr s + PGSIZE))) ;;;
             ret (freeptr s)
         end) s
  end.
Proof.
  intros Hb Hc Hp. rewrite alloc_free_loop_unfold.
  unfold bind at 1. unfold gets at 1. rewrite Hb.
  unfold bind at 1. unfold gets at 1.
  rewrite (bind_eq _ _ _ _ _ Hc). cbv zeta.
  rewrite (bind_eq _ _ _ _ _ (read_Page_eq _ _ _ Hp)).
  destruct (pp_next p0); [|reflexivity].
  destruct (decide (pp1 = Some (Z.to_nat (pa / PGSIZE)))); reflexivity.
Qed.

(** X18.  [alloc_free_page] takes the descriptor of the frame that the
    kernel directory gives to [freeptr] without comparing the frame
    number with the size of the registry.  When that frame lies past the
    registry the read of its descriptor leaves the array; an address that
    is not mapped is such a case on every machine of less than 4 GB,
    since [check_va2pa] then answers [~0]. *)
Theorem alloc_free_page_past_registry s pa :
  freeptr s <> 0 -> freeptr s <= 0xfffff000 ->
  check_va2pa (kern_pgdir s) (freeptr s) s = Done pa s ->
  (length (pages s) <= Z.to_nat (pa / PGSIZE))%nat ->
  alloc_free_page s = Undefined.
Proof.
  intros Hne Hb Hc Hlen. rewrite (alloc_free_page_eq s Hne).
  generalize (Z.to_nat (2 ^ 20)). intros f.
  rewrite alloc_free_loop_unfold.
  unfold bind at 1. unfold gets at 1.
  apply Z.leb_le in Hb. rewrite Hb.
  unfold bind at 1. unfold gets at 1.
  rewrite (bind_eq _ _ _ _ _ Hc). cbv zeta.
  apply bind_Undefined. unfold read_Page.
  rewrite lookup_ge_None_2 by exact Hlen. reflexivity.
Qed.

(** X19.  When the frame of [freeptr] is the head of the free list,
    [alloc_free_page] hands it out with one reference and a cleared
    link, yet leaves [free_pages] pointing at it.  The frame is then both
    in use and the whole of the free list: the frames that followed it
    are lost, and the next [page_alloc] hands the same frame out again
    and empties the list. *)
Theorem alloc_free_page_head s pa p0 :
  freeptr s <> 0 -> freeptr s <= 0xfffff000 ->
  check_va2pa (kern_pgdir s) (freeptr s) s = Done pa s ->
  free_pages s = Some (Z.to_nat (pa / PGSIZE)) ->
  pages s !! Z.to_nat (pa / PGSIZE) = Some p0 ->
  pp_next p0 <> None ->
  exists s' s'',
    alloc_free_page s = Done (freeptr s) s' /\
    free_pages s' = Some (Z.to_nat (pa / PGSIZE)) /\
    pages s' = <[Z.to_nat (pa / PGSIZE) :=
                   mkPage None ((pp_ref p0 + 1) mod REF_LIMIT)]> (pages s) /\
    freeptr s' = u32 (freeptr s + PGSIZE) /\
    free_list s' = [Z.to_nat (pa / PGSIZE)] /\
    page_alloc s' = Done (Some (Z.to_nat (pa / PGSIZE))) s'' /\
    free_pages s'' = None.
Proof.
  intros Hne Hb Hc Hf Hp Hn. rewrite (alloc_free_page_eq s Hne).
  generalize (Z.to_nat (2 ^ 20)). intros f.
  apply Z.leb_le in Hb.
  rewrite (alloc_free_loop_step _ _ s pa p0 Hb Hc Hp).
  set (pp0 := Z.to_nat (pa / PGSIZE)) in *.
  destruct (pp_next p0) as [nx|] eqn:En; [|contradiction].
  destruct (decide (free_pages s = Some pp0)) as [_|Hno]; [|contradiction].
  assert (Hlt : (pp0 < length (pages s))%nat) by (eapply lookup_lt_Some; eauto).
  rewrite (bind_eq _ _ _ _ _ (incref_eq _ _ _ Hp)).
  set (s1 := set_pages _ s).
  assert (H1 : pages s1 !! pp0
               = Some (mkPage (pp_next p0) ((pp_ref p0 + 1) mod REF_LIMIT))).
  { subst s1. simpl. apply list_lookup_insert_eq. exact Hlt. }
  rewrite (bind_eq _ _ _ _ _ (set_next_eq _ None _ _ H1)).
  unfold bind, modify, ret. cbn [pp_ref].
  set (s' := set_freeptr _ _).
  assert (Hp' : pages s' !! pp0
                = Some (mkPage None ((pp_ref p0 + 1) mod REF_LIMIT))).
  { subst s' s1. simpl. apply list_lookup_insert_eq.
    rewrite length_insert. exact Hlt. }
  assert (Hf' : free_pages s' = Some pp0) by exact Hf.
  exists s'. eexists. split; [reflexivity|]. split; [exact Hf'|].
  split; [subst s' s1; simpl; apply list_insert_insert_eq|].
  split; [reflexivity|]. split.
  - unfold free_list. rewrite Hf'. cbn [walk_free]. rewrite Hp'.
    cbn [pp_next]. destruct (length (pages s')); reflexivity.
  - split; [apply (page_alloc_Some s' pp0 _ Hf' Hp')|reflexivity].
Qed.

End AllocFree.

Section Unlink.
Context {L : Layout}.

Lemma chain_head ps h x l : chain ps h (x :: l) -> h = Some x.
Proof. inversion 1. reflexivity. Qed.

Lemma chain_split ps x rest : forall l1 h,
  chain ps h (l1 ++ x :: rest) ->
  exists p, ps !! x = Some p /\ chain ps (pp_next p) rest.
Proof.
  induction l1 as [|y l1 IH]; intros h H; simpl in H.
  - inversion H as [|i p l Hp Hc]; subst. exists p. split; assumption.
  - inversion H as [|i p l Hp Hc]; subst. apply (IH _ Hc).
Qed.

(** The walk of [alloc_free_page] along the free list finds the
    descriptor that is linked to [pp0]. *)
Lemma find_prev_chain s pp0 prev rest : forall l1 h fuel,
  chain (pages s) (Some h) (l1 ++ prev :: pp0 :: rest) ->
  pp0 ∉ l1 ++ [prev] ->
  (length l1 < fuel)%nat ->
  find_prev fuel (Some h) pp0 s = Done (Some prev) s.
Proof.
  induction l1 as [|x l1 IH]; intros h fuel Hc Hn Hf;
    (destruct fuel as [|fuel]; [simpl in Hf; lia|]); simpl in Hc.
  - inversion Hc as [|i p l Hp Hc']; subst.
    apply chain_head in Hc'. simpl.
    rewrite (bind_eq _ _ _ _ _ (read_Page_eq _ _ _ Hp)).
    destruct (decide (pp_next p = Some pp0)); [reflexivity|contradiction].
  - inversion Hc as [|i p l Hp Hc']; subst.
    assert (Hy : exists y, pp_next p = Some y /\ y ∈ l1 ++ [prev]).
    { destruct l1 as [|y l1]; simpl in Hc'.
      - exists prev. split; [apply (chain_head _ _ _ _ Hc')|].
        apply list_elem_of_singleton. reflexivity.
      - exists y. split; [apply (chain_head _ _ _ _ Hc')|].
        apply elem_of_cons. left. reflexivity. }
    destruct Hy as (y & Ey & Hy).
    assert (Hne : pp_next p <> Some pp0).
    { rewrite Ey. intros E. injection E as ->. apply Hn.
      simpl. apply elem_of_cons. right. exact Hy. }
    simpl. rewrite (bind_eq _ _ _ _ _ (read_Page_eq _ _ _ Hp)).
    destruct (decide (pp_next p = Some pp0)); [contradiction|].
    rewrite Ey. rewrite Ey in Hc'. apply (IH y fuel Hc').
    + intros Hin. apply Hn. simpl. apply elem_of_cons. right. exact Hin.
    + simpl in Hf. lia.
Qed.

(** Linking [prev] past [pp0] takes [pp0], and nothing else, out of the
    list. *)
Lemma chain_unlink ps pp0 prev rest pv p0 a b : forall l1 h,
  chain ps h (l1 ++ prev :: pp0 :: rest) ->
  NoDup (l1 ++ prev :: pp0 :: rest) ->
  ps !! prev = Some pv -> ps !! pp0 = Some p0 ->
  chain (<[pp0 := a]> (<[prev := mkPage (pp_next p0) (pp_ref pv)]>
                         (<[pp0 := b]> ps)))
        h (l1 ++ prev :: rest).
Proof.
  induction l1 as [|x l1 IH]; intros h Hc Hnd Hpv Hp0; simpl in *.
  - inversion Hc as [|i p l Hp Hc']; subst.
    apply NoDup_cons in Hnd as [Hn1 Hnd].
    apply NoDup_cons in Hnd as [Hn2 Hnd].
    apply not_elem_of_cons in Hn1 as [Hne Hn1].
    inversion Hc' as [|i p' l Hp' Hc'']; subst.
    assert (p' = p0) by congruence. subst p'.
    apply chain_cons with (mkPage (pp_next p0) (pp_ref pv)).
    + rewrite list_lookup_insert_ne by congruence.
      apply list_lookup_insert_eq. rewrite length_insert.
      eapply lookup_lt_Some. exact Hpv.
    + cbn [pp_next]. repeat apply chain_insert_off; assumption.
  - inversion Hc as [|i p l Hp Hc']; subst.
    apply NoDup_cons in Hnd as [Hn1 Hnd].
    assert (x <> prev /\ x <> pp0) as [Hx1 Hx2].
    { split; intros ->; apply Hn1; apply elem_of_app; right.
      - apply elem_of_cons. left. reflexivity.
      - apply elem_of_cons. right. apply elem_of_cons. left. reflexivity. }
    apply chain_cons with p.
    + rewrite !list_lookup_insert_ne by congruence. exact Hp.
    + apply IH; assumption.
Qed.

Lemma NoDup_unlink (l1 : list nat) prev pp0 rest :
  NoDup (l1 ++ prev :: pp0 :: rest) ->
  NoDup (l1 ++ prev :: rest) /\ pp0 ∉ l1 ++ prev :: rest.
Proof.
  intros H. apply NoDup_app in H as (H1 & H2 & H3).
  apply NoDup_cons in H3 as [H3 H4].
  apply NoDup_cons in H4 as [H4 H5].
  apply not_elem_of_cons in H3 as [H3a H3b].
  split.
  - apply NoDup_app. split; [exact H1|]. split.
    + intros x Hx Hx'. apply (H2 x Hx).
      apply elem_of_cons in Hx' as [->|Hx'].
      * apply elem_of_cons. left. reflexivity.
      * apply elem_of_cons. right. apply elem_of_cons. right. exact Hx'.
    + apply NoDup_cons. split; assumption.
  - intros Hin. apply elem_of_app in Hin as [Hin|Hin].
    + apply (H2 pp0 Hin). apply elem_of_cons. right.
      apply elem_of_cons. left. reflexivity.
    + apply elem_of_cons in Hin as [->|Hin]; [congruence|contradiction].
Qed.

(** X20.  When the frame of [freeptr] lies inside the free list, with a
    frame before it and a frame after it, [alloc_free_page] takes it out
    of the list and nothing else: the list keeps its other frames in
    their order and stays well formed, and the frame is handed out
    zero-filled, with one reference and a cleared link, at the address
    [freeptr], which moves on by one page. *)
Theorem alloc_free_page_unlinks s pa l1 prev nx l2 :
  freeptr s <> 0 -> freeptr s <= 0xfffff000 ->
  check_va2pa (kern_pgdir s) (freeptr s) s = Done pa s ->
  free_list_is (pages s) (free_pages s)
               (l1 ++ prev :: Z.to_nat (pa / PGSIZE) :: nx :: l2) ->
  exists s',
    alloc_free_page s = Done (freeptr s) s' /\
    free_list_is (pages s') (free_pages s') (l1 ++ prev :: nx :: l2) /\
    free_list s' = l1 ++ prev :: nx :: l2 /\
    pages s' !! Z.to_nat (pa / PGSIZE) = Some (mkPage None 1) /\
    freeptr s' = u32 (freeptr s + PGSIZE) /\
    (forall o, 0 <= o < PGSIZE ->
       mem s' (physaddr (Z.to_nat (pa / PGSIZE)) + o) = 0).
Proof.
  intros Hne Hb Hc (Hch & Hnd & Hz).
  set (pp0 := Z.to_nat (pa / PGSIZE)) in *.
  destruct (chain_split (pages s) prev (pp0 :: nx :: l2) l1 _ Hch)
    as (pv & Hpv & Hc1).
  inversion Hc1 as [|i p0 l Hp0 Hc2]; subst.
  pose proof (chain_head _ _ _ _ Hc2) as Enx.
  assert (Hz0 : pp_ref p0 = 0).
  { destruct (Hz pp0) as (p & Hp & Hr); [|congruence].
    apply elem_of_app. right. apply elem_of_cons. right.
    apply elem_of_cons. left. reflexivity. }
  assert (Hzv : pp_ref pv = 0).
  { destruct (Hz prev) as (p & Hp & Hr); [|congruence].
    apply elem_of_app. right. apply elem_of_cons. left. reflexivity. }
  destruct (NoDup_unlink l1 prev pp0 (nx :: l2) Hnd) as [Hnd' Hoff].
  assert (Hh : exists h, free_pages s = Some h /\ h ∈ l1 ++ [prev]).
  { destruct l1 as [|h l1]; simpl in Hch.
    - exists prev. split; [apply (chain_head _ _ _ _ Hch)|].
      apply list_elem_of_singleton. reflexivity.
    - exists h. split; [apply (chain_head _ _ _ _ Hch)|].
      apply elem_of_cons. left. reflexivity. }
  destruct Hh as (h & Efp & Hh).
  assert (Hoff1 : pp0 ∉ l1 ++ [prev]).
  { intros Hin. apply Hoff. apply elem_of_app in Hin as [Hin|Hin].
    - apply elem_of_app. left. exact Hin.
    - apply list_elem_of_singleton in Hin. subst.
      apply elem_of_app. right. apply elem_of_cons. left. reflexivity. }
  assert (Hhne : free_pages s <> Some pp0).
  { rewrite Efp. intros E. injection E as ->. contradiction. }
  assert (Hlen : (length l1 < S (length (pages s)))%nat).
  { assert (Hle : (length (l1 ++ prev :: pp0 :: nx :: l2)
                   <= length (pages s))%nat).
    { apply NoDup_bounded_length; [exact Hnd|].
      intros x Hx. apply (chain_in_range _ _ _ _ Hch Hx). }
    rewrite length_app in Hle. lia. }
  assert (Hlt0 : (pp0 < length (pages s))%nat) by (eapply lookup_lt_Some; eauto).
  assert (Hltv : (prev < length (pages s))%nat) by (eapply lookup_lt_Some; eauto).
  assert (Hpne : prev <> pp0).
  { intros ->. apply Hoff1. apply elem_of_app. right.
    apply list_elem_of_singleton. reflexivity. }
  rewrite (alloc_free_page_eq s Hne).
  generalize (Z.to_nat (2 ^ 20)). intros f.
  apply Z.leb_le in Hb.
  rewrite (alloc_free_loop_step _ _ s pa p0 Hb Hc Hp0).
  fold pp0. rewrite Enx.
  destruct (decide (free_pages s = Some pp0)) as [|_]; [contradiction|].
  unfold bind at 1. unfold gets at 1.
  rewrite Efp in Hch |- *.
  rewrite (bind_eq _ _ _ _ _
             (find_prev_chain s pp0 prev (nx :: l2) l1 h _ Hch Hoff1 Hlen)).
  rewrite (bind_eq _ _ _ _ _ (memset_eq _ _ _ _)). rewrite PADDR_data.
  set (sA := put _ _ _ _ s).
  assert (HpA : pages sA !! pp0 = Some p0) by exact Hp0.
  rewrite (bind_eq _ _ _ _ _ (incref_eq _ _ _ HpA)).
  set (sB := set_pages _ sA).
  assert (HpB : pages sB !! pp0
                = Some (mkPage (pp_next p0) ((pp_ref p0 + 1) mod REF_LIMIT))).
  { subst sB sA. simpl. apply list_lookup_insert_eq. exact Hlt0. }
  rewrite (bind_eq _ _ _ _ _ (read_Page_eq _ _ _ HpB)). cbn [pp_next].
  assert (HvB : pages sB !! prev = Some pv).
  { subst sB sA. simpl. rewrite list_lookup_insert_ne by congruence.
    exact Hpv. }
  rewrite (bind_eq _ _ _ _ _ (set_next_eq _ (pp_next p0) _ _ HvB)).
  set (sC := set_pages _ sB).
  assert (HpC : pages sC !! pp0
                = Some (mkPage (pp_next p0) ((pp_ref p0 + 1) mod REF_LIMIT))).
  { subst sC. simpl. rewrite list_lookup_insert_ne by congruence. exact HpB. }
  rewrite (bind_eq _ _ _ _ _ (set_next_eq _ None _ _ HpC)). cbn [pp_ref].
  unfold bind, modify, ret.
  set (s' := set_freeptr _ _).
  assert (Hps' : pages s'
                 = <[pp0 := mkPage None ((pp_ref p0 + 1) mod REF_LIMIT)]>
                     (<[prev := mkPage (pp_next p0) (pp_ref pv)]>
                        (<[pp0 := mkPage (pp_next p0)
                                    ((pp_ref p0 + 1) mod REF_LIMIT)]>
                           (pages s)))) by reflexivity.
  assert (Hfl : free_list_is (pages s') (free_pages s')
                  (l1 ++ prev :: nx :: l2)).
  { change (free_pages s') with (free_pages s). rewrite Efp, Hps'.
    split; [|split].
    - apply (chain_unlink (pages s) pp0 prev (nx :: l2) pv p0 _ _ l1
               (Some h) Hch Hnd Hpv Hp0).
    - exact Hnd'.
    - intros F HF.
      assert (HF0 : F <> pp0) by (intros ->; contradiction).
      rewrite list_lookup_insert_ne by congruence.
      destruct (decide (F = prev)) as [->|HFv].
      + eexists. split.
        * apply list_lookup_insert_eq. rewrite length_insert. exact Hltv.
        * exact Hzv.
      + rewrite !list_lookup_insert_ne by congruence.
        apply Hz. apply elem_of_app in HF as [HF|HF].
        * apply elem_of_app. left. exact HF.
        * apply elem_of_app. right.
          apply elem_of_cons in HF as [->|HF]; [contradiction|].
          apply elem_of_cons. right. apply elem_of_cons. right. exact HF. }
  exists s'. split; [reflexivity|]. split; [exact Hfl|].
  split; [apply free_list_is_walk; exact Hfl|]. split.
  { rewrite Hps'. rewrite list_lookup_insert_eq.
    - rewrite Hz0, one_ref. reflexivity.
    - rewrite !length_insert. exact Hlt0. }
  split; [reflexivity|].
  intros o Ho. change (mem s') with (mem sA). subst sA. simpl.
  unfold filled. rewrite memset_same_frame.
  - reflexivity.
  - apply physaddr_aligned.
  - apply physaddr_range.
  - exact Ho.
Qed.

End Unlink.

(** A registry whose walk from the head meets descriptors of count 0
    only, and none twice, has a well-formed free list. *)
Lemma walk_free_is_chain ps : forall fuel h l,
  walk_free fuel ps h = l -> (length l < fuel)%nat ->
  (forall F, F ∈ l -> is_Some (ps !! F)) ->
  chain ps h l.
Proof.
  induction fuel as [|fuel IH]; intros h l H Hlen Hall; [lia|].
  simpl in H. destruct h as [i|].
  - destruct (ps !! i) as [p|] eqn:E.
    + subst l. apply chain_cons with p; [exact E|].
      apply IH; [reflexivity|simpl in Hlen; lia|].
      intros F HF. apply Hall. apply elem_of_cons. right. exact HF.
    + subst l. exfalso.
      destruct (Hall i) as [p Hp]; [|congruence].
      apply elem_of_cons. left. reflexivity.
  - subst l. constructor.
Qed.

Lemma free_list_is_check ps fp l :
  walk_free (S (length ps)) ps fp = l ->
  forallb (fun F => match ps !! F with
                    | Some p => pp_ref p =? 0
                    | None => false
                    end) l = true ->
  NoDup l ->
  free_list_is ps fp l.
Proof.
  intros Hw Hall Hnd. rewrite forallb_forall in Hall.
  assert (Hz : forall F, F ∈ l -> exists p, ps !! F = Some p /\ pp_ref p = 0).
  { intros F HF. apply list_elem_of_In in HF. specialize (Hall F HF).
    destruct (ps !! F) as [p|]; [|discriminate].
    exists p. split; [reflexivity|]. apply Z.eqb_eq. exact Hall. }
  split; [|split; assumption].
  apply (walk_free_is_chain ps (S (length ps)) fp l Hw).
  - assert (length l <= length ps)%nat; [|lia].
    apply NoDup_bounded_length; [exact Hnd|].
    intros F HF. destruct (Hz F HF) as (p & Hp & _).
    eapply lookup_lt_Some. exact Hp.
  - intros F HF. destruct (Hz F HF) as (p & Hp & _). exists p. exact Hp.
Qed.

Lemma check_va2pa_value {L : Layout} pgdir va s pa :
  observe (fun _ => tt) (check_va2pa pgdir va s) = Some (pa, tt) ->
  check_va2pa pgdir va s = Done pa s.
Proof.
  rewrite check_va2pa_eq. simpl. intros H. injection H as <-. reflexivity.
Qed.

Lemma alloc_free_page_past_registry_witness :
  alloc_free_page (L := zion_layout) (set_freeptr 0xF0104000 s_boot)
  = Undefined.
Proof.
  apply (alloc_free_page_past_registry (L := zion_layout)
           (set_freeptr 0xF0104000 s_boot) 0xFFFFFFFF).
  - vm_compute. discriminate.
  - vm_compute. discriminate.
  - apply check_va2pa_value. vm_compute. reflexivity.
  - replace (length (pages (set_freeptr 0xF0104000 s_boot))) with 264%nat
      by (vm_compute; reflexivity).
    apply Nat2Z.inj_le. rewrite Z2Nat.id by (vm_compute; discriminate).
    vm_compute. discriminate.
Defined.

Lemma alloc_free_page_head_witness :
  exists s' s'',
    alloc_free_page (L := zion_layout) (set_freeptr 0xF0104000 s_head)
    = Done (freeptr (set_freeptr 0xF0104000 s_head)) s' /\
    free_pages s' = Some (Z.to_nat (0x104000 / PGSIZE)) /\
    pages s' = <[Z.to_nat (0x104000 / PGSIZE) :=
                   mkPage None ((pp_ref (mkPage (Some 159%nat) 0) + 1)
                                mod REF_LIMIT (Layout := zion_layout))]>
                 (pages (set_freeptr 0xF0104000 s_head)) /\
    freeptr s' = u32 (freeptr (set_freeptr 0xF0104000 s_head) + PGSIZE) /\
    free_list s' = [Z.to_nat (0x104000 / PGSIZE)] /\
    page_alloc (L := zion_layout) s'
    = Done (Some (Z.to_nat (0x104000 / PGSIZE))) s'' /\
    free_pages s'' = None.
Proof.
  apply (alloc_free_page_head (L := zion_layout)
           (set_freeptr 0xF0104000 s_head) 0x104000 (mkPage (Some 159%nat) 0)).
  - vm_compute. discriminate.
  - vm_compute. discriminate.
  - apply check_va2pa_value. vm_compute. reflexivity.
  - vm_compute. reflexivity.
  - vm_compute. reflexivity.
  - discriminate.
Defined.

Lemma alloc_free_page_unlinks_witness :
  exists s',
    alloc_free_page (L := zion_layout) s_linear
    = Done (freeptr s_linear) s' /\
    free_list_is (pages s') (free_pages s')
                 ([] ++ 261%nat :: 159%nat :: reverse (seq 1 158)) /\
    free_list s' = [] ++ 261%nat :: 159%nat :: reverse (seq 1 158) /\
    pages s' !! Z.to_nat (0x104000 / PGSIZE) = Some (mkPage None 1) /\
    freeptr s' = u32 (freeptr s_linear + PGSIZE) /\
    (forall o, 0 <= o < PGSIZE ->
       mem s' (physaddr (Z.to_nat (0x104000 / PGSIZE)) + o) = 0).
Proof.
  apply (alloc_free_page_unlinks (L := zion_layout) s_linear 0x104000
           [] 261 159 (reverse (seq 1 158))).
  - vm_compute. discriminate.
  - vm_compute. discriminate.
  - apply check_va2pa_value. vm_compute. reflexivity.
  - apply free_list_is_check.
    + vm_compute. reflexivity.
    + vm_compute. reflexivity.
    + apply (@bool_decide_unpack _ (NoDup_dec _)). vm_compute. exact I.
Defined.

Lemma s_replace_private :
  directory_private (L := zion_layout)
    (run (page_alloc (L := zion_layout)) s_mapped) (kern_pgdir s_boot) va0.
Proof.
  split; [vm_compute; reflexivity|].
  split; [vm_compute; split; [discriminate|reflexivity]|].
  split.
  - intros T HT. vm_compute in HT. injection HT as <-.
    vm_compute. discriminate.
  - intros _. split; vm_compute; discriminate.
Qed.

Lemma page_insert_replaces_witness :
  exists s1 pte,
    page_insert (L := zion_layout) (kern_pgdir s_boot) 260 va0 PTE_W
      (run (page_alloc (L := zion_layout)) s_mapped) = Done 0 s1 /\
    page_lookup (L := zion_layout) (kern_pgdir s_boot) va0 true s1
    = Done (Some 260%nat, Some pte) s1 /\
    ref_count s1 262 = Some (pp_ref (mkPage (Some 261%nat) 1) - 1) /\
    ref_count s1 260 = Some (pp_ref (mkPage (Some 159%nat) 0) + 1) /\
    tlb_log s1
    = tlb_log (run (page_alloc (L := zion_layout)) s_mapped) ++ [va0].
Proof.
  apply (page_insert_replaces (L := zion_layout)
           (run (page_alloc (L := zion_layout)) s_mapped)
           (kern_pgdir s_boot) 260 262 va0 PTE_W).
  - exact s_replace_private.
  - vm_compute. split; [discriminate|reflexivity].
  - vm_compute. discriminate.
  - vm_compute. discriminate.
  - vm_compute. reflexivity.
  - vm_compute. discriminate.
  - vm_compute. discriminate.
  - vm_compute. reflexivity.
  - vm_compute. reflexivity.
  - vm_compute. split; [discriminate|reflexivity].
  - vm_compute. reflexivity.
  - vm_compute. discriminate.
  - vm_compute. reflexivity.
Defined.

(** ** Addresses of one page *)

Lemma same_page_indices va va' :
  va / PGSIZE = va' / PGSIZE -> PDX va = PDX va' /\ PTX va = PTX va'.
Proof.
  intros H. unfold PDX, PTX.
  assert (E : Z.shiftr va 12 = Z.shiftr va' 12).
  { rewrite !Z.shiftr_div_pow2 by lia. exact H. }
  split.
  - change 22 with (12 + 10). rewrite <- !Z.shiftr_shiftr by lia.
    rewrite E. reflexivity.
  - rewrite E. reflexivity.
Qed.

Section SamePage.
Context {L : Layout}.

(** X22.  The walker and the functions that only read the tables look
    at the page of an address, not at its offset in the page: two
    addresses with the same page number get the same entry pointer from
    [pgdir_walk], the same answer from [page_lookup], and the same
    translation from [check_va2pa] and [va2page], in every state. *)
Theorem same_page_same_entry pgdir va va' :
  va / PGSIZE = va' / PGSIZE ->
  (forall create s, pgdir_walk pgdir va create s
                    = pgdir_walk pgdir va' create s) /\
  (forall pte_store s, page_lookup pgdir va pte_store s
                       = page_lookup pgdir va' pte_store s) /\
  (forall s, check_va2pa pgdir va s = check_va2pa pgdir va' s) /\
  (forall s, va2page va s = va2page va' s).
Proof.
  intros H. destruct (same_page_indices va va' H) as [Ed Et].
  assert (Ew : forall create s, pgdir_walk pgdir va create s
                                = pgdir_walk pgdir va' create s).
  { intros create s. unfold pgdir_walk, pde_slot, pte_slot.
    rewrite Ed, Et. reflexivity. }
  assert (Ec : forall pd s, check_va2pa pd va s = check_va2pa pd va' s).
  { intros pd s. unfold check_va2pa, pde_slot, pte_slot.
    rewrite Ed, Et. reflexivity. }
  split; [exact Ew|]. split; [|split].
  - intros pte_store s. unfold page_lookup, bind. rewrite Ew. reflexivity.
  - apply Ec.
  - intros s. unfold va2page, bind, gets. rewrite Ec. reflexivity.
Qed.

(** X23.  A table entry may hold a frame that the registry does not
    describe, as the entries written by [page_map_segment] for the
    kernel's map of all physical addresses do.  [page_lookup] turns the
    entry into a descriptor without comparing the frame number with the
    size of the registry, so [page_remove], [page_unmap] and a
    [page_insert] of another frame at such an address decrement a count
    past the end of the array. *)
Theorem page_remove_past_registry s pgdir va :
  pde_of s pgdir va <> 0 ->
  pte_slot (pde_of s pgdir va) va <> 0 ->
  pte_of s pgdir va <> 0 ->
  (length (pages s)
   <= Z.to_nat (PTE_ADDR (pte_of s pgdir va) / PGSIZE))%nat ->
  page_remove pgdir va s = Undefined /\
  (kern_pgdir s = pgdir -> page_unmap va s = Undefined) /\
  (forall pp perm,
     PTE_ADDR (pte_of s pgdir va) <> physaddr pp ->
     PTE_ADDR (pte_of s pgdir va) <> 0 ->
     page_insert pgdir pp va perm s = Undefined).
Proof.
  intros Hpde Hs He Hlen.
  assert (Hr : page_remove pgdir va s = Undefined).
  { apply (page_remove_out pgdir va s _ Hpde Hs He eq_refl).
    apply lookup_ge_None_2. exact Hlen. }
  split; [exact Hr|]. split.
  - intros Hk. unfold page_unmap, bind, gets. rewrite Hk, Hr. reflexivity.
  - intros pp perm Hne Hnz. unfold page_insert.
    rewrite (bind_eq _ _ _ _ _ (pgdir_walk_nocreate _ _ _)).
    pose proof Hpde as B1. pose proof Hs as B2.
    apply Z.eqb_neq in B1, B2. rewrite B1, B2. simpl.
    unfold bind at 1. unfold load at 1. rewrite pte_slot_pa.
    fold (pte_of s pgdir va).
    apply Z.eqb_neq in Hne, Hnz. rewrite Hne, Hnz. simpl.
    unfold bind at 1. unfold bind at 1. rewrite Hr. reflexivity.
Qed.

End SamePage.

Lemma same_page_same_entry_witness :
  (forall create s,
     pgdir_walk (L := zion_layout) 0xF0107000 0x00800000 create s
     = pgdir_walk (L := zion_layout) 0xF0107000 0x00800FFF create s) /\
  (forall pte_store s,
     page_lookup (L := zion_layout) 0xF0107000 0x00800000 pte_store s
     = page_lookup (L := zion_layout) 0xF0107000 0x00800FFF pte_store s) /\
  (forall s, check_va2pa (L := zion_layout) 0xF0107000 0x00800000 s
             = check_va2pa (L := zion_layout) 0xF0107000 0x00800FFF s) /\
  (forall s, va2page (L := zion_layout) 0x00800000 s
             = va2page (L := zion_layout) 0x00800FFF s).
Proof.
  apply (same_page_same_entry (L := zion_layout) 0xF0107000
           0x00800000 0x00800FFF).
  vm_compute. reflexivity.
Defined.

Lemma page_remove_past_registry_witness :
  page_remove (L := zion_layout) (kern_pgdir s_boot) 0x00801000 s_unregistered
  = Undefined /\
  (kern_pgdir s_unregistered = kern_pgdir s_boot ->
   page_unmap (L := zion_layout) 0x00801000 s_unregistered = Undefined) /\
  (forall pp perm,
     PTE_ADDR (pte_of (L := zion_layout) s_unregistered (kern_pgdir s_boot)
                      0x00801000) <> physaddr pp ->
     PTE_ADDR (pte_of (L := zion_layout) s_unregistered (kern_pgdir s_boot)
                      0x00801000) <> 0 ->
     page_insert (L := zion_layout) (kern_pgdir s_boot) pp 0x00801000 perm
       s_unregistered = Undefined).
Proof.
  apply (page_remove_past_registry (L := zion_layout) s_unregistered
           (kern_pgdir s_boot) 0x00801000).
  - vm_compute. discriminate.
  - vm_compute. discriminate.
  - vm_compute. discriminate.
  - vm_compute. lia.
Defined.

(** ** Other pages, failures, and the kernel directory *)

Section Others.
Context {L : Layout}.
Variables pgdir va : Z.
Hypothesis pgdir_aligned : aligned pgdir.
Hypothesis pgdir_range : 0 <= pgdir < WORD.

(** X24.  [page_remove] at [va] leaves the mapping of every other page
    as it is: for a page [va'] with another entry, whose table is not the
    frame that [page_remove] releases, the directory entry and the table
    entry are unchanged and [page_lookup] answers as before. *)
Theorem page_remove_other_page s G g va' :
  pde_of s pgdir va <> 0 ->
  pte_slot (pde_of s pgdir va) va <> 0 ->
  pte_of s pgdir va <> 0 ->
  G = Z.to_nat (PTE_ADDR (pte_of s pgdir va) / PGSIZE) ->
  pages s !! G = Some g ->
  PTE_ADDR (pde_of s pgdir va) <> PADDR pgdir ->
  physaddr G <> PADDR pgdir ->
  pte_pa (pde_of s pgdir va') va' <> pte_pa (pde_of s pgdir va) va ->
  physaddr G <> PTE_ADDR (pde_of s pgdir va') ->
  exists s1,
    page_remove pgdir va s = Done tt s1 /\
    pde_of s1 pgdir va' = pde_of s pgdir va' /\
    pte_of s1 pgdir va' = pte_of s pgdir va' /\
    forall r, page_lookup pgdir va' true s = Done r s ->
              page_lookup pgdir va' true s1 = Done r s1.
Proof.
  intros Hpde Hs He HG Hg Hne HGd Hent Htab.
  destruct (page_remove_mapped pgdir va s G g Hpde Hs He HG Hg)
    as (sd & Hdec & Hrem).
  rewrite (page_decref_eq s G g Hg) in Hdec. injection Hdec as Hdec.
  set (s1 := put (pages sd) (free_pages sd)
                 (updated (mem sd) (pte_pa (pde_of s pgdir va) va) 0)
                 (tlb_log s ++ [va]) s) in *.
  pose proof (PTX_range va') as Hx.
  assert (Hd : pde_of s1 pgdir va' = pde_of s pgdir va').
  { subst s1. rewrite pde_of_put.
    rewrite (pde_after_table_store pgdir va' pgdir_aligned pgdir_range)
      by exact Hne.
    rewrite <- Hdec.
    destruct ((pp_ref g - 1) mod REF_LIMIT =? 0); simpl; [|reflexivity].
    apply (pde_after_fill pgdir va' pgdir_aligned pgdir_range). exact HGd. }
  assert (Ht : pte_of s1 pgdir va' = pte_of s pgdir va').
  { unfold pte_of. rewrite Hd. subst s1. simpl.
    rewrite updated_ne by exact Hent. rewrite <- Hdec.
    destruct ((pp_ref g - 1) mod REF_LIMIT =? 0); simpl; [|reflexivity].
    unfold pte_pa. apply filled_other.
    - apply PTE_ADDR_aligned.
    - apply PTE_ADDR_range.
    - unfold PGSIZE. lia.
    - exact Htab. }
  exists s1. split; [exact Hrem|]. split; [exact Hd|]. split; [exact Ht|].
  intros r Hr. rewrite (page_lookup_eq pgdir va' s) in Hr.
  injection Hr as <-. rewrite (page_lookup_eq pgdir va' s1).
  rewrite Hd, Ht. reflexivity.
Qed.

(** X25.  [page_insert] with neither a table for the address nor a free
    frame to make one of fails without a trace: it returns [-E_NO_MEM],
    a negative number, and the state, the count of the frame included, is
    as before; [pgdir_walk] with [create] returns [NULL] in the same
    way. *)
Theorem page_insert_no_memory s pp perm :
  pde_of s pgdir va = 0 -> free_pages s = None ->
  page_insert pgdir pp va perm s = Done (- E_NO_MEM) s /\
  - E_NO_MEM < 0 /\
  pgdir_walk pgdir va true s = Done 0 s.
Proof.
  intros Hpde Hf. pose proof E_NO_MEM_pos.
  split; [apply page_insert_no_frame; assumption|].
  split; [lia|]. apply pgdir_walk_create_nomem; assumption.
Qed.

End Others.

Section KernelDirectory.
#[local] Existing Instance zion_layout.

(** X26.  The kernel directory as [mem_init] makes it: the head of the
    free list, referenced once and cleared.  It is empty: for every
    address [page_lookup] finds no table and [check_va2pa] answers [~0].
    With an empty free list [page_alloc] returns [NULL] and the
    increment of the count goes through the null pointer. *)
Theorem kern_pgdir_empty s :
  (free_pages s = None -> alloc_kern_pgdir s = Undefined) /\
  (forall T q,
     free_pages s = Some T -> pages s !! T = Some q ->
     exists s',
       alloc_kern_pgdir s = Done tt s' /\
       kern_pgdir s' = data T /\
       pages s' = <[T := mkPage (pp_next q) ((pp_ref q + 1) mod REF_LIMIT)]>
                    (pages s) /\
       free_pages s' = pp_next q /\
       forall va,
         pde_of s' (kern_pgdir s') va = 0 /\
         page_lookup (kern_pgdir s') va true s' = Done (None, None) s' /\
         check_va2pa (kern_pgdir s') va s' = Done 0xFFFFFFFF s').
Proof.
  split.
  - intros Hf. unfold alloc_kern_pgdir.
    rewrite (bind_eq _ _ _ _ _ (page_alloc_None s Hf)). reflexivity.
  - intros T q Hf Hq. unfold alloc_kern_pgdir.
    rewrite (bind_eq _ _ _ _ _ (page_alloc_Some s T q Hf Hq)).
    set (s1 := put _ _ _ _ s).
    assert (H1 : pages s1 !! T = Some q) by exact Hq.
    rewrite (bind_eq _ _ _ _ _ (incref_put _ _ _ H1)).
    unfold bind, modify, memset. rewrite PADDR_data.
    eexists. split; [reflexivity|]. split; [reflexivity|].
    split; [reflexivity|]. split; [reflexivity|].
    intros va. cbn [kern_pgdir set_mem set_kern_pgdir].
    assert (Hal : aligned (data T)).
    { apply KADDR_aligned. apply physaddr_aligned. }
    assert (Hr : 0 <= data T < WORD) by apply u32_range.
    match goal with
    | |- pde_of ?s' _ _ = 0 /\ _ =>
        assert (Hd : pde_of s' (data T) va = 0)
    end.
    { unfold pde_of. cbn [mem set_mem set_kern_pgdir].
      rewrite (pde_slot_pa (data T) va Hal Hr). rewrite PADDR_data.
      pose proof (PDX_range va). unfold filled at 1.
      rewrite memset_same_frame.
      - reflexivity.
      - apply physaddr_aligned.
      - apply physaddr_range.
      - unfold PGSIZE. lia. }
    split; [exact Hd|]. split.
    + rewrite (page_lookup_eq (data T) va). rewrite Hd. reflexivity.
    + rewrite check_va2pa_eq. rewrite Hd. reflexivity.
Qed.

End KernelDirectory.

Lemma page_remove_other_page_witness :
  exists s1,
    page_remove (L := zion_layout) (kern_pgdir s_boot) va0 s_unregistered
    = Done tt s1 /\
    pde_of (L := zion_layout) s1 (kern_pgdir s_boot) 0x00801000
    = pde_of (L := zion_layout) s_unregistered (kern_pgdir s_boot) 0x00801000 /\
    pte_of (L := zion_layout) s1 (kern_pgdir s_boot) 0x00801000
    = pte_of (L := zion_layout) s_unregistered (kern_pgdir s_boot) 0x00801000 /\
    forall r,
      page_lookup (L := zion_layout) (kern_pgdir s_boot) 0x00801000 true
        s_unregistered = Done r s_unregistered ->
      page_lookup (L := zion_layout) (kern_pgdir s_boot) 0x00801000 true s1
      = Done r s1.
Proof.
  apply (page_remove_other_page (L := zion_layout) (kern_pgdir s_boot) va0
           ltac:(vm_compute; reflexivity)
           ltac:(vm_compute; split; [discriminate|reflexivity])
           s_unregistered 262 (mkPage (Some 261%nat) 1) 0x00801000).
  - vm_compute. discriminate.
  - vm_compute. discriminate.
  - vm_compute. discriminate.
  - vm_compute. reflexivity.
  - vm_compute. reflexivity.
  - vm_compute. discriminate.
  - vm_compute. discriminate.
  - vm_compute. discriminate.
  - vm_compute. discriminate.
Defined.

Lemma page_insert_no_memory_witness :
  page_insert (L := zion_layout) (kern_pgdir s_boot) 262 va0 PTE_W s_exhausted
  = Done (- E_NO_MEM (Layout := zion_layout)) s_exhausted /\
  - E_NO_MEM (Layout := zion_layout) < 0 /\
  pgdir_walk (L := zion_layout) (kern_pgdir s_boot) va0 true s_exhausted
  = Done 0 s_exhausted.
Proof.
  apply (page_insert_no_memory (L := zion_layout) (kern_pgdir s_boot) va0
           s_exhausted 262 PTE_W).
  - vm_compute. reflexivity.
  - vm_compute. reflexivity.
Defined.

Lemma kern_pgdir_empty_witness :
  exists s',
    alloc_kern_pgdir s_init = Done tt s' /\
    kern_pgdir s' = data (L := zion_layout) 263 /\
    pages s' = <[263%nat := mkPage (pp_next (mkPage (Some 262%nat) 0))
                              ((pp_ref (mkPage (Some 262%nat) 0) + 1)
                               mod REF_LIMIT (Layout := zion_layout))]>
                 (pages s_init) /\
    free_pages s' = pp_next (mkPage (Some 262%nat) 0) /\
    forall va,
      pde_of (L := zion_layout) s' (kern_pgdir s') va = 0 /\
      page_lookup (L := zion_layout) (kern_pgdir s') va true s'
      = Done (None, None) s' /\
      check_va2pa (L := zion_layout) (kern_pgdir s') va s'
      = Done 0xFFFFFFFF s'.
Proof.
  apply (proj2 (kern_pgdir_empty s_init) 263%nat (mkPage (Some 262%nat) 0)).
  - vm_compute. reflexivity.
  - vm_compute. reflexivity.
Defined.

(** ** The bulk mapper on a range without a table *)

Section SegmentNewTable.
Context {L : Layout}.
Variable pgdir : Z.
Hypothesis pgdir_aligned : aligned pgdir.
Hypothesis pgdir_range : 0 <= pgdir < WORD.

(** The first turn of the loop gives the same result whether the table
    is made in it or was made before it. *)
Lemma map_one_new_table s la pa perm T q :
  0 <= la < WORD ->
  pde_of s pgdir la = 0 -> free_pages s = Some T -> pages s !! T = Some q ->
  forall sT ptr,
    pgdir_walk pgdir la true s = Done ptr sT ->
    pde_of sT pgdir la <> 0 -> ptr = pte_slot (pde_of sT pgdir la) la ->
    map_one pgdir la pa perm 0 s = map_one pgdir la pa perm 0 sT.
Proof.
  intros Hr Hpde Hf Hq sT ptr Hw Hpde' Hptr. unfold map_one.
  rewrite Z.add_0_r, (u32_id la Hr).
  rewrite (bind_eq _ _ _ _ _ Hw).
  rewrite (bind_eq _ _ _ _ _ (pgdir_walk_create_present pgdir la sT Hpde')).
  rewrite Hptr. reflexivity.
Qed.

(** X27.  [page_map_segment] over a range of [n] pages that lie under
    one directory entry for which there is no table yet: the table is
    made of the head of the free list, which gets one reference and is
    entered in the directory with the user, writable and present bits;
    the entries of the [n] pages are written as requested, the other
    entries of the new table are 0, and no other frame leaves the free
    list. *)
Theorem page_map_segment_new_table s la pa perm n T q :
  (1 <= n <= 1024)%nat ->
  aligned la -> 0 <= la -> la + Z.of_nat n * PGSIZE <= WORD ->
  aligned pa -> 0 <= pa -> pa + Z.of_nat n * PGSIZE <= WORD ->
  0 <= perm < PGSIZE ->
  (forall j, (j < n)%nat -> PDX (la + Z.of_nat j * PGSIZE) = PDX la) ->
  pde_of s pgdir la = 0 -> free_pages s = Some T -> pages s !! T = Some q ->
  physaddr T <> PADDR pgdir -> KADDR (physaddr T) <> 0 ->
  exists s',
    page_map_segment pgdir la (Z.of_nat n * PGSIZE) pa perm s = Done tt s' /\
    free_pages s' = pp_next q /\
    pages s' = <[T := mkPage (pp_next q) ((pp_ref q + 1) mod REF_LIMIT)]>
                 (pages s) /\
    tlb_log s' = tlb_log s /\
    pde_of s' pgdir la = physaddr T + (PTE_U + PTE_W + PTE_P) /\
    (forall j, (j < n)%nat ->
       pte_of s' pgdir (la + Z.of_nat j * PGSIZE)
       = pa + Z.of_nat j * PGSIZE + Z.lor perm PTE_P) /\
    (forall k, 0 <= k < 1024 ->
       (forall j, (j < n)%nat -> k <> PTX (la + Z.of_nat j * PGSIZE)) ->
       mem s' (physaddr T + 4 * k) = 0).
Proof.
  intros Hn Hla Hla0 Hlan Hpa Hpa0 Hpan Hperm Hsame Hpde Hf Hq HTd HTk.
  destruct (new_pde_bits T) as [Hn0 Hna].
  pose proof (pgdir_walk_create_new pgdir la s T q Hpde Hf Hq) as Hw.
  set (sT := put _ _ _ _ s) in Hw.
  assert (HsT : forall va', PDX va' = PDX la ->
            pde_of sT pgdir va' = new_pde T /\ pte_of sT pgdir va' = 0).
  { intros va' Hx.
    apply (new_table_state pgdir la pgdir_aligned pgdir_range s T _ _ _
             HTd va' Hx). }
  assert (Htab : forall j, (j < n)%nat ->
            table_present sT pgdir (la + Z.of_nat j * PGSIZE)).
  { intros j Hj. destruct (HsT _ (Hsame j Hj)) as [E _].
    unfold table_present. rewrite E, Hna. repeat split; assumption. }
  destruct (HsT la eq_refl) as [Ela _].
  assert (Hr : 0 <= la < WORD) by (unfold WORD, PGSIZE in *; lia).
  assert (Hone : map_one pgdir la pa perm 0 s = map_one pgdir la pa perm 0 sT).
  { apply (map_one_new_table s la pa perm T q Hr Hpde Hf Hq sT _ Hw).
    - rewrite Ela. exact Hn0.
    - rewrite Ela. reflexivity. }
  unfold page_map_segment.
  rewrite round_up_pages by (unfold WORD, PGSIZE in *; lia).
  rewrite Z.div_mul by (unfold PGSIZE; lia). rewrite Nat2Z.id.
  pose proof Hla as Hb. unfold aligned in Hb. apply Z.eqb_eq in Hb.
  rewrite Hb. simpl assert. unfold bind at 1. unfold ret at 1.
  destruct (map_loop pgdir pgdir_aligned pgdir_range sT la pa perm n
              ltac:(lia) Hla Hla0 Hlan Hpa0 Hpan Htab n 0%nat sT ltac:(lia))
    as (s' & Hrun & Hp & Hfp & Ht & Hd & Hm & Ho).
  { repeat split; try reflexivity. intros j Hj. lia. }
  assert (Hrun' : for_range 0 n
                    (fun k => map_one pgdir la pa perm (Z.of_nat k * PGSIZE)) s
                  = Done tt s').
  { rewrite <- Hrun. destruct n as [|c]; [lia|].
    rewrite !for_range_S. unfold bind.
    change (Z.of_nat 0 * PGSIZE) with 0. rewrite Hone. reflexivity. }
  exists s'. split; [exact Hrun'|]. split; [exact Hfp|]. split; [exact Hp|].
  split; [exact Ht|]. split; [|split].
  - replace la with (la + Z.of_nat 0 * PGSIZE) at 1 by (simpl; lia).
    rewrite (Hd 0%nat ltac:(lia)).
    replace (la + Z.of_nat 0 * PGSIZE) with la by (simpl; lia).
    rewrite Ela. apply (new_pde_value T).
  - intros j Hj. unfold pte_of. rewrite (Hd j Hj), (Hm j ltac:(lia)).
    apply entry_bits; [|unfold WORD, PGSIZE in *; lia|exact Hperm].
    apply aligned_add; [exact Hpa|]. unfold aligned.
    apply Z.mod_mul. unfold PGSIZE. lia.
  - intros k Hk Hoff. rewrite Ho.
    + subst sT. simpl.
      assert (Hsep : physaddr T + 4 * k <> PADDR (pde_slot pgdir la)).
      { rewrite pde_slot_pa by assumption. pose proof (PDX_range la).
        apply frame_sep.
        - apply physaddr_aligned.
        - apply PADDR_aligned. exact pgdir_aligned.
        - unfold PGSIZE. lia.
        - unfold PGSIZE. lia.
        - exact HTd. }
      rewrite updated_ne by exact Hsep.
      unfold filled at 1. rewrite memset_same_frame.
      * reflexivity.
      * apply physaddr_aligned.
      * apply physaddr_range.
      * unfold PGSIZE. lia.
    + intros j Hj. destruct (HsT _ (Hsame j Hj)) as [E _].
      rewrite E. unfold pte_pa. rewrite Hna.
      specialize (Hoff j Hj). lia.
Qed.

End SegmentNewTable.

Lemma page_map_segment_new_table_witness :
  exists s',
    page_map_segment (L := zion_layout) (kern_pgdir s_boot) va0
                     (Z.of_nat 3 * PGSIZE) 0x5000 PTE_W s_boot = Done tt s' /\
    free_pages s' = pp_next (mkPage (Some 261%nat) 0) /\
    pages s' = <[262%nat := mkPage (pp_next (mkPage (Some 261%nat) 0))
                              ((pp_ref (mkPage (Some 261%nat) 0) + 1)
                               mod REF_LIMIT (Layout := zion_layout))]>
                 (pages s_boot) /\
    tlb_log s' = tlb_log s_boot /\
    pde_of (L := zion_layout) s' (kern_pgdir s_boot) va0
    = physaddr 262 + (PTE_U + PTE_W + PTE_P) /\
    (forall j, (j < 3)%nat ->
       pte_of (L := zion_layout) s' (kern_pgdir s_boot)
              (va0 + Z.of_nat j * PGSIZE)
       = 0x5000 + Z.of_nat j * PGSIZE + Z.lor PTE_W PTE_P) /\
    (forall k, 0 <= k < 1024 ->
       (forall j, (j < 3)%nat -> k <> PTX (va0 + Z.of_nat j * PGSIZE)) ->
       mem s' (physaddr 262 + 4 * k) = 0).
Proof.
  apply (page_map_segment_new_table (L := zion_layout) (kern_pgdir s_boot)
           ltac:(vm_compute; reflexivity)
           ltac:(vm_compute; split; [discriminate|reflexivity])
           s_boot va0 0x5000 PTE_W 3 262 (mkPage (Some 261%nat) 0)).
  - lia.
  - vm_compute. reflexivity.
  - vm_compute. discriminate.
  - vm_compute. discriminate.
  - vm_compute. reflexivity.
  - vm_compute. discriminate.
  - vm_compute. discriminate.
  - vm_compute. split; [discriminate|reflexivity].
  - intros j Hj.
    assert (j = 0 \/ j = 1 \/ j = 2)%nat as [->|[->| ->]] by lia;
      vm_compute; reflexivity.
  - vm_compute. reflexivity.
  - vm_compute. reflexivity.
  - vm_compute. reflexivity.
  - vm_compute. discriminate.
  - vm_compute. discriminate.
Defined.
